(** * Inventory manager ("Gestion de Stock"): a shallow embedding and its properties

    The C program keeps a bounded array of products ([Invent]), persists it
    to [data.txt] as comma separated lines, appends a line per change to
    [inventory.txt] and offers add / modify / delete / search / statistics
    through a console menu.

    Layout of this development:
    - [Libc]      the parts of the C library the program relies on:
                  [int] and [float] arithmetic, [printf] and [scanf]
                  formats, [fgets], [atoi], [strftime];
    - [Product]   product.h and the record model (init, low stock, id
                  generation);
    - [Store]     file.c (save / load);
    - [Crud]      modification.c (search, add, modify, delete, change
                  log, reset);
    - [Display]   display.c (statistics, recent changes, product input,
                  the product table, low stock and search listings);
    - [Main]      source.c (the menu loop);
    - the vocabulary of the statements, then the lemmas and theorems:
      first the operations one by one, then the files and the console,
      then the menu loop.

    [int] is a [Z] with its 32-bit wrap-around written out, [float] is
    IEEE 754 binary32 ([SpecFloat] at precision 24), a C string is the
    list of its characters. Standard input, the two files, the clock and
    the indeterminate contents of uninitialised locals make up the
    [World] a function runs in. The console is not part of the state:
    the functions of modification.c return the one message they report
    together with their return code, and the listings of display.c
    return what they print, colour changes included. [system("cls")],
    the prompts and the menu itself are left out. *)

From Stdlib Require Import ZArith List Ascii String Bool Lia SpecFloat.
From stdpp Require Import base tactics option list list_numbers strings.

Local Open Scope Z_scope.

(** ** C strings *)

(** A C string is the sequence of characters before the terminating NUL. *)
Definition cstr := list ascii.

Definition lit (s : string) : cstr := list_ascii_of_string s.
Coercion lit : string >-> cstr.

Module Libc.

(** *** Characters *)

Definition NUL : ascii := "000"%char.
Definition LF : ascii := "010"%char.

Definition isdigit (c : ascii) : bool :=
  (48 <=? Z.of_nat (nat_of_ascii c)) && (Z.of_nat (nat_of_ascii c) <=? 57).

(** [isspace] in the "C" locale: space, \t, \n, \v, \f, \r. *)
Definition isspace (c : ascii) : bool :=
  let n := nat_of_ascii c in
  (n =? 32)%nat || ((9 <=? n)%nat && (n <=? 13)%nat).

Definition digit_val (c : ascii) : Z := Z.of_nat (nat_of_ascii c) - 48.
Definition digit_char (d : Z) : ascii := ascii_of_nat (Z.to_nat (48 + d)).

Definition mem_char (c : ascii) (set : cstr) : bool :=
  existsb (Ascii.eqb c) set.

(** *** [int]: 32-bit two's complement *)

Definition INT_MIN : Z := - 2 ^ 31.
Definition INT_MAX : Z := 2 ^ 31 - 1.

(** Wrap-around of a mathematical integer into [int]. *)
Definition wrap32 (z : Z) : Z := (z + 2 ^ 31) mod 2 ^ 32 - 2 ^ 31.

Definition is_int (z : Z) : Prop := INT_MIN <= z <= INT_MAX.

Definition int_add (a b : Z) : Z := wrap32 (a + b).

(** *** [float]: IEEE 754 binary32, round to nearest even *)

Definition float := spec_float.
Definition prec32 : Z := 24.
Definition emax32 : Z := 128.

Definition fzero : float := S754_zero false.
Definition fadd : float -> float -> float := SFadd prec32 emax32.
Definition fmul : float -> float -> float := SFmul prec32 emax32.
Definition fdiv : float -> float -> float := SFdiv prec32 emax32.
(** [(float) n] for an [int] [n]. *)
Definition float_of_int (n : Z) : float := binary_normalize prec32 emax32 n 0 false.
(** [x >= y]: false when either side is a NaN. *)
Definition fge (x y : float) : bool := SFleb y x.
Definition is_finite (x : float) : bool :=
  match x with S754_zero _ | S754_finite _ _ _ => true | _ => false end.
Definition valid_float (x : float) : bool := valid_binary prec32 emax32 x.

(** The float nearest to [(-1)^s * d * 10^e] (one rounding, as [strtof]). *)
Definition float_of_decimal (s : bool) (d : Z) (e : Z) : float :=
  if d <=? 0 then S754_zero s
  else if 0 <=? e then binary_normalize prec32 emax32 (if s then - (d * 10 ^ e) else d * 10 ^ e) 0 s
  else let '(q, e', l) := SFdiv_core_binary prec32 emax32 d 0 (10 ^ (- e)) 0 in
       binary_round_aux prec32 emax32 s q e' l.

(** *** Decimal output of integers *)

(** The digits of a non-negative number, most significant first; the
    usual divide-by-ten loop, which always emits at least one digit. *)
Fixpoint utoa_go (fuel : nat) (n : Z) (acc : cstr) : cstr :=
  match fuel with
  | O => acc
  | S fuel' =>
      let acc' := digit_char (n mod 10) :: acc in
      if n <? 10 then acc' else utoa_go fuel' (n / 10) acc'
  end.

Definition utoa (n : Z) : cstr := utoa_go (S (Z.to_nat (Z.log2 n))) n [].

Definition sign_str (neg : bool) : cstr := if neg then ["-"%char] else [].

(** *** Decimal input of integers *)

(** Consumes the longest run of digits, at most [w] of them. Returns the
    accumulated value, the number of digits read and the rest. *)
Fixpoint scan_digits (w : nat) (s : cstr) (acc : Z) (n : nat) : Z * nat * cstr :=
  match w, s with
  | S w', c :: s' =>
      if isdigit c then scan_digits w' s' (acc * 10 + digit_val c) (S n)
      else (acc, n, s)
  | _, _ => (acc, n, s)
  end.

Fixpoint skip_ws (s : cstr) : cstr :=
  match s with
  | c :: s' => if isspace c then skip_ws s' else s
  | [] => []
  end.

(** An optional sign, if the field width [w] leaves room for it. *)
Definition scan_sign (w : nat) (s : cstr) : bool * nat * cstr :=
  match w, s with
  | S w', c :: s' =>
      if (c =? "-")%char then (true, w', s')
      else if (c =? "+")%char then (false, w', s')
      else (false, w, s)
  | _, _ => (false, w, s)
  end.

(** The [%d] conversion: white space, sign, digits. The result is the
    converted value if there was at least one digit, and the rest of the
    input. A value out of range is stored wrapped; C leaves the result
    of such a conversion undefined and the runtimes differ, so the
    function is exact for the numerals within the range of [int]. *)
Definition scan_int (s : cstr) : option Z * cstr :=
  let s0 := skip_ws s in
  let '(neg, w1, s1) := scan_sign (length s0) s0 in
  let '(v, n, s2) := scan_digits w1 s1 0 0 in
  if (n =? 0)%nat then (None, s2)
  else (Some (wrap32 (if neg then - v else v)), s2).

Definition atoi (s : cstr) : Z :=
  match scan_int s with
  | (Some v, _) => v
  | (None, _) => 0
  end.

(** The exponent part of a decimal floating constant; it is consumed
    only when a digit follows. *)
Definition scan_exponent (s : cstr) : Z * cstr :=
  match s with
  | c :: s' =>
      if ((c =? "e") || (c =? "E"))%char then
        let '(neg, _, s1) := scan_sign 1 s' in
        let '(v, n, s2) := scan_digits (length s1) s1 0 0 in
        if (n =? 0)%nat then (0, s) else (if neg then - v else v, s2)
      else (0, s)
  | [] => (0, s)
  end.

(** The [%f] conversion on decimal floating constants
    [ws] [sign] digits [. digits] [e [sign] digits]. The hexadecimal and
    the inf / nan spellings that some C runtimes also read are matching
    failures here, and an exponent letter without digits is left on the
    input: the function is exact on the decimal constants whose
    exponent, if there is one, has digits. *)
Definition scan_float (s : cstr) : option float * cstr :=
  let s0 := skip_ws s in
  let '(neg, w1, s1) := scan_sign (length s0) s0 in
  let '(v1, n1, s2) := scan_digits w1 s1 0 0 in
  let '(v2, n2, s3) :=
    match s2 with
    | c :: s' => if (c =? ".")%char then scan_digits (length s') s' v1 0
                 else (v1, O, s2)
    | [] => (v1, O, s2)
    end in
  if (n1 + n2 =? 0)%nat then (None, s3)
  else let '(ex, s4) := scan_exponent s3 in
       (Some (float_of_decimal neg v2 (ex - Z.of_nat n2)), s4).

(** The longest prefix of at most [w] characters that satisfy [ok]. *)
Fixpoint take_while_n (w : nat) (ok : ascii -> bool) (s : cstr) : cstr * cstr :=
  match w, s with
  | S w', c :: s' =>
      if ok c then let '(a, r) := take_while_n w' ok s' in (c :: a, r)
      else ([], s)
  | _, _ => ([], s)
  end.

Definition nonempty (r : cstr * cstr) : option cstr * cstr :=
  match r with
  | ([], rest) => (None, rest)
  | (a, rest) => (Some a, rest)
  end.

(** The [%w[set]] and [%w[^set]] conversions; no width means no limit. *)
Definition scan_set (w : option nat) (neg : bool) (set : cstr) (s : cstr)
  : option cstr * cstr :=
  nonempty (take_while_n (default (length s) w)
                         (fun c => xorb neg (mem_char c set)) s).

(** The [%ws] conversion. *)
Definition scan_str (w : option nat) (s : cstr) : option cstr * cstr :=
  let s0 := skip_ws s in
  nonempty (take_while_n (default (length s0) w) (fun c => negb (isspace c)) s0).

(** The [%c] conversion. *)
Definition scan_char (s : cstr) : option ascii * cstr :=
  match s with
  | c :: s' => (Some c, s')
  | [] => (None, [])
  end.

(** *** [scanf] *)

Inductive sval :=
| VStr (s : cstr)
| VInt (n : Z)
| VFloat (x : float)
| VChar (c : ascii).

(** What a format asks for, piece by piece. *)
Inductive directive :=
| DSpace                                          (* white space: skip white space *)
| DLit (c : ascii)                                (* any other character: match it *)
| DInt                                            (* [%d] *)
| DFloat                                          (* [%f] *)
| DChar                                           (* [%c] *)
| DStr (w : option nat)                           (* [%ws] *)
| DSet (w : option nat) (neg : bool) (set : cstr) (* [%w[set]], [%w[^set]] *)
| DBad.                                           (* anything else *)

(** Where the reader is in the format string. *)
Inductive smode :=
| SLit                                       (* outside a conversion *)
| SWidth (w : option nat)                    (* after [%], reading the width *)
| SSetStart (w : option nat)                 (* just after [[] *)
| SSet (w : option nat) (neg : bool) (set : cstr).  (* inside [[...]], reversed *)

(** Reads a format. Conversions: [d], [f], [c], [s], [[...]], with a
    width for [s] and [[...]] only. *)
Fixpoint scan_format (fmt : cstr) (m : smode) : list directive :=
  match fmt with
  | [] => match m with SLit => [] | _ => [DBad] end
  | c :: fmt' =>
      match m with
      | SLit =>
          if (c =? "%")%char then scan_format fmt' (SWidth None)
          else if isspace c then DSpace :: scan_format fmt' SLit
          else DLit c :: scan_format fmt' SLit
      | SWidth w =>
          if isdigit c then
            scan_format fmt'
              (SWidth (Some (10 * default O w + Z.to_nat (digit_val c))%nat))
          else if (c =? "[")%char then scan_format fmt' (SSetStart w)
          else if (c =? "s")%char then DStr w :: scan_format fmt' SLit
          else match w with
               | Some _ => [DBad]
               | None =>
                   if (c =? "d")%char then DInt :: scan_format fmt' SLit
                   else if (c =? "f")%char then DFloat :: scan_format fmt' SLit
                   else if (c =? "c")%char then DChar :: scan_format fmt' SLit
                   else [DBad]
               end
      | SSetStart w =>
          if (c =? "^")%char then scan_format fmt' (SSet w true [])
          else scan_format fmt' (SSet w false [c])
      | SSet w neg set =>
          if (c =? "]")%char then DSet w neg (rev set) :: scan_format fmt' SLit
          else scan_format fmt' (SSet w neg (c :: set))
      end
  end.

(** A character of the format that must come next in the input. *)
Definition expect (c : ascii) (s : cstr) : option cstr :=
  match s with
  | c' :: s' => if (c' =? c)%char then Some s' else None
  | [] => None
  end.

(** Runs the directives over an input. [acc] holds the values assigned
    so far, last first. Returns the values assigned, in order, and the
    input left; the C function's result is the length of the list. The
    first directive that fails ends the scan. *)
Fixpoint run_scan (ds : list directive) (input : cstr) (acc : list sval)
  : list sval * cstr :=
  match ds with
  | [] => (rev acc, input)
  | d :: ds' =>
      match d with
      | DSpace => run_scan ds' (skip_ws input) acc
      | DLit c =>
          match expect c input with
          | Some r => run_scan ds' r acc
          | None => (rev acc, input)
          end
      | DInt =>
          match scan_int input with
          | (Some v, r) => run_scan ds' r (VInt v :: acc)
          | (None, r) => (rev acc, r)
          end
      | DFloat =>
          match scan_float input with
          | (Some v, r) => run_scan ds' r (VFloat v :: acc)
          | (None, r) => (rev acc, r)
          end
      | DChar =>
          match scan_char input with
          | (Some v, r) => run_scan ds' r (VChar v :: acc)
          | (None, r) => (rev acc, r)
          end
      | DStr w =>
          match scan_str w input with
          | (Some v, r) => run_scan ds' r (VStr v :: acc)
          | (None, r) => (rev acc, r)
          end
      | DSet w neg set =>
          match scan_set w neg set input with
          | (Some v, r) => run_scan ds' r (VStr v :: acc)
          | (None, r) => (rev acc, r)
          end
      | DBad => (rev acc, input)
      end
  end.

Definition sscanf (input : cstr) (fmt : cstr) : list sval * cstr :=
  run_scan (scan_format fmt SLit) input [].

(** *** [printf] *)

Definition pad_left (c : ascii) (w : nat) (s : cstr) : cstr :=
  replicate (w - length s) c ++ s.
Definition pad_right (c : ascii) (w : nat) (s : cstr) : cstr :=
  s ++ replicate (w - length s) c.

Record conv_spec := {
  cs_left : bool;          (* the [-] flag *)
  cs_zero : bool;          (* the [0] flag *)
  cs_width : nat;
  cs_prec : option nat
}.

Definition spec0 : conv_spec :=
  {| cs_left := false; cs_zero := false; cs_width := O; cs_prec := None |}.

(** Sign and digits laid out in a field. *)
Definition in_field (sp : conv_spec) (zero_ok : bool) (sign digits : cstr) : cstr :=
  if cs_left sp then pad_right " " (cs_width sp) (sign ++ digits)
  else if cs_zero sp && zero_ok then
    sign ++ pad_left "0" (cs_width sp - length sign) digits
  else pad_left " " (cs_width sp) (sign ++ digits).

(** [%d] *)
Definition fmt_d (sp : conv_spec) (n : Z) : cstr :=
  let ds := utoa (Z.abs n) in
  match cs_prec sp with
  | Some p => in_field sp false (sign_str (n <? 0)) (pad_left "0" p ds)
  | None => in_field sp true (sign_str (n <? 0)) ds
  end.

(** [%s] *)
Definition fmt_s (sp : conv_spec) (s : cstr) : cstr :=
  in_field sp false [] (match cs_prec sp with Some p => take p s | None => s end).

(** [m * 2^e * 10^p] rounded to an integer, ties to even. *)
Definition scaled_round (m e : Z) (p : nat) : Z :=
  let num := m * 10 ^ Z.of_nat p in
  if 0 <=? e then num * 2 ^ e
  else let den := 2 ^ (- e) in
       let q := num / den in
       let r := num mod den in
       match 2 * r ?= den with
       | Lt => q
       | Gt => q + 1
       | Eq => if Z.even q then q else q + 1
       end.

(** A scaled integer [n] written with [p] digits after the point. *)
Definition fixed (p : nat) (n : Z) : cstr :=
  let ds := pad_left "0" (S p) (utoa n) in
  let k := (length ds - p)%nat in
  match p with
  | O => ds
  | _ => take k ds ++ "."%char :: drop k ds
  end.

(** [%.pf]: the exact value, correctly rounded to [p] decimals. *)
Definition fmt_f (sp : conv_spec) (x : float) : cstr :=
  let p := default 6%nat (cs_prec sp) in
  match x with
  | S754_nan => in_field sp false [] "nan"
  | S754_infinity s => in_field sp false (sign_str s) "inf"
  | S754_zero s => in_field sp true (sign_str s) (fixed p 0)
  | S754_finite s m e => in_field sp true (sign_str s) (fixed p (scaled_round (Zpos m) e p))
  end.

Inductive parg :=
| PStr (s : cstr)
| PInt (n : Z)
| PFloat (x : float).

Inductive pmode :=
| PLit       (* outside a conversion *)
| PFlags     (* after [%] *)
| PWidth     (* in the width *)
| PPrec.     (* in the precision *)

Definition add_digit (o : option nat) (c : ascii) : option nat :=
  Some (10 * default O o + Z.to_nat (digit_val c))%nat.

(** Runs a format over its arguments. Conversions [d], [s], [f] and
    [%%], flags [-] and [0], width and precision. An argument of the
    wrong kind or a missing one ends the output. *)
Fixpoint sprintf_go (fmt : cstr) (m : pmode) (sp : conv_spec) (args : list parg) : cstr :=
  match fmt with
  | [] => []
  | c :: fmt' =>
      match m with
      | PLit =>
          if (c =? "%")%char then sprintf_go fmt' PFlags spec0 args
          else c :: sprintf_go fmt' PLit sp args
      | _ =>
          if (match m with PFlags => true | _ => false end) && (c =? "0")%char then
            sprintf_go fmt' PFlags
              {| cs_left := cs_left sp; cs_zero := true;
                 cs_width := cs_width sp; cs_prec := cs_prec sp |} args
          else if (match m with PFlags => true | _ => false end) && (c =? "-")%char then
            sprintf_go fmt' PFlags
              {| cs_left := true; cs_zero := cs_zero sp;
                 cs_width := cs_width sp; cs_prec := cs_prec sp |} args
          else if isdigit c then
            match m with
            | PPrec =>
                sprintf_go fmt' PPrec
                  {| cs_left := cs_left sp; cs_zero := cs_zero sp;
                     cs_width := cs_width sp; cs_prec := add_digit (cs_prec sp) c |} args
            | _ =>
                sprintf_go fmt' PWidth
                  {| cs_left := cs_left sp; cs_zero := cs_zero sp;
                     cs_width := (10 * cs_width sp + Z.to_nat (digit_val c))%nat;
                     cs_prec := cs_prec sp |} args
            end
          else if (c =? ".")%char then
            sprintf_go fmt' PPrec
              {| cs_left := cs_left sp; cs_zero := cs_zero sp;
                 cs_width := cs_width sp; cs_prec := Some O |} args
          else if (c =? "%")%char then c :: sprintf_go fmt' PLit sp args
          else
            match args with
            | PInt n :: args' =>
                if (c =? "d")%char then fmt_d sp n ++ sprintf_go fmt' PLit sp args' else []
            | PStr s :: args' =>
                if (c =? "s")%char then fmt_s sp s ++ sprintf_go fmt' PLit sp args' else []
            | PFloat x :: args' =>
                if (c =? "f")%char then fmt_f sp x ++ sprintf_go fmt' PLit sp args' else []
            | [] => []
            end
      end
  end.

Definition sprintf (fmt : cstr) (args : list parg) : cstr :=
  sprintf_go fmt PLit spec0 args.

(** *** Files and lines *)

(** [fgets] with a buffer of [size] bytes reads at most [size - 1]
    characters and stops after a newline. [None] at end of file. *)
Fixpoint fgets_go (n : nat) (s : cstr) : cstr * cstr :=
  match n, s with
  | S n', c :: s' =>
      if (c =? LF)%char then ([c], s')
      else let '(l, r) := fgets_go n' s' in (c :: l, r)
  | _, _ => ([], s)
  end.

Definition fgets (size : nat) (s : cstr) : option (cstr * cstr) :=
  match s with
  | [] => None
  | _ => Some (fgets_go (size - 1) s)
  end.

(** The string held by a character buffer: what precedes the first NUL. *)
Fixpoint c_str (buf : cstr) : cstr :=
  match buf with
  | c :: buf' => if (c =? NUL)%char then [] else c :: c_str buf'
  | [] => []
  end.

(** [strcspn s reject]: length of the prefix of [s] free of [reject]. *)
Fixpoint strcspn (s reject : cstr) : nat :=
  match s with
  | c :: s' => if mem_char c reject then O else S (strcspn s' reject)
  | [] => O
  end.

(** *** Time *)

Record tm := {
  tm_year : Z;   (* years since 1900 *)
  tm_mon : Z;    (* 0..11 *)
  tm_mday : Z;
  tm_hour : Z;
  tm_min : Z;
  tm_sec : Z
}.

Definition two_digits (n : Z) : cstr :=
  fmt_d {| cs_left := false; cs_zero := true; cs_width := 2; cs_prec := None |} n.

Definition strftime_conv (c : ascii) (t : tm) : cstr :=
  if (c =? "Y")%char then fmt_d spec0 (tm_year t + 1900)
  else if (c =? "m")%char then two_digits (tm_mon t + 1)
  else if (c =? "d")%char then two_digits (tm_mday t)
  else if (c =? "H")%char then two_digits (tm_hour t)
  else if (c =? "M")%char then two_digits (tm_min t)
  else if (c =? "S")%char then two_digits (tm_sec t)
  else if (c =? "%")%char then [c]
  else [].

Fixpoint strftime_go (fmt : cstr) (pct : bool) (t : tm) : cstr :=
  match fmt with
  | [] => []
  | c :: fmt' =>
      if pct then strftime_conv c t ++ strftime_go fmt' false t
      else if (c =? "%")%char then strftime_go fmt' true t
      else c :: strftime_go fmt' false t
  end.

(** [strftime] into a buffer of [maxsize] bytes: [None] when the text
    and its NUL do not fit (the buffer is then indeterminate). *)
Definition strftime (maxsize : nat) (fmt : cstr) (t : tm) : option cstr :=
  let s := strftime_go fmt false t in
  if (length s <? maxsize)%nat then Some s else None.

End Libc.

Import Libc.

(** ** Loops *)

(** [for (int i = lo; i < hi; i++) s = body i s]. *)
Fixpoint for_range {St : Type} (n : nat) (i : Z) (body : Z -> St -> St) (s : St) : St :=
  match n with
  | O => s
  | S n' => for_range n' (i + 1) body (body i s)
  end.

Definition for_upto {St : Type} (lo hi : Z) (body : Z -> St -> St) (s : St) : St :=
  for_range (Z.to_nat (hi - lo)) lo body s.

(** ** The environment of the program *)

(** Contents of automatic variables that the program reads without
    having written them: each is indeterminate in C and a parameter here. *)
Record Junk := {
  junk_buffer : cstr;       (* [buffer] in [modify_product] *)
  junk_qty : Z;             (* [qty] *)
  junk_price : float;       (* [price] *)
  junk_threshold : Z;       (* [threshold] *)
  junk_confirm : ascii;     (* [confirm] in [delete_product] *)
  junk_timestamp : cstr     (* [timestamp] when [strftime] returns 0 *)
}.

Record World := {
  stdin : cstr;                  (* what is left to read on standard input *)
  data_txt : option cstr;        (* the store; [None]: no such file *)
  inventory_txt : option cstr;   (* the change log *)
  data_writable : bool;          (* whether [fopen(Data, "w")] succeeds *)
  log_writable : bool;           (* whether [fopen(LOG_FILE, "a" / "w")] succeeds *)
  now : tm;                      (* [localtime(time(NULL))] *)
  junk : Junk
}.

Definition set_stdin (w : World) (s : cstr) : World :=
  {| stdin := s; data_txt := data_txt w; inventory_txt := inventory_txt w;
     data_writable := data_writable w; log_writable := log_writable w;
     now := now w; junk := junk w |}.

Definition set_data_txt (w : World) (f : option cstr) : World :=
  {| stdin := stdin w; data_txt := f; inventory_txt := inventory_txt w;
     data_writable := data_writable w; log_writable := log_writable w;
     now := now w; junk := junk w |}.

Definition set_inventory_txt (w : World) (f : option cstr) : World :=
  {| stdin := stdin w; data_txt := data_txt w; inventory_txt := f;
     data_writable := data_writable w; log_writable := log_writable w;
     now := now w; junk := junk w |}.

(** The one message a function reports on the console. *)
Inductive Msg :=
| MsgInventoryFull       (* "Error: Inventory is full." *)
| MsgIdExists            (* "Error: A product with this ID already exists." *)
| MsgAdded               (* "Product added successfully!" *)
| MsgNotFound            (* "Error: Product not found." *)
| MsgModified            (* "Product modified successfully!" *)
| MsgCancelled           (* "Deletion cancelled." *)
| MsgDeleted.            (* "Product deleted successfully!" *)

(** ** product.h and the record model *)

Module Product.

Definition Max : Z := 1000.

Record Prod := {
  name : cstr;        (* char name[50] *)
  id : cstr;          (* char id[10] *)
  category : cstr;    (* char category[30] *)
  quantity : Z;       (* int *)
  price : float;
  date : cstr;        (* char date[11] *)
  min_stock : Z       (* int *)
}.

Record Invent := {
  products : list Prod;   (* Prod products[Max] *)
  product_count : Z
}.

Inductive Change := ADD_PRODUCT | MODIFY_PRODUCT | DELETE_PRODUCT.

Global Instance Prod_inhabited : Inhabited Prod :=
  populate {| name := []; id := []; category := []; quantity := 0;
              price := fzero; date := []; min_stock := 0 |}.

(** [inv->products[i]] *)
Definition at_index (inv : Invent) (i : Z) : Prod := products inv !!! Z.to_nat i.

(** [inv->products[i] = p] *)
Definition store_at (inv : Invent) (i : Z) (p : Prod) : Invent :=
  {| products := <[Z.to_nat i := p]> (products inv);
     product_count := product_count inv |}.

Definition set_count (inv : Invent) (n : Z) : Invent :=
  {| products := products inv; product_count := n |}.

(** [localtime] may fail, which [init_prod] checks. *)
Definition init_prod (t : option tm) : Prod :=
  {| name := ""; id := ""; category := "";
     quantity := 0; price := fzero; min_stock := 5;
     date := match t with
             | Some tm_info =>
                 sprintf "%04d-%02d-%02d"
                   [PInt (int_add (tm_year tm_info) 1900);
                    PInt (int_add (tm_mon tm_info) 1); PInt (tm_mday tm_info)]
             | None => "0000-00-00"
             end |}.

Definition init_invent (inv : Invent) : Invent := set_count inv 0.

Definition is_low_stock (p : Prod) : bool := quantity p <=? min_stock p.

Definition count_low_stock_products (inv : Invent) : Z :=
  for_upto 0 (product_count inv)
    (fun i counter =>
       if quantity (at_index inv i) <=? min_stock (at_index inv i)
       then int_add counter 1 else counter)
    0.

(** [strncmp(a, b, n) == 0] *)
Definition strncmp_eq (a b : cstr) (n : nat) : bool :=
  bool_decide (take n a = take n b).

(** [strcmp(a, b) == 0] *)
Definition strcmp_eq (a b : cstr) : bool := bool_decide (a = b).

Definition generate_unique_id (inv : Invent) : cstr :=
  let max_id :=
    for_upto 0 (product_count inv)
      (fun i max_id =>
         if strncmp_eq (id (at_index inv i)) "P" 1 then
           let num := atoi (drop 1 (id (at_index inv i))) in
           if max_id <? num then num else max_id
         else max_id)
      0 in
  sprintf "P%03d" [PInt (int_add max_id 1)].

End Product.
Import Product.

(** ** file.c *)

Module Store.

Definition save_format : cstr := "%s,%s,%s,%d,%.2f,%d,%s
".

Definition load_format : cstr := "%49[^,],%9[^,],%29[^,],%d,%f,%d,%10[^,
]".

(** The text written for one product. *)
Definition save_line (p : Prod) : cstr :=
  sprintf save_format
    [PStr (name p); PStr (id p); PStr (category p);
     PInt (quantity p); PFloat (price p); PInt (min_stock p); PStr (date p)].

Definition save_inventory (inv : Invent) (w : World) : Z * World :=
  if negb (data_writable w) then (0, w)
  else
    let f := for_upto 0 (product_count inv)
               (fun i f => f ++ save_line (at_index inv i)) [] in
    (1, set_data_txt w (Some f)).

(** The product a line of the store denotes, if [sscanf] assigns all
    seven fields. *)
Definition parse_line (line : cstr) : option Prod :=
  match fst (sscanf line load_format) with
  | [VStr n; VStr i; VStr c; VInt q; VFloat pr; VInt m; VStr d] =>
      Some {| name := n; id := i; category := c; quantity := q;
              price := pr; min_stock := m; date := d |}
  | _ => None
  end.

(** [line[strcspn(line, "\n")] = '\0'] on the buffer [fgets] filled. *)
Definition chomp (buf : cstr) : cstr :=
  let line := c_str buf in
  take (strcspn line [LF]) line.

(** The [while] loop of [load_inventory]; every turn consumes input, so
    [fuel] beyond the length of the file changes nothing. *)
Fixpoint load_loop (fuel : nat) (f : cstr) (inv : Invent) : Invent :=
  match fuel with
  | O => inv
  | S fuel' =>
      match fgets 256 f with
      | None => inv
      | Some (buf, f') =>
          if product_count inv <? Max then
            match parse_line (chomp buf) with
            | Some p =>
                load_loop fuel' f'
                  (set_count (store_at inv (product_count inv) p)
                             (product_count inv + 1))
            | None => load_loop fuel' f' inv
            end
          else inv
      end
  end.

Definition load_inventory (inv : Invent) (w : World) : Z * Invent :=
  match data_txt w with
  | None => (0, inv)
  | Some f => (1, load_loop (S (length f)) f (set_count inv 0))
  end.

End Store.
Import Store.

(** ** modification.c *)

Module Crud.

(** The loop of [search_product_by_id], [n] turns left from index [i]. *)
Fixpoint search_from (n : nat) (i : Z) (inv : Invent) (pid : cstr) : Z :=
  match n with
  | O => -1
  | S n' =>
      if strcmp_eq (id (at_index inv i)) pid then i
      else search_from n' (i + 1) inv pid
  end.

Definition search_product_by_id (inv : Invent) (pid : cstr) : Z :=
  search_from (Z.to_nat (product_count inv)) 0 inv pid.

Definition log_format_full : cstr := "[%s] %s: %s (ID: %s, Qty: %d, Price: %.2f)
".

Definition log_format_reduced : cstr := "[%s] %s: %s (ID: %s)
".

Definition action_name (change : Change) : cstr :=
  match change with
  | ADD_PRODUCT => "ADDED"
  | MODIFY_PRODUCT => "MODIFIED"
  | DELETE_PRODUCT => "DELETED"
  end.

Definition log_timestamp (w : World) : cstr :=
  match strftime 20 "%Y-%m-%d %H:%M:%S" (now w) with
  | Some s => s
  | None => junk_timestamp (junk w)
  end.

(** What [log_inventory_change] prints into the log; [before] and
    [after] are [None] for a NULL pointer. *)
Definition log_text (timestamp : cstr) (change : Change) (before after : option Prod)
  : cstr :=
  let action := action_name change in
  match change, before, after with
  | ADD_PRODUCT, _, Some a =>
      sprintf log_format_full
        [PStr timestamp; PStr action; PStr (name a); PStr (id a);
         PInt (quantity a); PFloat (price a)]
  | DELETE_PRODUCT, Some b, _ =>
      sprintf log_format_full
        [PStr timestamp; PStr action; PStr (name b); PStr (id b);
         PInt (quantity b); PFloat (price b)]
  | MODIFY_PRODUCT, Some _, Some a =>
      sprintf log_format_reduced
        [PStr timestamp; PStr action; PStr (name a); PStr (id a)]
  | _, _, _ => []
  end.

(** Opening in append mode creates the log when it does not exist. *)
Definition log_inventory_change (change : Change) (before after : option Prod)
    (w : World) : World :=
  if negb (log_writable w) then w
  else set_inventory_txt w
         (Some (default [] (inventory_txt w)
                ++ log_text (log_timestamp w) change before after)).

Definition add_product (inv : Invent) (p : Prod) (w : World)
  : Z * Msg * Invent * World :=
  if Max <=? product_count inv then (0, MsgInventoryFull, inv, w)
  else if negb (search_product_by_id inv (id p) =? -1) then (0, MsgIdExists, inv, w)
  else
    let inv' := set_count (store_at inv (product_count inv) p)
                          (int_add (product_count inv) 1) in
    let w1 := log_inventory_change ADD_PRODUCT None (Some p) w in
    let w2 := snd (save_inventory inv' w1) in
    (1, MsgAdded, inv', w2).

(** Field assignments on [inv->products[index]]. *)
Definition with_name (p : Prod) (s : cstr) : Prod :=
  {| name := s; id := id p; category := category p; quantity := quantity p;
     price := price p; date := date p; min_stock := min_stock p |}.
Definition with_category (p : Prod) (s : cstr) : Prod :=
  {| name := name p; id := id p; category := s; quantity := quantity p;
     price := price p; date := date p; min_stock := min_stock p |}.
Definition with_quantity (p : Prod) (n : Z) : Prod :=
  {| name := name p; id := id p; category := category p; quantity := n;
     price := price p; date := date p; min_stock := min_stock p |}.
Definition with_price (p : Prod) (x : float) : Prod :=
  {| name := name p; id := id p; category := category p; quantity := quantity p;
     price := x; date := date p; min_stock := min_stock p |}.
Definition with_min_stock (p : Prod) (n : Z) : Prod :=
  {| name := name p; id := id p; category := category p; quantity := quantity p;
     price := price p; date := date p; min_stock := n |}.
Definition with_id (p : Prod) (s : cstr) : Prod :=
  {| name := name p; id := s; category := category p; quantity := quantity p;
     price := price p; date := date p; min_stock := min_stock p |}.
Definition with_date (p : Prod) (s : cstr) : Prod :=
  {| name := name p; id := id p; category := category p; quantity := quantity p;
     price := price p; date := s; min_stock := min_stock p |}.

Definition update_at (inv : Invent) (i : Z) (f : Prod -> Prod) : Invent :=
  store_at inv i (f (at_index inv i)).

(** The values of the locals of [modify_product] after its five [scanf]
    calls. A call that converts nothing leaves its variable as it was:
    [buffer] keeps what the previous call put there, the numbers keep
    their indeterminate initial contents. *)
Record Entries := {
  e_name : cstr;         (* [buffer] after [scanf("%49s", buffer)] *)
  e_category : cstr;     (* [buffer] after [scanf("%29s", buffer)] *)
  e_qty : Z;
  e_price : float;
  e_threshold : Z
}.

Definition read_entries (w : World) : Entries * World :=
  let '(r1, in1) := sscanf (stdin w) "%49s" in
  let buffer1 := match r1 with [VStr s] => s | _ => junk_buffer (junk w) end in
  let '(r2, in2) := sscanf in1 "%29s" in
  let buffer2 := match r2 with [VStr s] => s | _ => buffer1 end in
  let '(r3, in3) := sscanf in2 "%d" in
  let qty := match r3 with [VInt n] => n | _ => junk_qty (junk w) end in
  let '(r4, in4) := sscanf in3 "%f" in
  let price := match r4 with [VFloat x] => x | _ => junk_price (junk w) end in
  let '(r5, in5) := sscanf in4 "%d" in
  let threshold := match r5 with [VInt n] => n | _ => junk_threshold (junk w) end in
  ({| e_name := buffer1; e_category := buffer2; e_qty := qty;
      e_price := price; e_threshold := threshold |},
   set_stdin w in5).

(** The five guarded assignments of [modify_product]. The two [strcpy]
    calls are exact for a name of at most 49 characters and a category
    of at most 29, which is what [char name[50]] and [char category[30]]
    hold; a longer text runs over the members that follow, which C
    leaves undefined. The category is longer only when the second
    [scanf] reads nothing and [buffer] still holds a name of 30
    characters or more. *)
Definition apply_entries (inv : Invent) (index : Z) (e : Entries) : Invent :=
  let inv1 := if (0 <? length (e_name e))%nat
              then update_at inv index (fun p => with_name p (e_name e)) else inv in
  let inv2 := if (0 <? length (e_category e))%nat
              then update_at inv1 index (fun p => with_category p (e_category e)) else inv1 in
  let inv3 := if 0 <=? e_qty e
              then update_at inv2 index (fun p => with_quantity p (e_qty e)) else inv2 in
  let inv4 := if fge (e_price e) (float_of_int 0)
              then update_at inv3 index (fun p => with_price p (e_price e)) else inv3 in
  if 0 <=? e_threshold e
  then update_at inv4 index (fun p => with_min_stock p (e_threshold e)) else inv4.

Definition modify_product (inv : Invent) (pid : cstr) (w : World)
  : Z * Msg * Invent * World :=
  let index := search_product_by_id inv pid in
  if index =? -1 then (0, MsgNotFound, inv, w)
  else
    let original := at_index inv index in
    let '(e, w0) := read_entries w in
    let inv' := apply_entries inv index e in
    let w1 := log_inventory_change MODIFY_PRODUCT (Some original)
                (Some (at_index inv' index)) w0 in
    let w2 := snd (save_inventory inv' w1) in
    (1, MsgModified, inv', w2).

(** The answer read by [scanf(" %c", &confirm)]. *)
Definition read_confirm (w : World) : ascii * World :=
  let '(r, rest) := sscanf (stdin w) " %c" in
  (match r with [VChar c] => c | _ => junk_confirm (junk w) end, set_stdin w rest).

Definition confirmed (c : ascii) : bool := ((c =? "y") || (c =? "Y"))%char.

(** [for (i = index; i < count - 1; i++) products[i] = products[i + 1];] *)
Definition shift_left (inv : Invent) (index : Z) : Invent :=
  for_upto index (product_count inv - 1)
    (fun i inv => store_at inv i (at_index inv (i + 1))) inv.

Definition delete_product (inv : Invent) (pid : cstr) (w : World)
  : Z * Msg * Invent * World :=
  let index := search_product_by_id inv pid in
  if index =? -1 then (0, MsgNotFound, inv, w)
  else
    let deleted := at_index inv index in
    let '(confirm, w0) := read_confirm w in
    if negb (confirmed confirm) then (0, MsgCancelled, inv, w0)
    else
      let inv' := shift_left inv index in
      let inv' := set_count inv' (int_add (product_count inv') (-1)) in
      let w1 := log_inventory_change DELETE_PRODUCT (Some deleted) None w0 in
      let w2 := snd (save_inventory inv' w1) in
      (1, MsgDeleted, inv', w2).

Definition reset_inventory (inv : Invent) (w : World) : Invent * World :=
  let w1 := if data_writable w then set_data_txt w (Some []) else w in
  let w2 := if log_writable w1 then set_inventory_txt w1 (Some []) else w1 in
  (set_count inv 0, w2).

End Crud.
Import Crud.

(** ** display.c *)

Module Display.

Record Stats := {
  total_qty : Z;
  total_value : float;
  low_stock_count : Z;
  average_price : float;
  percent : option float     (* [None]: the branch that prints no percentage *)
}.

(** The three accumulators of the loop of [display_inventory_statistics]. *)
Definition stats_step (p : Prod) (acc : Z * float * Z) : Z * float * Z :=
  let '(qty, value, low) := acc in
  (int_add qty (quantity p),
   fadd value (fmul (float_of_int (quantity p)) (price p)),
   if is_low_stock p then int_add low 1 else low).

Definition display_inventory_statistics (inv : Invent) : Stats :=
  let '(qty, value, low) :=
    for_upto 0 (product_count inv)
      (fun i acc => stats_step (at_index inv i) acc) (0, fzero, 0) in
  let average :=
    if 0 <? qty then fdiv value (float_of_int qty) else fzero in
  {| total_qty := qty; total_value := value; low_stock_count := low;
     average_price := average;
     percent :=
       if 0 <? product_count inv then
         Some (fmul (fdiv (float_of_int low) (float_of_int (product_count inv)))
                    (float_of_int 100))
       else None |}.

(** The reading loop of [display_recent_changes] over [char lines[100][256]].
    [fgets] writes [lines[total]] before [total < 100] is tested; a write
    to [lines[100]] falls outside the array and leaves it as it is. In C
    that write lands on what lies behind the array, which is undefined:
    the function is exact for a log of at most 100 lines, and for a
    longer one as long as the write does no harm. *)
Fixpoint read_log (fuel : nat) (f : cstr) (lines : list cstr) (total : Z)
  : list cstr * Z :=
  match fuel with
  | O => (lines, total)
  | S fuel' =>
      match fgets 256 f with
      | None => (lines, total)
      | Some (buf, f') =>
          let lines' := <[Z.to_nat total := buf]> lines in
          if total <? 100 then read_log fuel' f' lines' (total + 1)
          else (lines', total)
      end
  end.

(** The lines printed after the heading, in the order printed; [None]
    when the log cannot be opened ("No history available."). The array
    starts with indeterminate contents, none of which is ever printed. *)
Definition display_recent_changes (count : Z) (w : World) : option (list cstr) :=
  match inventory_txt w with
  | None => None
  | Some f =>
      let '(lines, total) := read_log (S (length f)) f (replicate 100 []) 0 in
      let start := if count <? total then wrap32 (total - count) else 0 in
      Some (for_upto start total
              (fun i out => out ++ [c_str (lines !!! Z.to_nat i)]) [])
  end.

(** [input_product]: five [scanf] calls into the fields of [p], none of
    them checked, then the date of the day. A call that converts nothing
    leaves its field as it was. *)
Definition input_product (p : Prod) (w : World) : Prod * World :=
  let '(r1, in1) := sscanf (stdin w) "%49s" in
  let p1 := match r1 with [VStr s] => with_name p s | _ => p end in
  let '(r2, in2) := sscanf in1 "%29s" in
  let p2 := match r2 with [VStr s] => with_category p1 s | _ => p1 end in
  let '(r3, in3) := sscanf in2 "%d" in
  let p3 := match r3 with [VInt n] => with_quantity p2 n | _ => p2 end in
  let '(r4, in4) := sscanf in3 "%f" in
  let p4 := match r4 with [VFloat x] => with_price p3 x | _ => p3 end in
  let '(r5, in5) := sscanf in4 "%d" in
  let p5 := match r5 with [VInt n] => with_min_stock p4 n | _ => p4 end in
  let tm_info := now w in
  (with_date p5
     (sprintf "%04d-%02d-%02d"
        [PInt (int_add (tm_year tm_info) 1900);
         PInt (int_add (tm_mon tm_info) 1); PInt (tm_mday tm_info)]),
   set_stdin w in5).

(** *** The console *)

(** What a function puts on the console: text, and changes of the text
    attribute. *)
Inductive Out :=
| SetColor (color : Z)     (* [SetConsoleTextAttribute] *)
| Text (s : cstr).        (* the text of one [printf] call *)

Definition set_color (color : Z) : list Out := [SetColor color].

Definition reset_color : list Out := set_color 7.

Definition printf (fmt : cstr) (args : list parg) : list Out :=
  [Text (sprintf fmt args)].

(** [getchar()]: one character less to read, if there is one. *)
Definition getchar (w : World) : World := set_stdin w (drop 1 (stdin w)).

Definition row_format : cstr := "| %-20s | %-8s | %-12s | %4d | %14.2f FCFA | %10s |
".

Definition table_rule : cstr := "+----------------------+----------+--------------+------+---------------------+------------+
".

Definition table_head : cstr := "| Name                 | ID       | Category     | Qty  | Price (FCFA)        | Date       |
".

(** Red when out of stock, yellow when low, green otherwise. *)
Definition display_product (p : Prod) : list Out :=
  (if quantity p =? 0 then set_color 12
   else if is_low_stock p then set_color 14
   else set_color 10)
  ++ printf row_format
       [PStr (name p); PStr (id p); PStr (category p);
        PInt (quantity p); PFloat (price p); PStr (date p)]
  ++ reset_color.

Definition display_all_products (inv : Invent) : list Out :=
  printf ([LF] ++ table_rule) []
  ++ printf table_head []
  ++ printf table_rule []
  ++ for_upto 0 (product_count inv)
       (fun i out => out ++ display_product (at_index inv i)) []
  ++ printf table_rule []
  ++ printf "Total: %d product(s)
" [PInt (product_count inv)].

(** The loop carries what has been printed and the flag [found]. *)
Definition display_low_stock_products (inv : Invent) : list Out :=
  let '(out, found) :=
    for_upto 0 (product_count inv)
      (fun i st =>
         let '(out, found) := st in
         if is_low_stock (at_index inv i) then
           (out
            ++ (if negb found
                then printf table_rule [] ++ printf table_head [] ++ printf table_rule []
                else [])
            ++ display_product (at_index inv i),
            true)
         else (out, found))
      (printf "
=== LOW STOCK PRODUCTS ===
" [], false) in
  out ++ (if negb found
          then printf "No products are currently low in stock.
" []
          else printf table_rule []).

(** [strncmp(s, prefix, strlen(prefix)) == 0] *)
Fixpoint starts_with (s prefix : cstr) : bool :=
  match prefix, s with
  | [], _ => true
  | c :: prefix', d :: s' => (c =? d)%char && starts_with s' prefix'
  | _ :: _, [] => false
  end.

(** [strstr(haystack, needle)]: where the first occurrence starts,
    [None] for NULL. *)
Fixpoint strstr (haystack needle : cstr) : option nat :=
  if starts_with haystack needle then Some O
  else match haystack with
       | [] => None
       | _ :: haystack' => S <$> strstr haystack' needle
       end.

(** The test of the loop of [search_product]. *)
Definition matches (p : Prod) (keyword : cstr) : bool :=
  bool_decide (strstr (name p) keyword <> None) || strcmp_eq (id p) keyword.

(** [search_product]: [keyword0] is what [char keyword[50]] holds before
    [scanf("%s", keyword)], which is not checked. The conversion has no
    width: a word of 50 characters or more overruns the array and what
    lies behind it on the stack, which C leaves undefined. The function
    is exact for a keyword of at most 49 characters. *)
Definition search_product (inv : Invent) (keyword0 : cstr) (w : World)
  : list Out * World :=
  let '(r, rest) := sscanf (stdin w) "%s" in
  let keyword := match r with [VStr s] => s | _ => keyword0 end in
  let '(out, found) :=
    for_upto 0 (product_count inv)
      (fun i st =>
         let '(out, found) := st in
         if matches (at_index inv i) keyword then
           (out
            ++ (if negb found
                then printf table_rule [] ++ printf table_head [] ++ printf table_rule []
                else [])
            ++ display_product (at_index inv i),
            true)
         else (out, found))
      (printf "
Enter product name or ID to search: " []
       ++ printf "
=== SEARCH RESULTS ===
" [], false) in
  (out ++ (if negb found
           then printf "No matching products found.
" []
           else printf table_rule []),
   getchar (set_stdin w rest)).

End Display.
Import Display.

(** ** source.c *)

Module Main.

(** [generate_unique_id(new_product.id, &inventory)] writes its text
    into [char id[10]], which holds nine characters and the NUL. Of a
    longer text the characters past the tenth, and the NUL, land in
    [category], the member that follows [id] in [Prod], and the id reads
    on into them: "P100000000" leaves an empty category. C does not
    define a write past the member; this is what the layout of [Prod]
    gives at the time of the write, and the function is exact for a text
    of at most nine characters. *)
Definition write_id (p : Prod) (text : cstr) : Prod :=
  if (length text <=? 9)%nat then with_id p text
  else with_category (with_id p text) (drop 10 text).

(** [case 1] of the menu: a product is initialised, read from the
    console, given a fresh id and added. *)
Definition main_case_1 (inv : Invent) (w : World) : Z * Msg * Invent * World :=
  let new_product := init_prod (Some (now w)) in
  let '(new_product, w1) := input_product new_product w in
  let new_product := write_id new_product (generate_unique_id inv) in
  add_product inv new_product w1.

(** The variables of [main] that live across the turns of the menu. *)
Record Session := {
  inventory : Invent;
  choice : Z;
  main_id : cstr;          (* [char id[10]] *)
  world : World
}.

(** What the locals read before they are written hold at first. *)
Record Locals := {
  junk_choice : Z;
  junk_id : cstr;
  junk_keyword : cstr;       (* [keyword] in [search_product] *)
  junk_reset : ascii         (* [confirm] in [case 9] *)
}.

(** [scanf("%9s", id)] *)
Definition read_id (id0 : cstr) (w : World) : cstr * World :=
  let '(r, rest) := sscanf (stdin w) "%9s" in
  (match r with [VStr s] => s | _ => id0 end, set_stdin w rest).

(** The [switch]: the state after the case [choice] selects. The cases
    4, 6, 7 and 8 only print. *)
Definition main_switch (l : Locals) (choice : Z) (inv : Invent) (id0 : cstr) (w : World)
  : Invent * cstr * World :=
  if choice =? 1 then
    let '(_, _, inv', w') := main_case_1 inv w in (inv', id0, w')
  else if choice =? 2 then
    let '(id1, w1) := read_id id0 w in
    let '(_, _, inv', w') := modify_product inv id1 w1 in (inv', id1, w')
  else if choice =? 3 then
    let '(id1, w1) := read_id id0 w in
    let '(_, _, inv', w') := delete_product inv id1 w1 in (inv', id1, w')
  else if choice =? 5 then
    (inv, id0, snd (search_product inv (junk_keyword l) w))
  else if choice =? 9 then
    let '(r, rest) := sscanf (stdin w) " %c" in
    let confirm := match r with [VChar c] => c | _ => junk_reset l end in
    let w1 := set_stdin w rest in
    if confirmed confirm then
      let '(inv', w') := reset_inventory inv w1 in (inv', id0, w')
    else (inv, id0, w1)
  else (inv, id0, w).

(** One turn of the [do ... while]: the choice is read, unchecked, the
    case runs, and a key is awaited unless the choice is 0. *)
Definition main_turn (l : Locals) (s : Session) : Session :=
  let '(r, rest) := sscanf (stdin (world s)) "%d" in
  let choice := match r with [VInt n] => n | _ => choice s end in
  let w := getchar (set_stdin (world s) rest) in
  let '(inv', id', w') := main_switch l choice (inventory s) (main_id s) w in
  {| inventory := inv'; choice := choice; main_id := id';
     world := if negb (choice =? 0) then getchar w' else w' |}.

(** The loop ends after the turn that reads 0; [None] when [fuel] turns
    were not enough. *)
Fixpoint main_loop (fuel : nat) (l : Locals) (s : Session) : option Session :=
  match fuel with
  | O => None
  | S fuel' =>
      let s' := main_turn l s in
      if choice s' =? 0 then Some s' else main_loop fuel' l s'
  end.


End Main.
Import Main.

(** * Vocabulary of the statements *)

(** ** Inventories *)

(** The products the inventory holds: the first [product_count] slots. *)
Definition contents (inv : Invent) : list Prod :=
  take (Z.to_nat (product_count inv)) (products inv).

(** What the declarations [Prod products[Max]; int product_count;] and
    the guards on [product_count] maintain. *)
Definition wf_invent (inv : Invent) : Prop :=
  length (products inv) = Z.to_nat Max /\ 0 <= product_count inv <= Max.

(** An inventory holding [l]; the other slots are never read. *)
Definition inventory_of (l : list Prod) : Invent :=
  {| products := l ++ replicate (Z.to_nat Max - length l) inhabitant;
     product_count := Z.of_nat (length l) |}.

(** The first position in [l] whose id is [pid], counted from [i]. *)
Fixpoint first_with_id (l : list Prod) (pid : cstr) (i : Z) : Z :=
  match l with
  | [] => -1
  | p :: l' => if strcmp_eq (id p) pid then i else first_with_id l' pid (i + 1)
  end.

(** ** Statistics *)

(** The quantities added up as mathematical integers. *)
Definition sum_quantities (l : list Prod) : Z :=
  foldr (fun p s => quantity p + s) 0 l.

(** The values [quantity * price] added up in [float], in storage order. *)
Definition sum_values (l : list Prod) : float :=
  fold_left (fun v p => fadd v (fmul (float_of_int (quantity p)) (price p))) l fzero.

(** How many products of [l] are low in stock. *)
Definition count_low_stock (l : list Prod) : Z :=
  Z.of_nat (length (List.filter is_low_stock l)).

(** ** Digits and numerals *)

(** The number a digit string denotes, continuing from [acc]. *)
Definition digits_from (acc : Z) (ds : cstr) : Z :=
  fold_left (fun a c => a * 10 + digit_val c) ds acc.

(** The number a digit string denotes. *)
Definition digits_value (ds : cstr) : Z := digits_from 0 ds.

(** A string of decimal digits. *)
Definition all_digits (ds : cstr) : Prop := Forall (fun c => isdigit c = true) ds.

(** [%d] without flags: a minus sign for negatives, then the digits. *)
Definition decimal (n : Z) : cstr := sign_str (n <? 0) ++ utoa (Z.abs n).

(** [%.2f] *)
Definition two_decimals (x : float) : cstr :=
  fmt_f {| cs_left := false; cs_zero := false; cs_width := 0; cs_prec := Some 2%nat |} x.

(** [n] in decimal, zero-padded to three digits. *)
Definition three_digits (n : Z) : cstr := pad_left "0" 3 (utoa n).

(** The price in hundredths that [%.2f] prints, and its sign. *)
Definition hundredths (x : float) : Z :=
  match x with
  | S754_finite _ m e => scaled_round (Zpos m) e 2
  | _ => 0
  end.

(** Whether [%.2f] prints a minus sign. *)
Definition sign_of (x : float) : bool :=
  match x with
  | S754_zero s | S754_infinity s | S754_finite s _ _ => s
  | S754_nan => false
  end.

(** The [float] that [%f] reads from what [%.2f] printed of [x]: the
    one nearest to the two-decimal numeral. *)
Definition reread (x : float) : float :=
  float_of_decimal (sign_of x) (hundredths x) (-2).

(** ** Generated ids *)

(** The numbers [atoi] reads after the prefix, for the ids that start
    with "P", in storage order. *)
Definition id_numbers (l : list Prod) : list Z :=
  (fun p => atoi (drop 1 (id p))) <$> List.filter (fun p => strncmp_eq (id p) (lit "P") 1) l.

(** The greatest of the numbers, 0 when there is none. *)
Definition max_number (l : list Z) : Z := foldr Z.max 0 l.

(** One turn of the loop of [generate_unique_id]. *)
Definition max_id_step (p : Prod) (max_id : Z) : Z :=
  if strncmp_eq (id p) (lit "P") 1 then
    let num := atoi (drop 1 (id p)) in
    if max_id <? num then num else max_id
  else max_id.

(** ** Lines of a file *)

(** The successive results of [fgets(buf, 256, f)] until end of file. *)
Fixpoint fgets_lines_go (fuel : nat) (f : cstr) : list cstr :=
  match fuel with
  | O => []
  | S fuel' =>
      match fgets 256 f with
      | None => []
      | Some (buf, f') => buf :: fgets_lines_go fuel' f'
      end
  end.

(** Every turn consumes a character, so this fuel is enough. *)
Definition fgets_lines (f : cstr) : list cstr := fgets_lines_go (S (length f)) f.

(** The lines of a text, each with its newline; the last one may lack it. *)
Fixpoint split_lines (s : cstr) : list cstr :=
  match s with
  | [] => []
  | c :: s' =>
      if (c =? LF)%char then [c] :: split_lines s'
      else match split_lines s' with
           | [] => [[c]]
           | l :: ls => (c :: l) :: ls
           end
  end.

(** The records the lines of a file denote, in order. *)
Definition parsed_lines (lines : list cstr) : list Prod :=
  omap (fun buf => parse_line (chomp buf)) lines.

(** The last [n] elements of a list. *)
Definition last_n {A} (n : Z) (l : list A) : list A :=
  drop (length l - Z.to_nat n) l.

(** ** Scanned fields *)

(** A field free of the characters of [set]. *)
Definition free_of (set : cstr) (s : cstr) : Prop :=
  Forall (fun c => mem_char c set = false) s.

(** The scan of a run of characters stops at [rest]. *)
Definition stops (ok : ascii -> bool) (rest : cstr) : Prop :=
  match rest with
  | [] => True
  | c :: _ => ok c = false
  end.

(** Neither the NUL that ends a C string nor a newline. *)
Definition is_plain (c : ascii) : bool :=
  negb (Ascii.eqb c NUL) && negb (Ascii.eqb c LF).

(** A text without NUL or newline. *)
Definition plain (s : cstr) : Prop := Forall (fun c => is_plain c = true) s.

(** A text field that fits [w] characters and survives the store:
    not empty, no comma, no newline. *)
Definition text_field (w : nat) (s : cstr) : Prop :=
  (1 <= length s <= w)%nat /\ plain s /\ free_of [","%char] s.

(** A product every field of which the store format can carry. *)
Definition storable (p : Prod) : Prop :=
  text_field 49 (name p) /\ text_field 9 (id p) /\ text_field 29 (category p) /\
  text_field 10 (date p) /\ is_int (quantity p) /\ is_int (min_stock p) /\
  is_finite (price p) = true /\ valid_float (price p) = true.

(** The line [save_inventory] writes for [p], without its newline. *)
Definition record_text (p : Prod) : cstr :=
  name p ++ ","%char :: id p ++ ","%char :: category p ++ ","%char ::
  decimal (quantity p) ++ ","%char :: two_decimals (price p) ++ ","%char ::
  decimal (min_stock p) ++ ","%char :: date p.

(** A word [%ws] reads whole: not empty, at most [w] characters, no
    white space. *)
Definition is_word (w : nat) (s : cstr) : Prop :=
  (1 <= length s <= w)%nat /\ Forall (fun c => isspace c = false) s.

(** ** Time stamps *)

(** The shape YYYY-MM-DD HH:MM:SS. *)
Definition is_timestamp (s : cstr) : bool :=
  match s with
  | [y1; y2; y3; y4; a; m1; m2; b; d1; d2; sp; h1; h2; c; n1; n2; d; s1; s2] =>
      isdigit y1 && isdigit y2 && isdigit y3 && isdigit y4 &&
      (a =? "-")%char && isdigit m1 && isdigit m2 &&
      (b =? "-")%char && isdigit d1 && isdigit d2 &&
      (sp =? " ")%char && isdigit h1 && isdigit h2 &&
      (c =? ":")%char && isdigit n1 && isdigit n2 &&
      (d =? ":")%char && isdigit s1 && isdigit s2
  | _ => false
  end.

(** A broken-down time as [localtime] gives it, in a four-digit year. *)
Definition calendar_tm (t : tm) : Prop :=
  1000 <= tm_year t + 1900 <= 9999 /\ 0 <= tm_mon t <= 11 /\
  1 <= tm_mday t <= 31 /\ 0 <= tm_hour t <= 23 /\
  0 <= tm_min t <= 59 /\ 0 <= tm_sec t <= 60.

(** ** Modified records *)

(** The record the five guarded assignments leave in place of [p]. *)
Definition edited (e : Entries) (p : Prod) : Prod :=
  let p1 := if (0 <? length (e_name e))%nat then with_name p (e_name e) else p in
  let p2 := if (0 <? length (e_category e))%nat then with_category p1 (e_category e) else p1 in
  let p3 := if 0 <=? e_qty e then with_quantity p2 (e_qty e) else p2 in
  let p4 := if fge (e_price e) (float_of_int 0) then with_price p3 (e_price e) else p3 in
  if 0 <=? e_threshold e then with_min_stock p4 (e_threshold e) else p4.

(** ** Sample data *)

(** Locals that start out as zeros, and "n" for the answer. *)
Definition junk0 : Junk :=
  {| junk_buffer := []; junk_qty := 0; junk_price := fzero;
     junk_threshold := 0; junk_confirm := "n"%char; junk_timestamp := [] |}.

(** 2024-03-09 14:05:30 *)
Definition tm0 : tm :=
  {| tm_year := 124; tm_mon := 2; tm_mday := 9;
     tm_hour := 14; tm_min := 5; tm_sec := 30 |}.

(** Nothing typed, no file yet, both files writable. *)
Definition world0 : World :=
  {| stdin := []; data_txt := None; inventory_txt := None;
     data_writable := true; log_writable := true; now := tm0; junk := junk0 |}.

(** Three products with the ids P001, P003 and P010. *)
Definition rice : Prod :=
  {| name := lit "Rice"; id := lit "P001"; category := lit "Food"; quantity := 10;
     price := float_of_int 500; date := lit "2024-03-09"; min_stock := 5 |}.

Definition oil : Prod :=
  {| name := lit "Oil"; id := lit "P003"; category := lit "Food"; quantity := 3;
     price := float_of_int 1250; date := lit "2024-03-09"; min_stock := 5 |}.

Definition soap : Prod :=
  {| name := lit "Soap"; id := lit "P010"; category := lit "Home"; quantity := 0;
     price := float_of_int 300; date := lit "2024-03-09"; min_stock := 2 |}.

(** A product with a quantity below zero. *)
Definition returns : Prod :=
  {| name := lit "Returns"; id := lit "P001"; category := lit "Food"; quantity := -5;
     price := float_of_int 2; date := lit "2024-03-09"; min_stock := 5 |}.

(** The inventory that holds the three of them. *)
Definition stock : Invent := inventory_of [rice; oil; soap].

(** A store of two good lines around a bad one. *)
Definition sample_store : cstr :=
  lit "Rice,P001,Food,10,500.00,5,2024-03-09" ++ [LF]
  ++ lit "not a record" ++ [LF]
  ++ lit "Oil,P003,Food,3,1250.00,5,2024-03-09" ++ [LF].

(** A store in which two lines carry the id P001. *)
Definition twin_store : cstr :=
  lit "Rice,P001,Food,10,500.00,5,2024-03-09" ++ [LF]
  ++ lit "Maize,P001,Food,4,350.00,5,2024-03-09" ++ [LF].

(** A log whose lines are the numbers 1 to [k]. *)
Definition numbered_log (k : Z) : cstr :=
  flat_map (fun i => utoa i ++ [LF]) (seqZ 1 k).

(** ** Logs, dates and tables *)

(** The log of [w'] begins with the log of [w]; a missing log counts
    as an empty one. *)
Definition log_grows (w w' : World) : Prop :=
  default [] (inventory_txt w) `prefix_of` default [] (inventory_txt w').

(** The shape YYYY-MM-DD. *)
Definition is_date (s : cstr) : bool :=
  match s with
  | [y1; y2; y3; y4; a; m1; m2; b; d1; d2] =>
      isdigit y1 && isdigit y2 && isdigit y3 && isdigit y4 &&
      (a =? "-")%char && isdigit m1 && isdigit m2 &&
      (b =? "-")%char && isdigit d1 && isdigit d2
  | _ => false
  end.

(** The row of the table for [p]: name, id and category flush left in
    20, 8 and 12 columns; quantity, price and date flush right in 4, 14
    and 10. *)
Definition row_text (p : Prod) : cstr :=
  lit "| " ++ pad_right " " 20 (name p) ++ lit " | " ++ pad_right " " 8 (id p)
  ++ lit " | " ++ pad_right " " 12 (category p)
  ++ lit " | " ++ pad_left " " 4 (decimal (quantity p))
  ++ lit " | " ++ pad_left " " 14 (two_decimals (price p))
  ++ lit " FCFA | " ++ pad_left " " 10 (date p) ++ lit " |" ++ [LF].

(** Every field of [p] fits its column. *)
Definition fits_columns (p : Prod) : Prop :=
  (length (name p) <= 20)%nat /\ (length (id p) <= 8)%nat /\
  (length (category p) <= 12)%nat /\ (length (decimal (quantity p)) <= 4)%nat /\
  (length (two_decimals (price p)) <= 14)%nat /\ (length (date p) <= 10)%nat.

(** The colour of a row. *)
Definition row_color (p : Prod) : Z :=
  if quantity p =? 0 then 12 else if quantity p <=? min_stock p then 14 else 10.

(** The head of a table and its rows; nothing when there is no row. *)
Definition listing (rows : list Prod) : list Out :=
  match rows with
  | [] => []
  | _ => [Text table_rule; Text table_head; Text table_rule]
         ++ flat_map display_product rows
  end.

(** One turn of the loops of [display_low_stock_products] and
    [search_product]: a product that passes [test] is printed, after the
    head of the table if it is the first. *)
Definition listing_step (test : Prod -> bool) (p : Prod) (st : list Out * bool)
  : list Out * bool :=
  let '(out, found) := st in
  if test p then
    (out
     ++ (if negb found
         then printf table_rule [] ++ printf table_head [] ++ printf table_rule []
         else [])
     ++ display_product p,
     true)
  else (out, found).

(** A text without NUL. *)
Definition nul_free (s : cstr) : Prop := Forall (fun c => c <> NUL) s.

(** A log [display_recent_changes] reads whole: no NUL, lines of at
    most 255 characters, newline included, and at most [k] of them. *)
Definition short_log (k : nat) (f : cstr) : Prop :=
  nul_free f /\ Forall (fun l => (length l <= 255)%nat) (split_lines f) /\
  (length (split_lines f) <= k)%nat.

(** A text whose last line, if any, ends with a newline. *)
Definition whole_lines (f : cstr) : Prop := f = [] \/ exists f0, f = f0 ++ [LF].

(** * Properties *)

(** ** The inventory as a sequence *)

Lemma contents_length inv :
  wf_invent inv -> length (contents inv) = Z.to_nat (product_count inv).
Proof.
  intros [Hlen Hc]. unfold contents. rewrite length_take. unfold Max in *. lia.
Qed.

Lemma at_index_contents inv i p :
  0 <= i -> contents inv !! Z.to_nat i = Some p -> at_index inv i = p.
Proof.
  intros Hi Hl. unfold at_index, contents in *.
  apply lookup_take_Some in Hl as [Hl _].
  by rewrite list_lookup_total_alt, Hl.
Qed.

Lemma contents_inventory_of l :
  (length l <= Z.to_nat Max)%nat -> contents (inventory_of l) = l.
Proof.
  intros Hl. unfold contents, inventory_of. simpl.
  rewrite Nat2Z.id. by rewrite take_app_length.
Qed.

Lemma wf_inventory_of l :
  (length l <= Z.to_nat Max)%nat -> wf_invent (inventory_of l).
Proof.
  intros Hl. unfold wf_invent, inventory_of. simpl.
  rewrite length_app, length_replicate. unfold Max in *. lia.
Qed.

(** ** Loops over the array *)

Lemma for_range_read {A St : Type} `{Inhabited A} (f : A -> St -> St) (arr : list A)
    n (i : nat) s :
  (i + n <= length arr)%nat ->
  for_range n (Z.of_nat i) (fun j acc => f (arr !!! Z.to_nat j) acc) s
  = fold_left (fun acc p => f p acc) (take n (drop i arr)) s.
Proof.
  revert i s. induction n as [|n IH]; intros i s Hlen; simpl.
  - done.
  - destruct (lookup_lt_is_Some_2 arr i) as [p Hp]; [lia|].
    rewrite (drop_S _ _ _ Hp). simpl.
    rewrite Nat2Z.id, (list_lookup_total_correct _ _ _ Hp).
    replace (Z.of_nat i + 1) with (Z.of_nat (S i)) by lia.
    apply IH. lia.
Qed.

Lemma for_upto_contents {St : Type} (f : Prod -> St -> St) inv s :
  wf_invent inv ->
  for_upto 0 (product_count inv) (fun i acc => f (at_index inv i) acc) s
  = fold_left (fun acc p => f p acc) (contents inv) s.
Proof.
  intros [Hlen Hc]. unfold for_upto, contents, at_index.
  rewrite Z.sub_0_r.
  change 0 with (Z.of_nat 0). rewrite for_range_read; [done|].
  unfold Max in *. lia.
Qed.

(** ** [search_product_by_id] *)

Lemma search_from_spec arr count n (i : nat) pid :
  (i + n <= length arr)%nat ->
  search_from n (Z.of_nat i) {| products := arr; product_count := count |} pid
  = first_with_id (take n (drop i arr)) pid (Z.of_nat i).
Proof.
  revert i. induction n as [|n IH]; intros i Hlen; simpl.
  - done.
  - destruct (lookup_lt_is_Some_2 arr i) as [p Hp]; [lia|].
    rewrite (drop_S _ _ _ Hp). simpl. unfold at_index. simpl.
    rewrite Nat2Z.id, (list_lookup_total_correct _ _ _ Hp).
    destruct (strcmp_eq (id p) pid); [done|].
    replace (Z.of_nat i + 1) with (Z.of_nat (S i)) by lia.
    apply IH. lia.
Qed.

Lemma search_contents inv pid :
  wf_invent inv ->
  search_product_by_id inv pid = first_with_id (contents inv) pid 0.
Proof.
  intros [Hlen Hc]. unfold search_product_by_id, contents.
  destruct inv as [arr count]. simpl in *.
  change 0 with (Z.of_nat 0) at 1. rewrite search_from_spec; [done|].
  unfold Max in *. lia.
Qed.

Lemma first_with_id_none l pid i :
  first_with_id l pid i = -1 -> 0 <= i -> Forall (fun p => id p <> pid) l.
Proof.
  revert i. induction l as [|p l IH]; intros i H Hi; simpl in *.
  - constructor.
  - unfold strcmp_eq in H. case_bool_decide.
    + lia.
    + constructor; [done|]. apply (IH (i + 1)); [done|lia].
Qed.

Lemma first_with_id_absent l pid i :
  Forall (fun p => id p <> pid) l -> first_with_id l pid i = -1.
Proof.
  intros H. revert i. induction H as [|p l Hp _ IH]; intros i; simpl.
  - done.
  - unfold strcmp_eq. by rewrite bool_decide_eq_false_2.
Qed.

Lemma first_with_id_found l pid i :
  first_with_id l pid i <> -1 -> 0 <= i ->
  exists k p, first_with_id l pid i = i + Z.of_nat k /\ l !! k = Some p /\ id p = pid
              /\ Forall (fun q => id q <> pid) (take k l).
Proof.
  revert i. induction l as [|p l IH]; intros i H Hi; simpl in *.
  - done.
  - unfold strcmp_eq in *. case_bool_decide as Hp.
    + exists O, p. simpl. repeat split; [lia|done|constructor].
    + destruct (IH (i + 1) H) as (k & q & Hk & Hq & Hid & Hbefore); [lia|].
      exists (S k), q. simpl. repeat split; [lia|done|done|].
      by constructor.
Qed.

Lemma first_with_id_app_absent l1 l2 pid i :
  Forall (fun p => id p <> pid) l1 ->
  first_with_id (l1 ++ l2) pid i = first_with_id l2 pid (i + Z.of_nat (length l1)).
Proof.
  intros H. revert i. induction H as [|p l Hp _ IH]; intros i; simpl.
  - f_equal. lia.
  - unfold strcmp_eq. rewrite bool_decide_eq_false_2 by done.
    rewrite IH. f_equal. lia.
Qed.

(** ** [int] arithmetic *)

Lemma wrap32_id z : is_int z -> wrap32 z = z.
Proof.
  unfold is_int, INT_MIN, INT_MAX, wrap32. intros H.
  rewrite Z.mod_small by lia. lia.
Qed.

Lemma wrap32_range z : is_int (wrap32 z).
Proof.
  unfold is_int, INT_MIN, INT_MAX, wrap32.
  pose proof (Z.mod_pos_bound (z + 2 ^ 31) (2 ^ 32)). lia.
Qed.

Lemma int_add_id a b : is_int (a + b) -> int_add a b = a + b.
Proof. apply wrap32_id. Qed.

(** ** [add_product] *)

Lemma contents_store_next inv p :
  wf_invent inv -> product_count inv < Max ->
  contents (set_count (store_at inv (product_count inv) p) (product_count inv + 1))
  = contents inv ++ [p].
Proof.
  intros [Hlen Hc] Hlt. unfold contents, set_count, store_at. simpl.
  replace (Z.to_nat (product_count inv + 1)) with (S (Z.to_nat (product_count inv))) by lia.
  erewrite take_S_r.
  - by rewrite take_insert_ge by lia.
  - apply list_lookup_insert_eq. unfold Max in *. lia.
Qed.

Lemma wf_store_next inv p :
  wf_invent inv -> product_count inv < Max ->
  wf_invent (set_count (store_at inv (product_count inv) p) (product_count inv + 1)).
Proof.
  intros [Hlen Hc] Hlt. unfold wf_invent, set_count, store_at. simpl.
  rewrite length_insert. lia.
Qed.

(** C1. [add_product] on a full inventory, on a duplicate id, and on a
    fresh id: the two failures leave the inventory as it was; a success
    appends the product, raises the count by one, and
    [search_product_by_id] finds the new record at the old count. *)
Theorem add_product_spec inv p w :
  wf_invent inv ->
  let '(ret, msg, inv', _) := add_product inv p w in
  (product_count inv = Max ->
     ret = 0 /\ msg = MsgInventoryFull /\ inv' = inv) /\
  (product_count inv < Max -> (exists q, q ∈ contents inv /\ id q = id p) ->
     ret = 0 /\ msg = MsgIdExists /\ inv' = inv) /\
  (product_count inv < Max -> (forall q, q ∈ contents inv -> id q <> id p) ->
     ret = 1 /\ msg = MsgAdded /\
     contents inv' = contents inv ++ [p] /\
     product_count inv' = product_count inv + 1 /\
     search_product_by_id inv' (id p) = product_count inv).
Proof.
  intros Hwf. pose proof Hwf as [Hlen Hc]. unfold add_product.
  destruct (Z.leb_spec Max (product_count inv)) as [Hfull|Hroom].
  { repeat split; try done; lia. }
  rewrite (search_contents _ _ Hwf).
  destruct (Z.eqb_spec (first_with_id (contents inv) (id p) 0) (-1)) as [Habs|Hdup]; simpl.
  - apply first_with_id_none in Habs; [|lia].
    rewrite int_add_id by (unfold is_int, INT_MIN, INT_MAX, Max in *; lia).
    split; [lia|]. split.
    + intros _ (q & Hq & Hid). rewrite Forall_forall in Habs. by destruct (Habs q Hq).
    + intros _ _. repeat split.
      * by apply contents_store_next.
      * rewrite search_contents by (by apply wf_store_next).
        rewrite contents_store_next by done.
        rewrite first_with_id_app_absent by done. simpl.
        unfold strcmp_eq. rewrite bool_decide_eq_true_2 by done.
        rewrite contents_length by done. lia.
  - split; [lia|]. split; [done|].
    intros _ Hfresh. exfalso. apply Hdup, first_with_id_absent.
    by apply Forall_forall.
Qed.

(** ** [delete_product] *)

Lemma shift_range arr c n (i : nat) :
  (i + n < length arr)%nat ->
  for_range n (Z.of_nat i) (fun j inv => store_at inv j (at_index inv (j + 1)))
    {| products := arr; product_count := c |}
  = {| products := take i arr ++ take n (drop (S i) arr) ++ drop (i + n) arr;
       product_count := c |}.
Proof.
  revert arr i. induction n as [|n IH]; intros arr i Hlen; simpl.
  - rewrite Nat.add_0_r. simpl. by rewrite take_drop.
  - unfold store_at at 2, at_index at 2. simpl.
    destruct (lookup_lt_is_Some_2 arr (S i)) as [x Hx]; [lia|].
    replace (Z.to_nat (Z.of_nat i + 1)) with (S i) by lia.
    rewrite (list_lookup_total_correct _ _ _ Hx), Nat2Z.id.
    replace (Z.of_nat i + 1) with (Z.of_nat (S i)) by lia.
    rewrite IH by (rewrite length_insert; lia).
    f_equal.
    rewrite (drop_S _ _ _ Hx). simpl.
    erewrite take_S_r by (apply list_lookup_insert_eq; lia).
    rewrite take_insert_ge by lia.
    rewrite !drop_insert_lt by lia.
    rewrite <- app_assoc. simpl.
    by replace (i + S n)%nat with (S i + n)%nat by lia.
Qed.

Lemma shift_left_spec inv k :
  wf_invent inv -> 0 <= k < product_count inv ->
  shift_left inv k
  = {| products := take (Z.to_nat k) (products inv)
                   ++ take (Z.to_nat (product_count inv - 1 - k))
                        (drop (S (Z.to_nat k)) (products inv))
                   ++ drop (Z.to_nat (product_count inv - 1)) (products inv);
       product_count := product_count inv |}.
Proof.
  intros [Hlen Hc] Hk. unfold shift_left, for_upto.
  destruct inv as [arr c]. simpl in *.
  assert (Hkn : k = Z.of_nat (Z.to_nat k)) by lia.
  revert Hkn. generalize (Z.to_nat k). intros kn ->.
  rewrite shift_range by (unfold Max in *; lia).
  replace (kn + Z.to_nat (c - 1 - Z.of_nat kn))%nat with (Z.to_nat (c - 1)) by lia. done.
Qed.

Lemma contents_shift_left inv k :
  wf_invent inv -> 0 <= k < product_count inv ->
  contents (set_count (shift_left inv k) (product_count inv - 1))
  = delete (Z.to_nat k) (contents inv).
Proof.
  intros Hwf Hk. pose proof Hwf as [Hlen Hc].
  rewrite shift_left_spec by done. unfold contents. simpl.
  rewrite delete_take_drop.
  set (n := Z.to_nat k). set (arr := products inv) in *.
  set (c := Z.to_nat (product_count inv - 1)).
  assert (Hn : (n <= c)%nat) by lia.
  assert (Hcl : (S c <= length arr)%nat) by (unfold Max in *; lia).
  replace (Z.to_nat (product_count inv - 1 - k)) with (c - n)%nat by lia.
  replace (Z.to_nat (product_count inv)) with (S n + (c - n))%nat by lia.
  rewrite take_take, Nat.min_l by lia.
  rewrite <- take_drop_commute.
  rewrite app_assoc. apply take_app_length'.
  rewrite length_app, !length_take, length_drop. lia.
Qed.

Lemma first_with_id_range l pid :
  first_with_id l pid 0 <> -1 ->
  exists k p, first_with_id l pid 0 = Z.of_nat k /\ l !! k = Some p /\ id p = pid
              /\ Forall (fun q => id q <> pid) (take k l).
Proof.
  intros H. destruct (first_with_id_found l pid 0 H) as (k & p & Hk & ?); [lia|].
  exists k, p. split; [lia|done].
Qed.

(** C3. A confirmed [delete_product] of an id the inventory holds
    removes the record [search_product_by_id] finds: the records before
    it stay, each later record moves one slot to the left, the count
    drops by one; when no other record has the id, a new search for it
    finds nothing. *)
Theorem delete_product_spec inv pid w :
  wf_invent inv ->
  (exists q, q ∈ contents inv /\ id q = pid) ->
  confirmed (fst (read_confirm w)) = true ->
  let k := search_product_by_id inv pid in
  let '(ret, msg, inv', _) := delete_product inv pid w in
  0 <= k < product_count inv /\ id (at_index inv k) = pid /\
  ret = 1 /\ msg = MsgDeleted /\
  contents inv' = delete (Z.to_nat k) (contents inv) /\
  (forall j, 0 <= j < k -> at_index inv' j = at_index inv j) /\
  (forall j, k <= j < product_count inv - 1 -> at_index inv' j = at_index inv (j + 1)) /\
  product_count inv' = product_count inv - 1 /\
  ((forall j q, contents inv !! j = Some q -> id q = pid -> j = Z.to_nat k) ->
   search_product_by_id inv' pid = -1).
Proof.
  intros Hwf (q & Hq & Hid) Hyes. pose proof Hwf as [Hlen Hc].
  unfold delete_product. cbv zeta.
  rewrite (search_contents _ _ Hwf).
  destruct (read_confirm w) as [c w0]. simpl in Hyes. rewrite Hyes. simpl.
  destruct (first_with_id_range (contents inv) pid) as (k & p & Hk & Hp & Hpid & Hbefore).
  { intros Habs. apply first_with_id_none in Habs; [|lia].
    rewrite Forall_forall in Habs. by apply (Habs q). }
  rewrite Hk.
  destruct (Z.eqb_spec (Z.of_nat k) (-1)) as [?|_]; [lia|].
  pose proof (lookup_lt_Some _ _ _ Hp) as Hlt.
  rewrite contents_length in Hlt by done.
  assert (Hk' : 0 <= Z.of_nat k < product_count inv) by lia.
  pose proof (contents_shift_left inv (Z.of_nat k) Hwf Hk') as Hcont.
  replace (int_add (product_count (shift_left inv (Z.of_nat k))) (-1))
    with (product_count inv - 1).
  2:{ rewrite shift_left_spec by done. simpl.
      rewrite int_add_id; [lia|]. unfold is_int, INT_MIN, INT_MAX, Max in *; lia. }
  unfold set_count in Hcont |- *.
  rewrite shift_left_spec in Hcont |- * by done.
  cbn [products product_count] in Hcont |- *.
  set (inv' := {| products := _; product_count := product_count inv - 1 |}) in *.
  split; [lia|]. split.
  { rewrite <- Hpid. f_equal. apply at_index_contents; [lia|]. by rewrite Nat2Z.id. }
  split; [done|]. split; [done|]. split; [exact Hcont|]. split.
  { intros j Hj. unfold at_index. simpl.
    rewrite !list_lookup_total_alt. f_equal.
    rewrite lookup_app_l by (rewrite length_take; unfold Max in *; lia).
    apply lookup_take_lt. lia. }
  split.
  { intros j Hj. unfold at_index. simpl.
    rewrite !list_lookup_total_alt. f_equal.
    rewrite lookup_app_r by (rewrite length_take; unfold Max in *; lia).
    rewrite length_take, Nat.min_l by (unfold Max in *; lia).
    rewrite lookup_app_l by
      (rewrite length_take, length_drop; unfold Max in *; lia).
    rewrite lookup_take_lt by lia.
    rewrite lookup_drop. f_equal. lia. }
  split; [done|].
  intros Honly.
  rewrite search_contents.
  2:{ split; simpl; [|lia].
      rewrite !length_app, !length_take, !length_drop. unfold Max in *. lia. }
  rewrite Hcont, Nat2Z.id, delete_take_drop.
  apply first_with_id_absent, Forall_app. split; [done|].
  apply Forall_lookup_2. intros j q' Hj Heq.
  rewrite lookup_drop in Hj. specialize (Honly _ _ Hj Heq). lia.
Qed.

(** ** [display_inventory_statistics] *)

Lemma wrap32_add_l a b : wrap32 (wrap32 a + b) = wrap32 (a + b).
Proof.
  unfold wrap32.
  replace ((a + 2 ^ 31) mod 2 ^ 32 - 2 ^ 31 + b + 2 ^ 31)
    with ((a + 2 ^ 31) mod 2 ^ 32 + b) by lia.
  rewrite Zplus_mod_idemp_l. do 2 f_equal. lia.
Qed.

Lemma stats_fold l q v lo :
  fold_left (fun acc p => stats_step p acc) l (wrap32 q, v, wrap32 lo)
  = (wrap32 (q + sum_quantities l),
     fold_left (fun v p => fadd v (fmul (float_of_int (quantity p)) (price p))) l v,
     wrap32 (lo + count_low_stock l)).
Proof.
  revert q v lo. induction l as [|p l IH]; intros q v lo; simpl.
  - unfold count_low_stock. simpl. by rewrite !Z.add_0_r.
  - unfold int_add. rewrite wrap32_add_l.
    replace (if is_low_stock p then wrap32 (wrap32 lo + 1) else wrap32 lo)
      with (wrap32 (lo + if is_low_stock p then 1 else 0)).
    2:{ destruct (is_low_stock p); [by rewrite wrap32_add_l|by rewrite Z.add_0_r]. }
    rewrite IH. unfold count_low_stock. simpl.
    f_equal; [f_equal|]; f_equal.
    + lia.
    + destruct (is_low_stock p); simpl; lia.
Qed.

Lemma sum_quantities_nonneg l :
  Forall (fun p => 0 <= quantity p) l -> 0 <= sum_quantities l.
Proof. induction 1; simpl; lia. Qed.

Lemma count_low_stock_bound l : 0 <= count_low_stock l <= Z.of_nat (length l).
Proof.
  unfold count_low_stock. pose proof (filter_length is_low_stock l). lia.
Qed.

(** What the loop computes for every inventory, wrap-around included. *)
Lemma statistics_loop inv :
  wf_invent inv ->
  let st := display_inventory_statistics inv in
  total_qty st = wrap32 (sum_quantities (contents inv)) /\
  total_value st = sum_values (contents inv) /\
  low_stock_count st = count_low_stock (contents inv) /\
  average_price st
  = (if 0 <? total_qty st
     then fdiv (total_value st) (float_of_int (total_qty st)) else fzero) /\
  percent st
  = (if 0 <? product_count inv
     then Some (fmul (fdiv (float_of_int (low_stock_count st))
                           (float_of_int (product_count inv)))
                     (float_of_int 100))
     else None).
Proof.
  intros Hwf. unfold display_inventory_statistics.
  rewrite (for_upto_contents stats_step inv _ Hwf).
  change (0, fzero, 0) with (wrap32 0, fzero, wrap32 0).
  rewrite stats_fold. simpl.
  repeat split.
  apply wrap32_id.
  pose proof (count_low_stock_bound (contents inv)).
  rewrite contents_length in * by done. destruct Hwf as [_ Hc].
  unfold is_int, INT_MIN, INT_MAX, Max in *. lia.
Qed.

(** C5. [display_inventory_statistics]: the total quantity is the sum
    of the quantities (which fits an [int]), the total value the sum of
    quantity times price, the average price their quotient when the
    total quantity is positive and 0 otherwise, the low-stock count
    counts the products [is_low_stock] accepts (quantity <= min_stock),
    and no percentage is computed when there is no product; on an empty
    inventory every figure is 0. *)
Theorem statistics_spec inv :
  wf_invent inv ->
  is_int (sum_quantities (contents inv)) ->
  let st := display_inventory_statistics inv in
  total_qty st = sum_quantities (contents inv) /\
  total_value st = sum_values (contents inv) /\
  average_price st
  = (if 0 <? total_qty st
     then fdiv (total_value st) (float_of_int (total_qty st)) else fzero) /\
  low_stock_count st = Z.of_nat (length (List.filter is_low_stock (contents inv))) /\
  (forall p, is_low_stock p = true <-> quantity p <= min_stock p) /\
  (percent st = None <-> product_count inv = 0) /\
  (product_count inv = 0 ->
     total_qty st = 0 /\ total_value st = fzero /\ average_price st = fzero /\
     low_stock_count st = 0 /\ percent st = None).
Proof.
  intros Hwf Hsum.
  destruct (statistics_loop inv Hwf) as (Hq & Hv & Hl & Ha & Hp).
  cbv zeta. rewrite wrap32_id in Hq by done.
  rewrite Ha, Hp, Hq, Hv, Hl.
  split; [done|]. split; [done|]. split; [done|]. split; [done|]. split.
  { intros p. unfold is_low_stock. apply Z.leb_le. }
  destruct Hwf as [_ Hc].
  split.
  { destruct (Z.ltb_spec 0 (product_count inv)); split; try done; lia. }
  intros Hempty. unfold contents. rewrite Hempty. done.
Qed.

(** With the non-negative quantities of the data model the average is
    0 exactly when the total quantity is 0. *)
Lemma statistics_nonnegative inv :
  wf_invent inv ->
  Forall (fun p => 0 <= quantity p) (contents inv) ->
  sum_quantities (contents inv) <= INT_MAX ->
  let st := display_inventory_statistics inv in
  total_qty st = sum_quantities (contents inv) /\
  average_price st
  = (if total_qty st =? 0 then fzero
     else fdiv (total_value st) (float_of_int (total_qty st))).
Proof.
  intros Hwf Hpos Hsum.
  destruct (statistics_loop inv Hwf) as (Hq & Hv & Hl & Ha & Hp).
  pose proof (sum_quantities_nonneg _ Hpos) as Hnn.
  cbv zeta. rewrite wrap32_id in Hq by (unfold is_int, INT_MIN, INT_MAX in *; lia).
  rewrite Ha, Hq. split; [done|].
  destruct (Z.ltb_spec 0 (sum_quantities (contents inv)));
    destruct (Z.eqb_spec (sum_quantities (contents inv)) 0); try done; lia.
Qed.

(** ** Decimal digits *)

Lemma isdigit_range c : isdigit c = true -> 0 <= digit_val c <= 9.
Proof.
  unfold isdigit, digit_val. intros H.
  apply andb_true_iff in H as [H1%Z.leb_le H2%Z.leb_le]. lia.
Qed.

Lemma digit_char_val d : 0 <= d <= 9 -> digit_val (digit_char d) = d.
Proof.
  intros H. unfold digit_val, digit_char.
  rewrite nat_ascii_embedding by lia. lia.
Qed.

Lemma digit_char_isdigit d : 0 <= d <= 9 -> isdigit (digit_char d) = true.
Proof.
  intros H. unfold isdigit, digit_char.
  rewrite nat_ascii_embedding by lia.
  apply andb_true_iff. split; apply Z.leb_le; lia.
Qed.

Lemma isdigit_not_space c : isdigit c = true -> isspace c = false.
Proof.
  unfold isdigit, isspace. intros H.
  apply andb_true_iff in H as [H1%Z.leb_le H2%Z.leb_le].
  apply orb_false_iff. split.
  - apply Nat.eqb_neq. lia.
  - apply andb_false_iff. right. apply Nat.leb_gt. lia.
Qed.

Lemma digits_from_app acc ds1 ds2 :
  digits_from acc (ds1 ++ ds2) = digits_from (digits_from acc ds1) ds2.
Proof. apply fold_left_app. Qed.

Lemma digits_from_bound acc ds :
  all_digits ds -> 0 <= acc ->
  acc * 10 ^ Z.of_nat (length ds) <= digits_from acc ds
  < (acc + 1) * 10 ^ Z.of_nat (length ds).
Proof.
  intros Hds. revert acc. induction Hds as [|c ds Hc _ IH]; intros acc Hacc.
  - simpl. lia.
  - cbn [digits_from fold_left length]. fold (digits_from (acc * 10 + digit_val c) ds).
    apply isdigit_range in Hc.
    assert (Hacc' : 0 <= acc * 10 + digit_val c) by lia.
    specialize (IH _ Hacc').
    rewrite Nat2Z.inj_succ, Z.pow_succ_r by lia.
    assert (0 < 10 ^ Z.of_nat (length ds)) by (apply Z.pow_pos_nonneg; lia).
    nia.
Qed.

Lemma digits_value_bound ds :
  all_digits ds -> 0 <= digits_value ds < 10 ^ Z.of_nat (length ds).
Proof.
  intros H. unfold digits_value.
  pose proof (digits_from_bound 0 ds H (Z.le_refl 0)). lia.
Qed.

Lemma digits_from_zeros k acc :
  digits_from acc (replicate k "0"%char) = acc * 10 ^ Z.of_nat k.
Proof.
  revert acc. induction k as [|k IH]; intros acc.
  - simpl. lia.
  - cbn [replicate digits_from fold_left]. fold (digits_from (acc * 10 + digit_val "0") (replicate k "0"%char)).
    rewrite IH, Nat2Z.inj_succ, Z.pow_succ_r by lia.
    change (digit_val "0") with 0. lia.
Qed.

Lemma all_digits_zeros k : all_digits (replicate k "0"%char).
Proof. apply Forall_replicate. reflexivity. Qed.

(** The loop of [utoa] emits the digits of [n] in front of [acc],
    without a leading zero. *)
Lemma utoa_go_spec fuel n acc :
  0 <= n < 10 ^ Z.of_nat (S fuel) ->
  exists ds, utoa_go (S fuel) n acc = ds ++ acc /\ all_digits ds /\ ds <> []
             /\ digits_value ds = n
             /\ 10 ^ Z.of_nat (length ds - 1) <= Z.max n 1.
Proof.
  revert n acc. induction fuel as [|fuel IH]; intros n acc Hn;
    assert (Hd : 0 <= n mod 10 <= 9) by (pose proof (Z.mod_pos_bound n 10); lia);
    cbn [utoa_go]; destruct (Z.ltb_spec n 10) as [Hlt|Hge].
  1,3: exists [digit_char (n mod 10)]; repeat split;
    [ constructor; [by apply digit_char_isdigit|constructor]
    | done
    | unfold digits_value, digits_from; simpl;
      rewrite digit_char_val by done; rewrite Z.mod_small; lia
    | simpl; lia ].
  - change (10 ^ Z.of_nat 1) with 10 in Hn. lia.
  - destruct (IH (n / 10) (digit_char (n mod 10) :: acc)) as (ds & Heq & Hds & Hne & Hv & Hl).
    { rewrite Nat2Z.inj_succ, Z.pow_succ_r in Hn by lia.
      split; [apply Z.div_pos; lia|].
      apply Z.div_lt_upper_bound; lia. }
    exists (ds ++ [digit_char (n mod 10)]). repeat split.
    + cbn [utoa_go] in Heq. by rewrite Heq, <- app_assoc.
    + apply Forall_app. split; [done|].
      constructor; [by apply digit_char_isdigit|constructor].
    + by destruct ds.
    + unfold digits_value in *. rewrite digits_from_app, Hv.
      unfold digits_from. simpl. rewrite digit_char_val by done.
      pose proof (Z.div_mod n 10). lia.
    + rewrite length_app. simpl.
      replace (length ds + 1 - 1)%nat with (S (length ds - 1)) by (destruct ds; simpl; [done|lia]).
      rewrite Nat2Z.inj_succ, Z.pow_succ_r by lia.
      pose proof (Z.div_mod n 10 ltac:(lia)).
      assert (1 <= n / 10) by (apply Z.div_le_lower_bound; lia).
      lia.
Qed.

Lemma pow10_ge_pow2 k : 0 <= k -> 2 ^ k <= 10 ^ k.
Proof. intros H. apply Z.pow_le_mono_l. lia. Qed.

Lemma utoa_spec n :
  0 <= n ->
  all_digits (utoa n) /\ utoa n <> [] /\ digits_value (utoa n) = n
  /\ 10 ^ Z.of_nat (length (utoa n) - 1) <= Z.max n 1.
Proof.
  intros Hn. unfold utoa.
  destruct (utoa_go_spec (Z.to_nat (Z.log2 n)) n []) as (ds & Heq & Hds & Hne & Hv & Hl).
  - split; [done|].
    destruct (Z.eq_dec n 0) as [->|Hnz]; [done|].
    pose proof (Z.log2_spec n ltac:(lia)) as [_ Hlog].
    pose proof (Z.log2_nonneg n).
    rewrite Nat2Z.inj_succ, Z2Nat.id by done.
    pose proof (pow10_ge_pow2 (Z.succ (Z.log2 n)) ltac:(lia)). lia.
  - rewrite Heq, app_nil_r. done.
Qed.

(** Fewer than [10^k] means at most [k] digits. *)
Lemma utoa_length n k :
  0 <= n < 10 ^ Z.of_nat k -> (1 <= k)%nat -> (length (utoa n) <= k)%nat.
Proof.
  intros Hn Hk.
  destruct (utoa_spec n) as (_ & Hne & _ & Hl); [lia|].
  assert (Hlt : 10 ^ Z.of_nat (length (utoa n) - 1) < 10 ^ Z.of_nat k).
  { assert (1 < 10 ^ Z.of_nat k) by (apply Z.pow_gt_1; lia). lia. }
  apply Z.pow_lt_mono_r_iff in Hlt; lia.
Qed.

(** *** Reading digits back *)

Lemma scan_digits_all w ds rest acc n :
  all_digits ds -> (length ds <= w)%nat ->
  match rest with c :: _ => isdigit c = false | [] => True end ->
  scan_digits w (ds ++ rest) acc n = (digits_from acc ds, (n + length ds)%nat, rest).
Proof.
  intros Hds. revert w acc n. induction Hds as [|c ds Hc _ IH]; intros w acc n Hw Hrest.
  - simpl. rewrite Nat.add_0_r. destruct w, rest; simpl; try done. by rewrite Hrest.
  - simpl in Hw. destruct w as [|w]; [lia|]. simpl. rewrite Hc.
    rewrite IH by (done || lia). do 2 f_equal. lia.
Qed.

Lemma scan_digits_bound w s acc n :
  0 <= acc ->
  let '(v, n', r) := scan_digits w s acc n in
  0 <= v < (acc + 1) * 10 ^ Z.of_nat (length s).
Proof.
  revert s acc n. induction w as [|w IH]; intros s acc n Hacc.
  - assert (0 < 10 ^ Z.of_nat (length s)) by (apply Z.pow_pos_nonneg; lia).
    simpl. destruct s; nia.
  - destruct s as [|c s]; [simpl; lia|].
    assert (0 < 10 ^ Z.of_nat (length s)) by (apply Z.pow_pos_nonneg; lia).
    cbn [scan_digits]. destruct (isdigit c) eqn:Hc.
    + apply isdigit_range in Hc.
      assert (Hacc' : 0 <= acc * 10 + digit_val c) by lia.
      specialize (IH s _ (S n) Hacc').
      destruct (scan_digits w s (acc * 10 + digit_val c) (S n)) as [[v n'] r].
      cbn [length]. rewrite Nat2Z.inj_succ, Z.pow_succ_r by lia. nia.
    + cbn [length]. rewrite Nat2Z.inj_succ, Z.pow_succ_r by lia. nia.
Qed.

Lemma skip_ws_length s : (length (skip_ws s) <= length s)%nat.
Proof.
  induction s as [|c s IH]; simpl; [done|].
  destruct (isspace c); simpl; lia.
Qed.

Lemma scan_sign_length w s :
  (length (scan_sign w s).2 <= length s)%nat.
Proof.
  unfold scan_sign. destruct w, s; simpl; try lia.
  destruct (Ascii.eqb a "-"); [simpl; lia|].
  destruct (Ascii.eqb a "+"); simpl; lia.
Qed.

(** [atoi] cannot make more of a string than its length allows. *)
Lemma atoi_bound s k :
  (length s <= k)%nat -> (k <= 9)%nat -> - 10 ^ Z.of_nat k < atoi s < 10 ^ Z.of_nat k.
Proof.
  intros Hs Hk. unfold atoi, scan_int.
  pose proof (skip_ws_length s) as H1.
  pose proof (scan_sign_length (length (skip_ws s)) (skip_ws s)) as H2.
  destruct (scan_sign (length (skip_ws s)) (skip_ws s)) as [[neg w1] s1]. simpl in H2.
  pose proof (scan_digits_bound w1 s1 0 0 ltac:(lia)) as H3.
  destruct (scan_digits w1 s1 0 0) as [[v n] r].
  assert (Hp : 10 ^ Z.of_nat (length s1) <= 10 ^ Z.of_nat k)
    by (apply Z.pow_le_mono_r; lia).
  assert (Hp9 : 10 ^ Z.of_nat k <= 10 ^ 9) by (apply Z.pow_le_mono_r; lia).
  assert (0 < 10 ^ Z.of_nat k) by (apply Z.pow_pos_nonneg; lia).
  destruct (n =? 0)%nat; [lia|].
  rewrite wrap32_id by (unfold is_int, INT_MIN, INT_MAX; destruct neg; lia).
  destruct neg; lia.
Qed.

(** [atoi] reads a string of digits as the number it denotes. *)
Lemma atoi_digits ds :
  all_digits ds -> ds <> [] -> atoi ds = wrap32 (digits_value ds).
Proof.
  intros Hds Hne. unfold atoi, scan_int.
  destruct ds as [|c ds]; [done|].
  pose proof (Forall_inv Hds) as Hc. cbn beta in Hc.
  assert (Hskip : skip_ws (c :: ds) = c :: ds).
  { simpl. by rewrite isdigit_not_space. }
  rewrite Hskip.
  assert (Hsign : scan_sign (length (c :: ds)) (c :: ds) = (false, length (c :: ds), c :: ds)).
  { simpl. destruct (Ascii.eqb_spec c "-") as [->|_]; [done|].
    destruct (Ascii.eqb_spec c "+") as [->|_]; done. }
  rewrite Hsign.
  rewrite <- (app_nil_r (c :: ds)) at 2.
  rewrite scan_digits_all by done. simpl. done.
Qed.

(** ** [generate_unique_id] *)

Lemma max_number_nonneg l : 0 <= max_number l.
Proof. induction l; simpl; lia. Qed.

Lemma max_number_ge l x : x ∈ l -> x <= max_number l.
Proof. induction 1; simpl; lia. Qed.

Lemma max_number_bound l b :
  0 < b -> Forall (fun x => x < b) l -> max_number l < b.
Proof. intros Hb. induction 1; simpl; lia. Qed.

Lemma max_id_step_max p m :
  max_id_step p m
  = if strncmp_eq (id p) (lit "P") 1 then Z.max m (atoi (drop 1 (id p))) else m.
Proof.
  unfold max_id_step. destruct (strncmp_eq _ _ _); [|done].
  cbv zeta. destruct (Z.ltb_spec m (atoi (drop 1 (id p)))); lia.
Qed.

Lemma max_id_fold l m :
  0 <= m ->
  fold_left (fun max_id p => max_id_step p max_id) l m
  = Z.max m (max_number (id_numbers l)).
Proof.
  intros Hm. revert m Hm. induction l as [|p l IH]; intros m Hm.
  - unfold id_numbers. simpl. lia.
  - cbn [fold_left]. rewrite max_id_step_max.
    unfold id_numbers in *. cbn [List.filter].
    destruct (strncmp_eq (id p) (lit "P") 1).
    + rewrite IH by lia. cbn [fmap list_fmap max_number foldr].
      fold (max_number ((fun p => atoi (drop 1 (id p))) <$>
                          List.filter (fun p => strncmp_eq (id p) (lit "P") 1) l)).
      lia.
    + by apply IH.
Qed.

Lemma id_numbers_bound l :
  Forall (fun p => (length (id p) <= 9)%nat) l ->
  Forall (fun x => x < 10 ^ 8) (id_numbers l).
Proof.
  intros H. unfold id_numbers. apply Forall_fmap, Forall_forall.
  intros p Hp. apply list_elem_of_In, filter_In in Hp as [Hp _].
  apply list_elem_of_In in Hp. rewrite Forall_forall in H. specialize (H p Hp).
  simpl. apply (atoi_bound _ 8); [rewrite length_drop|]; lia.
Qed.

Lemma starts_with_P s :
  strncmp_eq s (lit "P") 1 = true <-> exists s', s = lit "P" ++ s'.
Proof.
  unfold strncmp_eq. rewrite bool_decide_eq_true. split.
  - destruct s as [|c s']; [done|]. cbn. intros [= ->]. by exists s'.
  - by intros [s' ->].
Qed.

Lemma id_numbers_without_prefix l :
  Forall (fun p => ~ exists s, id p = lit "P" ++ s) l -> id_numbers l = [].
Proof.
  unfold id_numbers. induction 1 as [|p l Hp _ IH]; [done|].
  cbn [List.filter].
  destruct (strncmp_eq (id p) (lit "P") 1) eqn:HP; [|done].
  by apply starts_with_P in HP.
Qed.

Lemma sprintf_P03d n :
  0 <= n -> sprintf (lit "P%03d") [PInt n] = lit "P" ++ three_digits n.
Proof.
  intros Hn. unfold sprintf.
  lazy -[fmt_d app].
  unfold fmt_d, in_field. simpl.
  destruct (Z.ltb_spec n 0); [lia|]. simpl.
  rewrite Z.abs_eq by done. by rewrite app_nil_r.
Qed.

Lemma three_digits_spec n :
  0 <= n ->
  all_digits (three_digits n) /\ three_digits n <> [] /\ digits_value (three_digits n) = n.
Proof.
  intros Hn. destruct (utoa_spec n Hn) as (Hds & Hne & Hv & _).
  unfold three_digits, pad_left. repeat split.
  - apply Forall_app. split; [apply all_digits_zeros|done].
  - intros Heq. apply app_eq_nil in Heq as [_ ?]. done.
  - unfold digits_value. rewrite digits_from_app, digits_from_zeros. simpl. exact Hv.
Qed.

Lemma generate_unique_id_max inv :
  wf_invent inv ->
  Forall (fun p => (length (id p) <= 9)%nat) (contents inv) ->
  generate_unique_id inv
  = lit "P" ++ three_digits (max_number (id_numbers (contents inv)) + 1).
Proof.
  intros Hwf Hid. unfold generate_unique_id.
  change (for_upto 0 (product_count inv) _ 0)
    with (for_upto 0 (product_count inv) (fun i m => max_id_step (at_index inv i) m) 0).
  rewrite (for_upto_contents max_id_step inv 0 Hwf).
  rewrite max_id_fold by done.
  pose proof (max_number_nonneg (id_numbers (contents inv))) as Hnn.
  pose proof (max_number_bound _ (10 ^ 8) ltac:(lia) (id_numbers_bound _ Hid)) as Hb.
  rewrite Z.max_r by done.
  rewrite int_add_id by (unfold is_int, INT_MIN, INT_MAX; lia).
  apply sprintf_P03d. lia.
Qed.

(** C4. [generate_unique_id] returns "P" followed by one more than the
    greatest number read after the "P" of the ids that start with it,
    zero-padded to three digits; "P001" when no id starts with "P";
    "P011" for the ids P001, P003, P010. *)
Theorem generate_unique_id_spec inv :
  wf_invent inv ->
  Forall (fun p => (length (id p) <= 9)%nat) (contents inv) ->
  generate_unique_id inv
  = lit "P" ++ three_digits (max_number (id_numbers (contents inv)) + 1) /\
  atoi (three_digits (max_number (id_numbers (contents inv)) + 1))
  = max_number (id_numbers (contents inv)) + 1 /\
  (Forall (fun p => ~ exists s, id p = lit "P" ++ s) (contents inv) ->
     generate_unique_id inv = lit "P001") /\
  (id <$> contents inv = [lit "P001"; lit "P003"; lit "P010"] ->
     generate_unique_id inv = lit "P011").
Proof.
  intros Hwf Hid. rewrite generate_unique_id_max by done.
  pose proof (max_number_nonneg (id_numbers (contents inv))) as Hnn.
  pose proof (max_number_bound _ (10 ^ 8) ltac:(lia) (id_numbers_bound _ Hid)) as Hb.
  split; [done|]. split.
  { destruct (three_digits_spec (max_number (id_numbers (contents inv)) + 1))
      as (Hds & Hne & Hv); [lia|].
    rewrite atoi_digits, Hv by done.
    apply wrap32_id. unfold is_int, INT_MIN, INT_MAX. lia. }
  split.
  - intros HnoP. by rewrite (id_numbers_without_prefix _ HnoP).
  - intros Hids.
    destruct (contents inv) as [|p1 [|p2 [|p3 [|]]]]; try done.
    destruct p1, p2, p3. simpl in Hids. injection Hids as -> -> ->.
    reflexivity.
Qed.

(** C10. The id [generate_unique_id] returns is the id of no product
    of the inventory: [search_product_by_id] does not find it and
    [add_product] with it does not report an existing id. *)
Theorem generate_unique_id_fresh inv :
  wf_invent inv ->
  Forall (fun p => (length (id p) <= 9)%nat) (contents inv) ->
  Forall (fun p => id p <> generate_unique_id inv) (contents inv) /\
  search_product_by_id inv (generate_unique_id inv) = -1 /\
  (forall p w, id p = generate_unique_id inv ->
     (add_product inv p w).1.1.2 <> MsgIdExists).
Proof.
  intros Hwf Hid.
  assert (Hfresh : Forall (fun p => id p <> generate_unique_id inv) (contents inv)).
  { rewrite generate_unique_id_max by done.
    pose proof (max_number_nonneg (id_numbers (contents inv))) as Hnn.
    pose proof (max_number_bound _ (10 ^ 8) ltac:(lia) (id_numbers_bound _ Hid)) as Hb.
    set (m := max_number (id_numbers (contents inv))) in *.
    apply Forall_forall. intros q Hq Heq.
    assert (Hin : m + 1 ∈ id_numbers (contents inv)).
    { unfold id_numbers. apply list_elem_of_fmap. exists q. split.
      - rewrite Heq. simpl. rewrite drop_0.
        destruct (three_digits_spec (m + 1)) as (Hds & Hne & Hv); [lia|].
        rewrite atoi_digits, Hv by done.
        symmetry. apply wrap32_id. unfold is_int, INT_MIN, INT_MAX. lia.
      - apply list_elem_of_In, filter_In. split; [by apply list_elem_of_In|].
        rewrite Heq. reflexivity. }
    apply max_number_ge in Hin. lia. }
  split; [done|]. split.
  - rewrite search_contents by done. by apply first_with_id_absent.
  - intros p w Hp. unfold add_product.
    destruct (Max <=? product_count inv); [done|].
    rewrite search_contents, Hp, first_with_id_absent by done. done.
Qed.

(** ** Reading a file with [fgets] *)

Lemma fgets_go_split n s :
  let '(l, r) := fgets_go n s in l ++ r = s.
Proof.
  revert s. induction n as [|n IH]; intros s; [done|].
  destruct s as [|c s]; [done|]. cbn [fgets_go].
  destruct (Ascii.eqb c LF); [done|].
  specialize (IH s). destruct (fgets_go n s) as [l r]. simpl. by rewrite IH.
Qed.

Lemma fgets_shrinks size f buf f' :
  (2 <= size)%nat -> fgets size f = Some (buf, f') ->
  buf ++ f' = f /\ buf <> [] /\ (length f' < length f)%nat.
Proof.
  intros Hsize. unfold fgets. destruct f as [|c s]; [done|].
  destruct size as [|[|n]]; [lia|lia|]. 
  replace (S (S n) - 1)%nat with (S n) by lia.
  pose proof (fgets_go_split (S n) (c :: s)) as Hsplit.
  cbn [fgets_go] in *.
  destruct (Ascii.eqb c LF).
  - intros [= <- <-]. simpl. split; [done|]. split; [done|lia].
  - destruct (fgets_go n s) as [l r]. intros [= <- <-].
    split; [done|]. split; [done|].
    apply (f_equal length) in Hsplit. rewrite length_app in Hsplit. simpl in *. lia.
Qed.

(** More fuel than the file has characters changes nothing. *)
Lemma fgets_lines_go_fuel fuel f :
  (length f < fuel)%nat -> fgets_lines_go fuel f = fgets_lines f.
Proof.
  unfold fgets_lines. remember (length f) as n eqn:Hn.
  revert f fuel Hn. induction n as [n IH] using lt_wf_ind. intros f fuel Hn Hfuel.
  destruct fuel as [|fuel]; [lia|]. cbn [fgets_lines_go].
  destruct (fgets 256 f) as [[buf f']|] eqn:Hf; [|done].
  apply fgets_shrinks in Hf as (_ & _ & Hlt); [|lia].
  f_equal.
  rewrite (IH (length f') ltac:(lia) f' fuel eq_refl ltac:(lia)).
  rewrite (IH (length f') ltac:(lia) f' n eq_refl ltac:(lia)).
  done.
Qed.

(** ** [display_recent_changes] *)

Lemma read_log_spec fuel f lines (t : nat) :
  length lines = 100%nat -> (t <= 100)%nat ->
  let '(lines', total) := read_log fuel f lines (Z.of_nat t) in
  total = Z.of_nat (t + length (fgets_lines_go fuel f)) `min` 100 /\
  length lines' = 100%nat /\
  take (Z.to_nat total) lines'
  = take t lines ++ take (100 - t) (fgets_lines_go fuel f).
Proof.
  revert f lines t. induction fuel as [|fuel IH]; intros f lines t Hlen Ht.
  - simpl. rewrite Nat2Z.id, take_nil, app_nil_r.
    split; [lia|]. by split.
  - cbn [read_log fgets_lines_go].
    destruct (fgets 256 f) as [[buf f']|].
    2:{ simpl. rewrite Nat2Z.id, take_nil, app_nil_r. split; [lia|]. by split. }
    rewrite Nat2Z.id.
    destruct (Z.ltb_spec (Z.of_nat t) 100) as [Hlt|Hge].
    + replace (Z.of_nat t + 1) with (Z.of_nat (S t)) by lia.
      specialize (IH f' (<[t:=buf]> lines) (S t)).
      destruct (read_log fuel f' (<[t:=buf]> lines) (Z.of_nat (S t))) as [lines' total].
      destruct IH as (Htot & Hlen' & Htake); [by rewrite length_insert|lia|].
      split; [simpl; lia|]. split; [done|].
      rewrite Htake.
      erewrite take_S_r by (apply list_lookup_insert_eq; lia).
      rewrite take_insert_ge by lia.
      rewrite <- app_assoc.
      replace (100 - t)%nat with (S (100 - S t)) by lia. done.
    + assert (t = 100%nat) as -> by lia.
      rewrite list_insert_ge by lia.
      split; [simpl; lia|]. split; [done|].
      simpl. by rewrite app_nil_r.
Qed.

Lemma fold_left_snoc_fmap {A B} (g : A -> B) (l : list A) :
  fold_left (fun out x => out ++ [g x]) l [] = g <$> l.
Proof.
  enough (forall acc, fold_left (fun out x => out ++ [g x]) l acc = acc ++ (g <$> l))
    as Hgen by apply Hgen.
  induction l as [|x l IH]; intros acc; simpl.
  - by rewrite app_nil_r.
  - by rewrite IH, <- app_assoc.
Qed.

(** What [display_recent_changes] prints: the last [count] of the
    first hundred lines of the log. *)
Lemma display_recent_changes_first_100 count w f :
  inventory_txt w = Some f -> 0 <= count <= INT_MAX ->
  display_recent_changes count w
  = Some (c_str <$> last_n count (take 100 (fgets_lines f))).
Proof.
  intros Hf Hcount. unfold display_recent_changes. rewrite Hf.
  pose proof (read_log_spec (S (length f)) f (replicate 100 []) 0
                (length_replicate _ _) ltac:(lia)) as Hrl.
  change (Z.of_nat 0) with 0 in Hrl.
  destruct (read_log (S (length f)) f (replicate 100 []) 0) as [lines total].
  fold (fgets_lines f) in Hrl. destruct Hrl as (Htot & Hlen & Htake).
  rewrite take_0, app_nil_l, Nat.sub_0_r in Htake. simpl in Htot.
  f_equal. unfold for_upto, last_n.
  set (L := take 100 (fgets_lines f)) in *.
  assert (HL : Z.of_nat (length L) = total).
  { unfold L. rewrite length_take. lia. }
  set (start := if count <? total then wrap32 (total - count) else 0).
  assert (Hstart : start = Z.of_nat (length L - Z.to_nat count)).
  { unfold start. destruct (Z.ltb_spec count total).
    - rewrite wrap32_id by (unfold is_int, INT_MIN, INT_MAX in *; lia). lia.
    - lia. }
  rewrite Hstart.
  replace (Z.to_nat (total - Z.of_nat (length L - Z.to_nat count)))
    with (length L - (length L - Z.to_nat count))%nat by lia.
  rewrite (for_range_read (fun l out => out ++ [c_str l]) lines) by lia.
  rewrite take_drop_commute.
  replace (length L - Z.to_nat count + (length L - (length L - Z.to_nat count)))%nat
    with (Z.to_nat total) by lia.
  rewrite Htake.
  apply fold_left_snoc_fmap.
Qed.

(** When the log has at most a hundred lines, these are its last
    [count] lines, oldest first. *)
Lemma display_recent_changes_short_log count w f :
  inventory_txt w = Some f -> 0 <= count <= INT_MAX ->
  (length (fgets_lines f) <= 100)%nat ->
  display_recent_changes count w = Some (c_str <$> last_n count (fgets_lines f)).
Proof.
  intros Hf Hcount Hshort.
  rewrite (display_recent_changes_first_100 count w f Hf Hcount).
  by rewrite take_ge by lia.
Qed.

(** *** Sample environment *)

(** C8. On a log of 101 lines [display_recent_changes(1)] prints line
    100, which is not the last line of the log. *)
Theorem recent_changes_beyond_100 :
  display_recent_changes 1 (set_inventory_txt world0 (Some (numbered_log 101)))
  = Some [lit "100" ++ [LF]] /\
  last_n 1 (fgets_lines (numbered_log 101)) = [lit "101" ++ [LF]].
Proof. split; vm_compute; reflexivity. Qed.

(** ** Plain conversions *)

Lemma fmt_d_plain n : fmt_d spec0 n = decimal n.
Proof. done. Qed.

Lemma utoa_length_exact n k :
  10 ^ Z.of_nat k <= n < 10 ^ Z.of_nat (S k) -> length (utoa n) = S k.
Proof.
  intros Hn.
  assert (0 < 10 ^ Z.of_nat k) by (apply Z.pow_pos_nonneg; lia).
  destruct (utoa_spec n) as (Hds & Hne & Hv & Hl); [lia|].
  pose proof (digits_value_bound _ Hds) as Hb. rewrite Hv in Hb.
  rewrite Z.max_l in Hl by lia.
  assert (H1 : 10 ^ Z.of_nat (length (utoa n) - 1) < 10 ^ Z.of_nat (S k)) by lia.
  assert (H2 : 10 ^ Z.of_nat k < 10 ^ Z.of_nat (length (utoa n))) by lia.
  apply Z.pow_lt_mono_r_iff in H1; [|lia|lia].
  apply Z.pow_lt_mono_r_iff in H2; [|lia|lia].
  lia.
Qed.

(** *** The timestamp *)

Lemma two_digits_shape n :
  0 <= n <= 99 ->
  exists a b, two_digits n = [a; b] /\ isdigit a = true /\ isdigit b = true.
Proof.
  intros Hn. unfold two_digits, fmt_d, in_field. cbn [cs_prec cs_left cs_zero cs_width andb].
  destruct (Z.ltb_spec n 0); [lia|]. rewrite Z.abs_eq by lia.
  cbn [sign_str app length Nat.sub].
  destruct (utoa_spec n) as (Hds & Hne & _); [lia|].
  destruct (Z.ltb_spec n 10).
  - pose proof (utoa_length n 1 ltac:(simpl; lia) ltac:(lia)) as Hl.
    destruct (utoa n) as [|a [|b l]]; simpl in Hl; [done| |lia].
    exists "0"%char, a. inversion Hds. by repeat split.
  - pose proof (utoa_length_exact n 1 ltac:(simpl; lia)) as Hl.
    destruct (utoa n) as [|a [|b [|c l]]]; simpl in Hl; try lia.
    exists a, b. inversion Hds as [|? ? ? Hds']. inversion Hds'. by repeat split.
Qed.

Lemma four_digits_shape n :
  1000 <= n <= 9999 ->
  exists a b c d, fmt_d spec0 n = [a; b; c; d] /\ isdigit a = true /\
                  isdigit b = true /\ isdigit c = true /\ isdigit d = true.
Proof.
  intros Hn. rewrite fmt_d_plain. unfold decimal.
  destruct (Z.ltb_spec n 0); [lia|]. rewrite Z.abs_eq by lia. simpl.
  destruct (utoa_spec n) as (Hds & _); [lia|].
  pose proof (utoa_length_exact n 3 ltac:(simpl; lia)) as Hl.
  destruct (utoa n) as [|a [|b [|c [|d [|e l]]]]]; simpl in Hl; try lia.
  exists a, b, c, d.
  inversion Hds as [|? ? ? Hb]. inversion Hb as [|? ? ? Hc].
  inversion Hc as [|? ? ? Hd]. inversion Hd. by repeat split.
Qed.

Lemma log_timestamp_shape w :
  calendar_tm (now w) -> is_timestamp (log_timestamp w) = true.
Proof.
  intros (Hy & Hm & Hd & Hh & Hn & Hs).
  unfold log_timestamp, strftime.
  assert (Hgo : exists ts, strftime_go (lit "%Y-%m-%d %H:%M:%S") false (now w) = ts
                           /\ is_timestamp ts = true).
  { destruct (four_digits_shape (tm_year (now w) + 1900) Hy)
      as (y1 & y2 & y3 & y4 & Hyear & ? & ? & ? & ?).
    destruct (two_digits_shape (tm_mon (now w) + 1)) as (m1 & m2 & Hmon & ? & ?); [lia|].
    destruct (two_digits_shape (tm_mday (now w))) as (d1 & d2 & Hday & ? & ?); [lia|].
    destruct (two_digits_shape (tm_hour (now w))) as (h1 & h2 & Hhour & ? & ?); [lia|].
    destruct (two_digits_shape (tm_min (now w))) as (n1 & n2 & Hmin & ? & ?); [lia|].
    destruct (two_digits_shape (tm_sec (now w))) as (s1 & s2 & Hsec & ? & ?); [lia|].
    eexists. split; [reflexivity|].
    lazy -[fmt_d spec0 two_digits app is_timestamp tm_year tm_mon tm_mday tm_hour tm_min tm_sec now Z.add].
    rewrite Hyear, Hmon, Hday, Hhour, Hmin, Hsec.
    cbn [app is_timestamp]. 
    repeat match goal with H : isdigit _ = true |- _ => rewrite H; clear H end.
    reflexivity. }
  destruct Hgo as (ts & -> & Hts).
  destruct ts as [|? [|? [|? [|? [|? [|? [|? [|? [|? [|? [|? [|? [|? [|? [|? [|? [|? [|? [|? [|? ?]]]]]]]]]]]]]]]]]]]];
    done.
Qed.

(** ** [log_inventory_change] *)


(** ** [modify_product] *)

Lemma at_index_update_at inv k f :
  (Z.to_nat k < length (products inv))%nat ->
  at_index (update_at inv k f) k = f (at_index inv k).
Proof.
  intros Hk. unfold update_at, store_at, at_index. simpl.
  by rewrite list_lookup_total_insert_eq.
Qed.

Lemma at_index_update_at_ne inv k j f :
  Z.to_nat j <> Z.to_nat k -> at_index (update_at inv k f) j = at_index inv j.
Proof.
  intros Hj. unfold update_at, store_at, at_index. simpl.
  by rewrite list_lookup_total_insert_ne.
Qed.

Lemma update_at_out_of_range inv k f :
  (length (products inv) <= Z.to_nat k)%nat -> update_at inv k f = inv.
Proof.
  intros Hk. unfold update_at, store_at. destruct inv as [arr c]. simpl in *.
  f_equal. by apply list_insert_ge.
Qed.

Lemma update_at_twice inv k f g :
  update_at (update_at inv k f) k g = update_at inv k (fun p => g (f p)).
Proof.
  destruct (decide (Z.to_nat k < length (products inv))%nat) as [Hk|Hk].
  - unfold update_at at 1 3. rewrite at_index_update_at by done.
    unfold update_at, store_at. simpl. by rewrite list_insert_insert_eq.
  - rewrite !update_at_out_of_range; try lia; try done.
    rewrite update_at_out_of_range; lia.
Qed.

Lemma update_at_same inv k : update_at inv k (fun p => p) = inv.
Proof.
  destruct (decide (Z.to_nat k < length (products inv))%nat) as [Hk|Hk].
  - unfold update_at, store_at, at_index. destruct inv as [arr c]. simpl in *.
    f_equal. apply list_insert_id. by apply list_lookup_lookup_total_lt.
  - apply update_at_out_of_range. lia.
Qed.

Lemma apply_entries_edited inv k e :
  apply_entries inv k e = update_at inv k (edited e).
Proof.
  unfold apply_entries, edited.
  destruct (0 <? length (e_name e))%nat;
    destruct (0 <? length (e_category e))%nat;
    destruct (0 <=? e_qty e); destruct (fge (e_price e) (float_of_int 0));
    destruct (0 <=? e_threshold e);
    cbv zeta; rewrite ?update_at_twice; try reflexivity;
    symmetry; apply update_at_same.
Qed.

Lemma search_found inv pid :
  wf_invent inv ->
  (exists q, q ∈ contents inv /\ id q = pid) ->
  0 <= search_product_by_id inv pid < product_count inv /\
  id (at_index inv (search_product_by_id inv pid)) = pid.
Proof.
  intros Hwf (q & Hq & Hid).
  rewrite (search_contents _ _ Hwf).
  destruct (first_with_id_range (contents inv) pid) as (k & p & Hk & Hp & Hpid & _).
  { intros Habs. apply first_with_id_none in Habs; [|lia].
    rewrite Forall_forall in Habs. by apply (Habs q). }
  rewrite Hk.
  pose proof (lookup_lt_Some _ _ _ Hp) as Hlt.
  rewrite contents_length in Hlt by done.
  split; [lia|].
  rewrite <- Hpid. f_equal. apply at_index_contents; [lia|]. by rewrite Nat2Z.id.
Qed.

(** [modify_product] on an id the inventory holds, when what [buffer]
    holds after the first [scanf] fits [char name[50]] and what it holds
    after the second fits [char category[30]], changes the one record
    [search_product_by_id] finds and nothing else: its name and category
    are replaced by a non-empty entry and kept on an empty one, its
    quantity, price and minimum stock are replaced by a non-negative
    entry and kept on a negative one, its id and date stay; the other
    slots and the count stay. An entry is what the variable holds after
    its [scanf], read or not. *)
Lemma modify_product_entries inv pid w :
  wf_invent inv ->
  (exists q, q ∈ contents inv /\ id q = pid) ->
  (length (e_name (read_entries w).1) <= 49)%nat ->
  (length (e_category (read_entries w).1) <= 29)%nat ->
  let k := search_product_by_id inv pid in
  let e := (read_entries w).1 in
  let '(ret, msg, inv', _) := modify_product inv pid w in
  let p := at_index inv k in
  let p' := at_index inv' k in
  ret = 1 /\ msg = MsgModified /\ id p = pid /\
  name p' = (if decide (e_name e = []) then name p else e_name e) /\
  category p' = (if decide (e_category e = []) then category p else e_category e) /\
  quantity p' = (if e_qty e <? 0 then quantity p else e_qty e) /\
  price p' = (if fge (e_price e) fzero then e_price e else price p) /\
  min_stock p' = (if e_threshold e <? 0 then min_stock p else e_threshold e) /\
  id p' = id p /\ date p' = date p /\
  product_count inv' = product_count inv /\
  length (products inv') = length (products inv) /\
  (forall j, 0 <= j -> j <> k -> at_index inv' j = at_index inv j).
Proof.
  intros Hwf Hin _ _. cbv zeta.
  destruct (search_found inv pid Hwf Hin) as [Hk Hpid].
  unfold modify_product.
  destruct (Z.eqb_spec (search_product_by_id inv pid) (-1)) as [?|_]; [lia|].
  destruct (read_entries w) as [e w0]. cbn [fst].
  set (k := search_product_by_id inv pid) in *.
  rewrite apply_entries_edited.
  assert (Hlt : (Z.to_nat k < length (products inv))%nat)
    by (destruct Hwf as [Hlen Hc]; unfold Max in *; lia).
  rewrite at_index_update_at by done.
  split; [done|]. split; [done|]. split; [done|].
  unfold edited. change (float_of_int 0) with fzero.
  repeat split.
  1-7: cbv zeta; destruct (e_name e) eqn:?, (e_category e) eqn:?; simpl;
    repeat match goal with
           | |- context [if ?c then _ else _] => destruct c eqn:?
           end; simpl; try reflexivity; try congruence; lia.
  - unfold update_at, store_at. simpl. by rewrite length_insert.
  - intros j Hj Hne. apply at_index_update_at_ne. lia.
Qed.

(** *** Sample products *)

(** A numeric entry that cannot be read leaves [qty] indeterminate; a
    non-negative indeterminate value overwrites the quantity. *)
Lemma modify_unread_quantity_not_kept :
  let inv := inventory_of [rice] in
  let j := {| junk_buffer := []; junk_qty := 7; junk_price := fzero;
              junk_threshold := 0; junk_confirm := "n"%char; junk_timestamp := [] |} in
  let w := {| stdin := lit "Rice Food abc"; data_txt := None; inventory_txt := None;
              data_writable := true; log_writable := true; now := tm0; junk := j |} in
  let inv' := (modify_product inv (lit "P001") w).1.2 in
  quantity (at_index inv 0) = 10 /\ quantity (at_index inv' 0) = 7.
Proof. vm_compute. by split. Qed.

(** ** [load_inventory] *)

Lemma split_lines_nil s : split_lines s = [] -> s = [].
Proof.
  destruct s as [|c s]; [done|]. simpl.
  destruct (Ascii.eqb c LF); [done|]. by destruct (split_lines s).
Qed.

Lemma fgets_go_first_line s n l ls :
  split_lines s = l :: ls -> (length l <= n)%nat ->
  exists rest, fgets_go n s = (l, rest) /\ split_lines rest = ls.
Proof.
  revert n l ls. induction s as [|c s IH]; intros n l ls Hs Hn; [done|].
  simpl in Hs. destruct (Ascii.eqb c LF) eqn:Hc.
  - injection Hs as <- <-. destruct n as [|n]; [simpl in Hn; lia|].
    exists s. simpl. by rewrite Hc.
  - destruct (split_lines s) as [|l' ls'] eqn:Hs'.
    + injection Hs as <- <-. apply split_lines_nil in Hs' as ->.
      destruct n as [|n]; [simpl in Hn; lia|].
      exists []. simpl. rewrite Hc. by destruct n.
    + injection Hs as <- <-. destruct n as [|n]; [simpl in Hn; lia|].
      destruct (IH n l' ls' eq_refl) as (rest & Hgo & Hrest); [simpl in Hn; lia|].
      exists rest. simpl. by rewrite Hc, Hgo.
Qed.

Lemma fgets_lines_go_split fuel f :
  (length f < fuel)%nat ->
  Forall (fun l => (length l <= 255)%nat) (split_lines f) ->
  fgets_lines_go fuel f = split_lines f.
Proof.
  revert f. induction fuel as [|fuel IH]; intros f Hfuel Hshort; [lia|].
  cbn [fgets_lines_go].
  destruct f as [|c s] eqn:Hf; [done|]. rewrite <- Hf in *.
  destruct (split_lines f) as [|l ls] eqn:Hs.
  { apply split_lines_nil in Hs. congruence. }
  apply Forall_cons in Hshort as [Hl Hls].
  destruct (fgets_go_first_line f 255 l ls Hs Hl) as (rest & Hgo & Hrest).
  assert (Hfg : fgets 256 f = Some (l, rest)).
  { unfold fgets. rewrite Hf, <- Hf. by rewrite <- Hgo. }
  rewrite Hfg. f_equal.
  apply fgets_shrinks in Hfg as (_ & _ & Hlt); [|lia].
  rewrite <- Hrest. apply IH; [lia|by rewrite Hrest].
Qed.

(** When no line exceeds what the buffer takes, [fgets] reads the file
    line by line. *)
Lemma fgets_lines_short f :
  Forall (fun l => (length l <= 255)%nat) (split_lines f) ->
  fgets_lines f = split_lines f.
Proof. intros H. apply fgets_lines_go_split; [lia|done]. Qed.

Lemma load_loop_spec fuel f inv :
  length (products inv) = Z.to_nat Max -> 0 <= product_count inv <= Max ->
  let inv' := load_loop fuel f inv in
  let new := take (Z.to_nat (Max - product_count inv))
                  (parsed_lines (fgets_lines_go fuel f)) in
  contents inv' = contents inv ++ new /\
  product_count inv' = product_count inv + Z.of_nat (length new) /\
  length (products inv') = Z.to_nat Max.
Proof.
  revert f inv. induction fuel as [|fuel IH]; intros f inv Hlen Hc; cbv zeta.
  - simpl. rewrite take_nil, app_nil_r. simpl. split; [done|]. split; [lia|done].
  - cbn [load_loop fgets_lines_go].
    destruct (fgets 256 f) as [[buf f']|].
    2:{ unfold parsed_lines. simpl. rewrite take_nil, app_nil_r. simpl.
        split; [done|]. split; [lia|done]. }
    unfold parsed_lines. cbn [omap list_omap].
    fold (parsed_lines (fgets_lines_go fuel f')).
    destruct (Z.ltb_spec (product_count inv) Max) as [Hroom|Hfull].
    + destruct (parse_line (chomp buf)) as [p|].
      * set (inv1 := set_count (store_at inv (product_count inv) p) (product_count inv + 1)).
        destruct (IH f' inv1) as (Hcont & Hcount & Hlen').
        { unfold inv1, set_count, store_at. simpl. by rewrite length_insert. }
        { unfold inv1. simpl. lia. }
        split; [|split; [|done]].
        -- rewrite Hcont. unfold inv1 at 1.
           rewrite contents_store_next by done.
           rewrite <- app_assoc. f_equal. unfold inv1. simpl.
           replace (Z.to_nat (Max - product_count inv))
             with (S (Z.to_nat (Max - (product_count inv + 1)))) by lia.
           done.
        -- rewrite Hcount. unfold inv1. simpl.
           replace (Z.to_nat (Max - product_count inv))
             with (S (Z.to_nat (Max - (product_count inv + 1)))) by lia.
           simpl. lia.
      * by apply IH.
    + replace (Z.to_nat (Max - product_count inv)) with O by lia.
      rewrite take_0, app_nil_r. simpl. split; [done|]. split; [lia|done].
Qed.

(** *** What [sscanf] accepts as a record *)

Lemma take_while_n_spec w ok s :
  let '(a, r) := take_while_n w ok s in
  s = a ++ r /\ (length a <= w)%nat /\ Forall (fun c => ok c = true) a.
Proof.
  revert s. induction w as [|w IH]; intros s.
  - simpl. split; [done|]. split; [lia|done].
  - destruct s as [|c s]; simpl; [split; [done|split; [lia|done]]|].
    destruct (ok c) eqn:Hc; [|simpl; split; [done|split; [lia|done]]].
    specialize (IH s). destruct (take_while_n w ok s) as [a r].
    destruct IH as (-> & Hl & Hall). simpl. split; [done|]. split; [lia|].
    by constructor.
Qed.

Lemma nonempty_some r a rest :
  nonempty r = (Some a, rest) -> r = (a, rest) /\ a <> [].
Proof. destruct r as [[|c l] rest']; simpl; intros [= <- <-]; done. Qed.

Lemma scan_set_some w neg set s a r :
  scan_set (Some w) neg set s = (Some a, r) ->
  s = a ++ r /\ (1 <= length a <= w)%nat /\
  Forall (fun c => xorb neg (mem_char c set) = true) a.
Proof.
  unfold scan_set. intros H. apply nonempty_some in H as [H Hne]. simpl in H.
  pose proof (take_while_n_spec w (fun c => xorb neg (mem_char c set)) s) as Hs.
  rewrite H in Hs. destruct Hs as (-> & Hl & Hall).
  split; [done|]. split; [|done]. destruct a; [done|simpl in *; lia].
Qed.

Lemma scan_int_some s v r : scan_int s = (Some v, r) -> is_int v.
Proof.
  unfold scan_int.
  destruct (scan_sign _ _) as [[neg w1] s1].
  destruct (scan_digits _ _ _ _) as [[x n] s2].
  destruct (n =? 0)%nat; [done|]. intros [= <- _]. apply wrap32_range.
Qed.

Lemma expect_some c s r : expect c s = Some r -> s = c :: r.
Proof.
  destruct s as [|c' s]; [done|]. simpl.
  destruct (Ascii.eqb_spec c' c) as [->|]; [|done]. by intros [= ->].
Qed.

Lemma free_of_negated set a :
  Forall (fun c => xorb true (mem_char c set) = true) a -> free_of set a.
Proof.
  intros H. eapply Forall_impl; [exact H|]. intros c Hc. cbn beta in Hc. destruct (mem_char c set); simpl in *; congruence.
Qed.

Ltac unfold_load_format :=
  unfold parse_line, sscanf;
  let ds := eval vm_compute in (scan_format load_format SLit) in
  change (scan_format load_format SLit) with ds;
  cbn [run_scan].

(** A line is kept only if it starts with seven fields of the expected
    kinds and widths, separated by commas. *)
Lemma parse_line_some line p :
  parse_line line = Some p ->
  (1 <= length (name p) <= 49)%nat /\ free_of [","%char] (name p) /\
  (1 <= length (id p) <= 9)%nat /\ free_of [","%char] (id p) /\
  (1 <= length (category p) <= 29)%nat /\ free_of [","%char] (category p) /\
  is_int (quantity p) /\ is_int (min_stock p) /\
  (1 <= length (date p) <= 10)%nat /\ free_of [","%char; LF] (date p) /\
  exists rest, line = name p ++ lit "," ++ id p ++ lit "," ++ category p ++ lit "," ++ rest.
Proof.
  unfold_load_format.
  destruct (scan_set (Some 49%nat) true _ line) as [[n|] r1] eqn:H1; [|done].
  destruct (expect _ r1) as [r1'|] eqn:E1; [|done].
  destruct (scan_set (Some 9%nat) true _ r1') as [[i|] r2] eqn:H2; [|done].
  destruct (expect _ r2) as [r2'|] eqn:E2; [|done].
  destruct (scan_set (Some 29%nat) true _ r2') as [[c|] r3] eqn:H3; [|done].
  destruct (expect _ r3) as [r3'|] eqn:E3; [|done].
  destruct (scan_int r3') as [[q|] r4] eqn:H4; [|done].
  destruct (expect _ r4) as [r4'|] eqn:E4; [|done].
  destruct (scan_float r4') as [[pr|] r5] eqn:H5; [|done].
  destruct (expect _ r5) as [r5'|] eqn:E5; [|done].
  destruct (scan_int r5') as [[m|] r6] eqn:H6; [|done].
  destruct (expect _ r6) as [r6'|] eqn:E6; [|done].
  destruct (scan_set (Some 10%nat) true _ r6') as [[d|] r7] eqn:H7; [|done].
  simpl. intros [= <-]. simpl.
  apply scan_set_some in H1 as (-> & ? & ?%free_of_negated).
  apply scan_set_some in H2 as (-> & ? & ?%free_of_negated).
  apply scan_set_some in H3 as (-> & ? & ?%free_of_negated).
  apply scan_set_some in H7 as (-> & ? & ?%free_of_negated).
  apply scan_int_some in H4. apply scan_int_some in H6.
  apply expect_some in E1 as ->. apply expect_some in E2 as ->.
  apply expect_some in E3 as ->.
  repeat split; try done; try lia; try apply H4; try apply H6.
  by exists r3'.
Qed.

(** With a store, the loop leaves the records of its lines, at most
    [Max] of them. *)
Lemma load_inventory_loaded inv w f :
  length (products inv) = Z.to_nat Max -> data_txt w = Some f ->
  (load_inventory inv w).1 = 1 /\
  contents (load_inventory inv w).2
  = take (Z.to_nat Max) (parsed_lines (fgets_lines f)) /\
  product_count (load_inventory inv w).2
  = Z.of_nat (length (contents (load_inventory inv w).2)).
Proof.
  intros Hlen Hf. unfold load_inventory. rewrite Hf. cbn [fst snd].
  pose proof (load_loop_spec (S (length f)) f (set_count inv 0)) as Hloop.
  cbv zeta in Hloop. fold (fgets_lines f) in Hloop.
  destruct Hloop as (Hcont & Hcount & Hlen'); [done|simpl; unfold Max; lia|].
  set (inv' := load_loop (S (length f)) f (set_count inv 0)) in *.
  cbn [set_count product_count] in Hcont, Hcount.
  rewrite Z.sub_0_r in *.
  change (contents {| products := products inv; product_count := 0 |})
    with (@nil Prod) in Hcont. rewrite app_nil_l in Hcont.
  split; [done|]. split; [done|].
  rewrite Hcont, Hcount. lia.
Qed.

(** C6. [load_inventory]: without a store it returns 0 and leaves the
    inventory as it is, empty after [init_invent]; with a store it
    returns 1 and the inventory holds, in order, the records of the
    lines [sscanf] reads in full (seven fields of the expected kinds and
    widths), the other lines being skipped, up to 1000 records. Lines
    are what [fgets] returns, which are the lines of the file when none
    exceeds 255 characters. *)
Theorem load_inventory_spec inv w :
  length (products inv) = Z.to_nat Max ->
  (data_txt w = None ->
     load_inventory (init_invent inv) w = (0, init_invent inv) /\
     contents (init_invent inv) = []) /\
  (forall f, data_txt w = Some f ->
     let '(ret, inv') := load_inventory inv w in
     ret = 1 /\
     contents inv' = take (Z.to_nat Max) (parsed_lines (fgets_lines f)) /\
     product_count inv' = Z.of_nat (length (contents inv')) /\
     (Forall (fun l => (length l <= 255)%nat) (split_lines f) ->
        fgets_lines f = split_lines f)) /\
  (forall line p, parse_line line = Some p ->
     (1 <= length (name p) <= 49)%nat /\ free_of [","%char] (name p) /\
     (1 <= length (id p) <= 9)%nat /\ free_of [","%char] (id p) /\
     (1 <= length (category p) <= 29)%nat /\ free_of [","%char] (category p) /\
     is_int (quantity p) /\ is_int (min_stock p) /\
     (1 <= length (date p) <= 10)%nat /\ free_of [","%char; LF] (date p) /\
     exists rest,
       line = name p ++ lit "," ++ id p ++ lit "," ++ category p ++ lit "," ++ rest).
Proof.
  intros Hlen. split; [|split].
  - intros Hnone. unfold load_inventory. rewrite Hnone. done.
  - intros f Hf.
    pose proof (load_inventory_loaded inv w f Hlen Hf) as (Hr & Hc & Hn).
    destruct (load_inventory inv w) as [ret inv']. simpl in *.
    split; [done|]. split; [done|]. split; [done|].
    apply fgets_lines_short.
  - apply parse_line_some.
Qed.

(** ** Reading back what [printf] wrote *)

Lemma take_while_n_app w ok a rest :
  Forall (fun c => ok c = true) a -> (length a <= w)%nat -> stops ok rest ->
  take_while_n w ok (a ++ rest) = (a, rest).
Proof.
  intros Ha. revert w. induction Ha as [|c a Hc _ IH]; intros w Hw Hrest.
  - simpl. destruct w, rest; simpl; try done. simpl in Hrest. by rewrite Hrest.
  - simpl in Hw. destruct w as [|w]; [lia|]. simpl. rewrite Hc.
    rewrite IH by (done || lia). done.
Qed.

Lemma scan_set_field w set a rest :
  a <> [] -> (length a <= w)%nat -> free_of set a ->
  stops (fun c => xorb true (mem_char c set)) rest ->
  scan_set (Some w) true set (a ++ rest) = (Some a, rest).
Proof.
  intros Hne Hw Hfree Hrest. unfold scan_set. simpl.
  rewrite take_while_n_app; try done.
  - by destruct a.
  - eapply Forall_impl; [exact Hfree|]. intros c Hc. simpl in Hc. by rewrite Hc.
Qed.

Lemma isdigit_not_sign c :
  isdigit c = true -> Ascii.eqb c "-" = false /\ Ascii.eqb c "+" = false.
Proof.
  intros Hc. split.
  - destruct (Ascii.eqb_spec c "-") as [->|]; [discriminate|done].
  - destruct (Ascii.eqb_spec c "+") as [->|]; [discriminate|done].
Qed.

Lemma skip_ws_digits ds rest :
  all_digits ds -> ds <> [] -> skip_ws (ds ++ rest) = ds ++ rest.
Proof.
  intros Hds Hne. destruct ds as [|c ds]; [done|].
  apply Forall_inv in Hds. simpl. by rewrite isdigit_not_space.
Qed.

Lemma scan_sign_digits w ds rest :
  all_digits ds -> ds <> [] -> scan_sign w (ds ++ rest) = (false, w, ds ++ rest).
Proof.
  intros Hds Hne. destruct ds as [|c ds]; [done|].
  apply Forall_inv in Hds. apply isdigit_not_sign in Hds as [H1 H2].
  unfold scan_sign. destruct w; [done|]. simpl. by rewrite H1, H2.
Qed.

Lemma decimal_nonneg n : 0 <= n -> decimal n = utoa n.
Proof.
  intros Hn. unfold decimal. destruct (Z.ltb_spec n 0); [lia|].
  by rewrite Z.abs_eq.
Qed.

Lemma decimal_neg n : n < 0 -> decimal n = "-"%char :: utoa (- n).
Proof.
  intros Hn. unfold decimal. destruct (Z.ltb_spec n 0); [|lia].
  by rewrite Z.abs_neq by lia.
Qed.

(** [%d] reads back what [%d] wrote. *)
Lemma scan_int_decimal n rest :
  is_int n -> stops isdigit rest ->
  scan_int (decimal n ++ rest) = (Some n, rest).
Proof.
  intros Hn Hrest. unfold scan_int.
  destruct (Z.lt_ge_cases n 0) as [Hneg|Hpos].
  - rewrite decimal_neg by done.
    destruct (utoa_spec (- n)) as (Hds & Hne & Hv & _); [lia|].
    cbn [app skip_ws]. change (isspace "-") with false. cbv iota.
    cbn [length scan_sign]. change (Ascii.eqb "-" "-") with true. cbv iota.
    rewrite scan_digits_all by (done || rewrite length_app; lia).
    destruct (utoa (- n)) as [|c ds] eqn:Hu; [done|]. cbn [length Nat.add Nat.eqb].
    unfold digits_value in Hv. rewrite Hv.
    rewrite Z.opp_involutive. by rewrite wrap32_id.
  - rewrite decimal_nonneg by lia.
    destruct (utoa_spec n) as (Hds & Hne & Hv & _); [lia|].
    rewrite skip_ws_digits, scan_sign_digits by done.
    rewrite scan_digits_all by (done || rewrite length_app; lia).
    destruct (utoa n) as [|c ds] eqn:Hu; [done|]. cbn [length Nat.add Nat.eqb].
    unfold digits_value in Hv. rewrite Hv. by rewrite wrap32_id.
Qed.

(** *** Prices *)

Lemma scaled_round_nonneg m e p : 0 <= m -> 0 <= scaled_round m e p.
Proof.
  intros Hm. unfold scaled_round.
  assert (0 < 10 ^ Z.of_nat p) by (apply Z.pow_pos_nonneg; lia).
  destruct (Z.leb_spec 0 e).
  - assert (0 < 2 ^ e) by (apply Z.pow_pos_nonneg; lia). nia.
  - assert (0 < 2 ^ (- e)) by (apply Z.pow_pos_nonneg; lia).
    assert (0 <= m * 10 ^ Z.of_nat p / 2 ^ (- e)) by (apply Z.div_pos; nia).
    destruct (_ ?= _); [destruct (Z.even _)| |]; lia.
Qed.

Lemma hundredths_nonneg x : 0 <= hundredths x.
Proof. destruct x; simpl; try lia. by apply scaled_round_nonneg. Qed.

Lemma two_decimals_finite x :
  is_finite x = true ->
  two_decimals x = sign_str (sign_of x) ++ fixed 2 (hundredths x).
Proof. by destruct x. Qed.

Lemma fixed2_shape n :
  0 <= n ->
  exists ip fp, fixed 2 n = ip ++ "."%char :: fp /\ all_digits ip /\ ip <> []
                /\ all_digits fp /\ length fp = 2%nat /\ digits_value (ip ++ fp) = n
                /\ (length ip <= Nat.max 1 (length (utoa n) - 2))%nat.
Proof.
  intros Hn. unfold fixed. fold (three_digits n).
  destruct (three_digits_spec n Hn) as (Hds & Hne & Hv).
  assert (Hlen : length (three_digits n) = Nat.max 3 (length (utoa n))).
  { unfold three_digits, pad_left. rewrite length_app, length_replicate. lia. }
  set (ds := three_digits n) in *.
  exists (take (length ds - 2) ds), (drop (length ds - 2) ds).
  split; [done|]. split; [by apply Forall_take|]. split.
  { intros Heq. apply (f_equal length) in Heq. rewrite length_take in Heq.
    simpl in Heq. lia. }
  split; [by apply Forall_drop|]. split; [rewrite length_drop; lia|].
  split; [by rewrite take_drop|]. rewrite length_take. lia.
Qed.

Lemma scan_exponent_stops rest :
  stops (fun c => isdigit c || Ascii.eqb c "e" || Ascii.eqb c "E") rest ->
  scan_exponent rest = (0, rest).
Proof.
  destruct rest as [|c rest]; [done|]. simpl. intros H.
  apply orb_false_iff in H as [H ->]. apply orb_false_iff in H as [_ ->]. done.
Qed.

(** [%f] reads a numeral [ip.fp] as the nearest [float]. *)
Lemma scan_float_numeral s ip fp rest :
  all_digits ip -> ip <> [] -> all_digits fp ->
  stops (fun c => isdigit c || Ascii.eqb c "e" || Ascii.eqb c "E") rest ->
  scan_float (sign_str s ++ ip ++ "."%char :: fp ++ rest)
  = (Some (float_of_decimal s (digits_value (ip ++ fp)) (- Z.of_nat (length fp))), rest).
Proof.
  intros Hip Hne Hfp Hrest. unfold scan_float.
  assert (Hstop : stops isdigit rest).
  { destruct rest; [done|]. simpl in *. by destruct (isdigit a). }
  assert (Hsign : exists w1, 
    scan_sign (length (skip_ws (sign_str s ++ ip ++ "."%char :: fp ++ rest)))
              (skip_ws (sign_str s ++ ip ++ "."%char :: fp ++ rest))
    = (s, w1, ip ++ "."%char :: fp ++ rest) /\ (length ip <= w1)%nat).
  { destruct s; simpl.
    - eexists. split; [reflexivity|]. rewrite length_app. lia.
    - rewrite skip_ws_digits, scan_sign_digits by done.
      eexists. split; [reflexivity|]. rewrite length_app. lia. }
  destruct Hsign as (w1 & -> & Hw1).
  rewrite scan_digits_all by done.
  change (Ascii.eqb "." ".") with true. cbv iota.
  rewrite scan_digits_all by (done || (rewrite length_app; lia)).
  destruct ip as [|c ip]; [done|]. cbn [length Nat.add Nat.eqb].
  rewrite scan_exponent_stops by done.
  unfold digits_value. rewrite digits_from_app. by rewrite Z.sub_0_l.
Qed.

(** [%f] reads back what [%.2f] wrote, to the nearest [float]. *)
Lemma scan_float_two_decimals x rest :
  is_finite x = true ->
  stops (fun c => isdigit c || Ascii.eqb c "e" || Ascii.eqb c "E") rest ->
  scan_float (two_decimals x ++ rest) = (Some (reread x), rest).
Proof.
  intros Hfin Hrest. rewrite two_decimals_finite by done.
  destruct (fixed2_shape (hundredths x) (hundredths_nonneg x))
    as (ip & fp & -> & Hip & Hne & Hfp & Hlen & Hv & _).
  rewrite <- !app_assoc. cbn [app].
  rewrite scan_float_numeral by done.
  by rewrite Hv, Hlen.
Qed.

(** ** [save_inventory] followed by [load_inventory] *)

Lemma save_line_text p : save_line p = record_text p ++ [LF].
Proof.
  unfold record_text. rewrite <- !app_assoc. cbn [app].
  repeat (rewrite <- app_assoc; cbn [app]). reflexivity.
Qed.

Lemma plain_digits ds : all_digits ds -> plain ds.
Proof.
  intros H. eapply Forall_impl; [exact H|]. intros c Hc. cbn beta in Hc.
  unfold is_plain.
  destruct (Ascii.eqb_spec c NUL) as [->|]; [discriminate|].
  destruct (Ascii.eqb_spec c LF) as [->|]; [discriminate|]. done.
Qed.

Lemma plain_decimal n : plain (decimal n).
Proof.
  unfold decimal. apply Forall_app. split.
  - destruct (n <? 0); repeat constructor.
  - apply plain_digits. apply utoa_spec. lia.
Qed.

Lemma plain_two_decimals x : is_finite x = true -> plain (two_decimals x).
Proof.
  intros Hfin. rewrite two_decimals_finite by done.
  destruct (fixed2_shape (hundredths x) (hundredths_nonneg x))
    as (ip & fp & -> & Hip & _ & Hfp & _).
  apply Forall_app. split; [destruct (sign_of x); repeat constructor|].
  apply Forall_app. split; [by apply plain_digits|].
  constructor; [done|by apply plain_digits].
Qed.

Lemma length_decimal n : is_int n -> (length (decimal n) <= 11)%nat.
Proof.
  unfold is_int, INT_MIN, INT_MAX. intros Hn. unfold decimal.
  rewrite length_app.
  assert (length (utoa (Z.abs n)) <= 10)%nat by (apply utoa_length; simpl; lia).
  destruct (n <? 0); simpl; lia.
Qed.

(** *** How long a price can get *)

Lemma digits2_pos_bound m : Zpos m < 2 ^ Zpos (digits2_pos m).
Proof.
  induction m as [m IH|m IH|]; simpl; [| |done];
    rewrite Pos2Z.inj_succ, Z.pow_succ_r by lia; lia.
Qed.

Lemma valid_float_bounds s m e :
  valid_float (S754_finite s m e) = true -> Zpos m < 2 ^ 24 /\ e <= 104.
Proof.
  unfold valid_float, valid_binary, bounded, canonical_mantissa, fexp, emin,
    prec32, emax32.
  intros H. apply andb_true_iff in H as [H1%Z.eqb_eq H2%Z.leb_le].
  split; [|lia].
  pose proof (digits2_pos_bound m).
  assert (Zpos (digits2_pos m) <= 24) by lia.
  assert (2 ^ Zpos (digits2_pos m) <= 2 ^ 24) by (apply Z.pow_le_mono_r; lia).
  lia.
Qed.

Lemma hundredths_bound x :
  is_finite x = true -> valid_float x = true -> hundredths x < 10 ^ 41.
Proof.
  destruct x as [| | |s m e]; try done. intros _ Hvalid.
  apply valid_float_bounds in Hvalid as [Hm He]. cbn [hundredths].
  unfold scaled_round. change (10 ^ Z.of_nat 2) with 100.
  destruct (Z.leb_spec 0 e).
  - assert (2 ^ e <= 2 ^ 104) by (apply Z.pow_le_mono_r; lia).
    assert (0 < 2 ^ e) by (apply Z.pow_pos_nonneg; lia).
    change (2 ^ 24) with 16777216 in Hm.
    change (2 ^ 104) with 20282409603651670423947251286016 in *.
    change (10 ^ 41) with 100000000000000000000000000000000000000000.
    nia.
  - assert (2 <= 2 ^ (- e)).
    { change 2 with (2 ^ 1) at 1. apply Z.pow_le_mono_r; lia. }
    pose proof (Z.mul_div_le (Zpos m * 100) (2 ^ (- e)) ltac:(lia)).
    assert (0 <= Zpos m * 100 / 2 ^ (- e)) by (apply Z.div_pos; lia).
    change (2 ^ 24) with 16777216 in Hm.
    change (10 ^ 41) with 100000000000000000000000000000000000000000.
    destruct (_ ?= _); [destruct (Z.even _)| |]; nia.
Qed.

Lemma length_two_decimals x :
  is_finite x = true -> valid_float x = true -> (length (two_decimals x) <= 43)%nat.
Proof.
  intros Hfin Hvalid. rewrite two_decimals_finite by done.
  pose proof (hundredths_nonneg x) as Hnn.
  pose proof (hundredths_bound x Hfin Hvalid) as Hb.
  destruct (fixed2_shape (hundredths x) Hnn)
    as (ip & fp & -> & _ & _ & _ & Hfp & _ & Hip).
  assert (length (utoa (hundredths x)) <= 41)%nat by (apply utoa_length; [done|lia]).
  rewrite !length_app. simpl. destruct (sign_of x); simpl; lia.
Qed.

(** *** One line *)

Lemma plain_not_nul_lf c :
  is_plain c = true -> Ascii.eqb c NUL = false /\ Ascii.eqb c LF = false.
Proof.
  unfold is_plain. intros H. apply andb_true_iff in H as [H1 H2].
  by destruct (Ascii.eqb c NUL), (Ascii.eqb c LF).
Qed.

Lemma chomp_line body : plain body -> chomp (body ++ [LF]) = body.
Proof.
  intros Hp. unfold chomp.
  assert (Hc : c_str (body ++ [LF]) = body ++ [LF]).
  { induction Hp as [|c body Hc _ IH]; [done|]. simpl.
    apply plain_not_nul_lf in Hc as [-> _]. by rewrite IH. }
  rewrite Hc. clear Hc.
  assert (Hs : strcspn (body ++ [LF]) [LF] = length body).
  { induction Hp as [|c body Hc' _ IH]; [done|]. simpl.
    apply plain_not_nul_lf in Hc' as [_ ->]. simpl. by f_equal. }
  rewrite Hs. by rewrite take_app_length.
Qed.

Lemma fgets_go_line n body rest :
  plain body -> (length body < n)%nat ->
  fgets_go n (body ++ LF :: rest) = (body ++ [LF], rest).
Proof.
  intros Hp. revert n. induction Hp as [|c body Hc _ IH]; intros n Hn.
  - destruct n; [simpl in Hn; lia|]. done.
  - simpl in Hn. destruct n as [|n]; [lia|]. simpl.
    apply plain_not_nul_lf in Hc as [_ ->]. rewrite IH by lia. done.
Qed.

Lemma fgets_line body rest :
  plain body -> (length body < 255)%nat ->
  fgets 256 (body ++ LF :: rest) = Some (body ++ [LF], rest).
Proof.
  intros Hp Hl. unfold fgets.
  rewrite fgets_go_line by (done || simpl; lia). by destruct body.
Qed.

Lemma fgets_lines_cons body rest :
  plain body -> (length body < 255)%nat ->
  fgets_lines ((body ++ [LF]) ++ rest) = (body ++ [LF]) :: fgets_lines rest.
Proof.
  intros Hp Hl. rewrite <- app_assoc. cbn [app].
  unfold fgets_lines at 1. cbn [fgets_lines_go].
  rewrite fgets_line by done. f_equal.
  apply fgets_lines_go_fuel. rewrite length_app. simpl. lia.
Qed.

Lemma expect_head c r : expect c (c :: r) = Some r.
Proof. simpl. by rewrite Ascii.eqb_refl. Qed.

Lemma free_of_comma_lf s : plain s -> free_of [","%char] s -> free_of [","%char; LF] s.
Proof.
  intros Hp Hf. unfold free_of, plain in *. rewrite Forall_forall in *.
  intros c Hc. specialize (Hp c Hc). specialize (Hf c Hc). simpl in *.
  apply plain_not_nul_lf in Hp as [_ ->].
  by destruct (Ascii.eqb c ",").
Qed.

(** [sscanf] reads the text of a storable product as that product, its
    price to the nearest [float]. *)
Lemma parse_record_text p :
  storable p ->
  parse_line (record_text p) = Some (with_price p (reread (price p))).
Proof.
  intros ((Hn1 & Hn2 & Hn3) & (Hi1 & Hi2 & Hi3) & (Hc1 & Hc2 & Hc3) &
          (Hd1 & Hd2 & Hd3) & Hq & Hm & Hfin & Hval).
  unfold record_text. unfold_load_format.
  rewrite scan_set_field; [|by destruct (name p); simpl in *; try lia|lia|done|done].
  rewrite expect_head.
  rewrite scan_set_field; [|by destruct (id p); simpl in *; try lia|lia|done|done].
  rewrite expect_head.
  rewrite scan_set_field; [|by destruct (category p); simpl in *; try lia|lia|done|done].
  rewrite expect_head.
  rewrite scan_int_decimal by done. rewrite expect_head.
  rewrite scan_float_two_decimals by done. rewrite expect_head.
  rewrite scan_int_decimal by done. rewrite expect_head.
  rewrite <- (app_nil_r (date p)) at 1.
  rewrite scan_set_field;
    [|by destruct (date p); simpl in *; try lia|lia|by apply free_of_comma_lf|done].
  simpl. by destruct p.
Qed.

(** *** The whole store *)

Lemma fold_left_app_flat_map {A B} (g : A -> list B) (l : list A) (acc : list B) :
  fold_left (fun out x => out ++ g x) l acc = acc ++ flat_map g l.
Proof.
  revert acc. induction l as [|x l IH]; intros acc; simpl.
  - by rewrite app_nil_r.
  - by rewrite IH, <- app_assoc.
Qed.

Lemma save_inventory_text inv w :
  wf_invent inv -> data_writable w = true ->
  save_inventory inv w
  = (1, set_data_txt w (Some (flat_map save_line (contents inv)))).
Proof.
  intros Hwf Hw. unfold save_inventory. rewrite Hw. simpl.
  rewrite (for_upto_contents (fun p f => f ++ save_line p) inv [] Hwf).
  by rewrite fold_left_app_flat_map.
Qed.

Lemma length_record_text p : storable p -> (length (record_text p) < 255)%nat.
Proof.
  intros ((Hn1 & _) & (Hi1 & _) & (Hc1 & _) & (Hd1 & _) & Hq & Hm & Hfin & Hval).
  unfold record_text. rewrite !length_app; cbn [length].
  repeat (rewrite !length_app; cbn [length]).
  pose proof (length_decimal _ Hq). pose proof (length_decimal _ Hm).
  pose proof (length_two_decimals _ Hfin Hval). lia.
Qed.

Lemma plain_record_text p : storable p -> plain (record_text p).
Proof.
  intros ((_ & Hn & _) & (_ & Hi & _) & (_ & Hc & _) & (_ & Hd & _) & _ & _ & Hfin & _).
  unfold record_text, plain.
  repeat (apply Forall_app; split; [done || apply plain_decimal || by apply plain_two_decimals|];
          apply Forall_cons; split; [done|]).
  done.
Qed.

Lemma fgets_lines_saved l :
  Forall storable l -> fgets_lines (flat_map save_line l) = save_line <$> l.
Proof.
  induction 1 as [|p l Hp _ IH]; [done|]. simpl.
  rewrite save_line_text.
  rewrite fgets_lines_cons by (by apply plain_record_text || by apply length_record_text).
  by rewrite IH.
Qed.

Lemma parsed_lines_saved l :
  Forall storable l ->
  parsed_lines (save_line <$> l) = (fun p => with_price p (reread (price p))) <$> l.
Proof.
  unfold parsed_lines. induction 1 as [|p l Hp _ IH]; [done|].
  cbn [fmap list_fmap omap list_omap].
  rewrite save_line_text, chomp_line by (by apply plain_record_text).
  rewrite parse_record_text by done. simpl. f_equal. apply IH.
Qed.

(** C2. Saving an inventory and loading the store into another one
    gives back the same number of products and, in the same order, the
    same fields, the price being the [float] nearest to its two-decimal
    numeral. Each line is name,id,category,quantity,price,min_stock,date.
    The text fields are non-empty and hold no comma or newline, the
    price is finite. *)
Theorem save_load_roundtrip inv inv0 w :
  wf_invent inv -> length (products inv0) = Z.to_nat Max ->
  data_writable w = true ->
  Forall storable (contents inv) ->
  let '(r1, w') := save_inventory inv w in
  let '(r2, inv') := load_inventory inv0 w' in
  r1 = 1 /\ r2 = 1 /\
  data_txt w' = Some (flat_map (fun p => record_text p ++ [LF]) (contents inv)) /\
  product_count inv' = product_count inv /\
  contents inv' = (fun p => with_price p (reread (price p))) <$> contents inv.
Proof.
  intros Hwf Hlen Hw Hst.
  rewrite save_inventory_text by done.
  pose proof (load_inventory_loaded inv0
                (set_data_txt w (Some (flat_map save_line (contents inv)))) _
                Hlen eq_refl) as Hload.
  destruct (load_inventory inv0 _) as [r2 inv'].
  cbn [fst snd] in Hload. destruct Hload as (-> & Hcont & Hcount).
  rewrite fgets_lines_saved, parsed_lines_saved in Hcont by done.
  rewrite take_ge in Hcont.
  2:{ rewrite length_fmap, contents_length by done. destruct Hwf. lia. }
  split; [done|]. split; [done|]. split.
  { simpl. f_equal. generalize (contents inv). intros l.
    induction l as [|p l IH]; [done|].
    cbn [flat_map]. by rewrite save_line_text, IH. }
  split; [|done].
  rewrite Hcount, Hcont, length_fmap, contents_length by done.
  destruct Hwf. lia.
Qed.

(** A name typed with a comma is added as it is; the comma shifts the
    fields of its line, the line is not read back and the loaded
    inventory is empty. *)
Lemma save_load_comma_in_name :
  let w := set_stdin world0 (lit "Rice,long Food 10 500 5") in
  let inv := (main_case_1 (inventory_of []) w).1.2 in
  let w' := (save_inventory inv world0).2 in
  let inv' := (load_inventory (inventory_of []) w').2 in
  name <$> contents inv = [lit "Rice,long"] /\
  data_txt w' = Some (lit "Rice,long,P001,Food,10,500.00,5,2024-03-09" ++ [LF]) /\
  product_count inv = 1 /\ product_count inv' = 0 /\
  ~ (product_count inv' = product_count inv).
Proof. vm_compute. repeat split; try reflexivity. discriminate. Qed.

(** A price is read back to the nearest [float]: 500 as 500, and 0.125
    as 0.12. *)
Lemma reread_examples :
  reread (float_of_int 500) = float_of_int 500 /\
  two_decimals (float_of_decimal false 125 (-3)) = lit "0.12" /\
  reread (float_of_decimal false 125 (-3)) = float_of_decimal false 12 (-2).
Proof. vm_compute. by repeat split. Qed.

(** ** Entries of [modify_product] as they are typed *)

Lemma skip_ws_spaces ws s :
  Forall (fun c => isspace c = true) ws -> skip_ws (ws ++ s) = skip_ws s.
Proof. induction 1 as [|c ws Hc _ IH]; [done|]. simpl. by rewrite Hc. Qed.

Lemma scan_int_spaces ws s :
  Forall (fun c => isspace c = true) ws -> scan_int (ws ++ s) = scan_int s.
Proof. intros H. unfold scan_int. by rewrite skip_ws_spaces. Qed.


(** [%ws] reads a word that fits. *)
Lemma scan_str_word w ws tok rest :
  Forall (fun c => isspace c = true) ws ->
  is_word w tok -> stops (fun c => negb (isspace c)) rest ->
  scan_str (Some w) (ws ++ tok ++ rest) = (Some tok, rest).
Proof.
  intros Hws (Hlen & Htok) Hrest. unfold scan_str. rewrite skip_ws_spaces by done.
  destruct tok as [|c tok]; [simpl in Hlen; lia|].
  pose proof (Forall_inv Htok) as Hc. cbn beta in Hc.
  assert (Hskip : skip_ws ((c :: tok) ++ rest) = (c :: tok) ++ rest).
  { simpl. by rewrite Hc. }
  rewrite Hskip. change (default _ (Some w)) with w.
  rewrite take_while_n_app; [done| |lia|done].
  eapply Forall_impl; [exact Htok|]. intros a Ha. cbn beta in *. by rewrite Ha.
Qed.

Lemma scan_str_word_first w tok rest :
  is_word w tok -> stops (fun c => negb (isspace c)) rest ->
  scan_str (Some w) (tok ++ rest) = (Some tok, rest).
Proof. intros. by apply (scan_str_word w []). Qed.





(** The input ends after one word: the first [scanf] reads it, the four
    others read nothing, and [buffer] still holds the word at the second
    [strlen]. *)
Lemma read_entries_name_only w tok :
  is_word 49 tok -> stdin w = tok ->
  read_entries w
  = ({| e_name := tok; e_category := tok; e_qty := junk_qty (junk w);
        e_price := junk_price (junk w); e_threshold := junk_threshold (junk w) |},
     set_stdin w []).
Proof.
  intros Htok Hin.
  assert (E : scan_str (Some 49%nat) tok = (Some tok, [])).
  { rewrite <- (app_nil_r tok) at 1. by apply scan_str_word_first. }
  unfold read_entries, sscanf. rewrite Hin.
  change (scan_format (lit "%49s") SLit) with [DStr (Some 49%nat)].
  change (scan_format (lit "%29s") SLit) with [DStr (Some 29%nat)].
  change (scan_format (lit "%d") SLit) with [DInt].
  change (scan_format (lit "%f") SLit) with [DFloat].
  cbn [run_scan]. rewrite E. cbn [rev app].
  reflexivity.
Qed.

(** C7. [modify_product] does not keep a field whose entry is omitted.
    On an id the inventory holds, when the input ends after the new
    name, a word [tok] of at most 29 characters: the second [scanf]
    reads nothing and [buffer] still holds [tok], so the category
    becomes [tok] as the name does; [qty], [price] and [threshold] are
    never written, and each overwrites its field when the value it
    happens to hold is not negative. The id and the date of the record,
    the count and the other slots stay. *)
Theorem modify_product_omitted_entries inv pid w tok :
  wf_invent inv ->
  (exists q, q ∈ contents inv /\ id q = pid) ->
  is_word 29 tok -> nul_free tok -> stdin w = tok ->
  is_int (junk_qty (junk w)) -> is_int (junk_threshold (junk w)) ->
  valid_float (junk_price (junk w)) = true ->
  let k := search_product_by_id inv pid in
  let '(ret, msg, inv', _) := modify_product inv pid w in
  let p := at_index inv k in
  let p' := at_index inv' k in
  ret = 1 /\ msg = MsgModified /\
  name p' = tok /\ category p' = tok /\
  quantity p' = (if junk_qty (junk w) <? 0 then quantity p else junk_qty (junk w)) /\
  price p' = (if fge (junk_price (junk w)) fzero then junk_price (junk w) else price p) /\
  min_stock p'
  = (if junk_threshold (junk w) <? 0 then min_stock p else junk_threshold (junk w)) /\
  id p' = id p /\ date p' = date p /\
  product_count inv' = product_count inv /\
  (forall j, 0 <= j -> j <> k -> at_index inv' j = at_index inv j).
Proof.
  intros Hwf Hin Htok _ Hstdin _ _ _. cbv zeta.
  destruct (search_found inv pid Hwf Hin) as [Hk Hpid].
  assert (Htok' : is_word 49 tok).
  { destruct Htok as [[? ?] ?]. split; [lia|done]. }
  unfold modify_product.
  destruct (Z.eqb_spec (search_product_by_id inv pid) (-1)) as [?|_]; [lia|].
  rewrite (read_entries_name_only w tok Htok' Hstdin).
  set (k := search_product_by_id inv pid) in *.
  rewrite apply_entries_edited.
  assert (Hlt : (Z.to_nat k < length (products inv))%nat)
    by (destruct Hwf as [Hlen Hc]; unfold Max in *; lia).
  rewrite at_index_update_at by done.
  assert (Hpos : (0 <? length tok)%nat = true).
  { destruct Htok as [[? ?] ?]. apply Nat.ltb_lt. lia. }
  unfold edited. cbn [e_name e_category e_qty e_price e_threshold].
  rewrite Hpos. change (float_of_int 0) with fzero.
  split; [done|]. split; [done|].
  destruct (Z.leb_spec 0 (junk_qty (junk w))) as [Hq|Hq];
    destruct (Z.ltb_spec (junk_qty (junk w)) 0) as [Hq'|Hq']; try lia;
    destruct (Z.leb_spec 0 (junk_threshold (junk w))) as [Ht|Ht];
    destruct (Z.ltb_spec (junk_threshold (junk w)) 0) as [Ht'|Ht']; try lia;
    destruct (fge (junk_price (junk w)) fzero);
    (repeat split; try reflexivity;
     intros j Hj Hne; apply at_index_update_at_ne; lia).
Qed.

(** ** The theorems at work on a small stock *)

Lemma wf_stock : wf_invent stock.
Proof. apply wf_inventory_of. vm_compute. lia. Defined.

Lemma contents_stock : contents stock = [rice; oil; soap].
Proof. apply contents_inventory_of. vm_compute. lia. Defined.

Lemma wf_two : wf_invent (inventory_of [rice; oil]).
Proof. apply wf_inventory_of. vm_compute. lia. Defined.

(** Adding soap to rice and oil. *)
Lemma add_product_spec_witness :
  wf_invent (inventory_of [rice; oil]) /\
  (let '(ret, msg, inv', _) := add_product (inventory_of [rice; oil]) soap world0 in
   ret = 1 /\ msg = MsgAdded /\ contents inv' = [rice; oil; soap] /\
   product_count inv' = 3 /\ search_product_by_id inv' (lit "P010") = 2).
Proof.
  split; [exact wf_two|].
  pose proof (add_product_spec (inventory_of [rice; oil]) soap world0 wf_two) as H.
  destruct (add_product (inventory_of [rice; oil]) soap world0) as [[[ret msg] inv'] w'].
  destruct H as (_ & _ & H). destruct H as (Hr & Hm & Hc & Hn & Hs).
  - vm_compute. reflexivity.
  - rewrite contents_inventory_of by (vm_compute; lia).
    intros q Hq. apply list_elem_of_In in Hq.
    destruct Hq as [<-|[<-|[]]]; discriminate.
  - rewrite contents_inventory_of in Hc by (vm_compute; lia).
    repeat split; assumption.
Defined.

(** Deleting oil from the stock, the answer being "y". *)
Lemma delete_product_spec_witness :
  wf_invent stock /\
  (exists q, q ∈ contents stock /\ id q = lit "P003") /\
  confirmed (read_confirm (set_stdin world0 (lit "y"))).1 = true /\
  (let '(ret, msg, inv', _) :=
     delete_product stock (lit "P003") (set_stdin world0 (lit "y")) in
   ret = 1 /\ contents inv' = [rice; soap] /\ product_count inv' = 2 /\
   search_product_by_id inv' (lit "P003") = -1).
Proof.
  assert (Hin : exists q, q ∈ contents stock /\ id q = lit "P003").
  { exists oil. split; [|reflexivity]. rewrite contents_stock.
    apply list_elem_of_In. simpl. tauto. }
  assert (Hyes : confirmed (read_confirm (set_stdin world0 (lit "y"))).1 = true)
    by reflexivity.
  split; [exact wf_stock|]. split; [exact Hin|]. split; [exact Hyes|].
  pose proof (delete_product_spec stock (lit "P003") (set_stdin world0 (lit "y"))
                wf_stock Hin Hyes) as H.
  cbv zeta in H.
  destruct (delete_product stock (lit "P003") (set_stdin world0 (lit "y")))
    as [[[ret msg] inv'] w'].
  destruct H as (_ & _ & Hr & _ & Hc & _ & _ & Hn & Hs).
  rewrite contents_stock in Hc, Hs.
  replace (search_product_by_id stock (lit "P003")) with 1 in Hc by (vm_compute; reflexivity).
  repeat split; try assumption.
  apply Hs. intros [|[|[|j]]] q Hq Hid; try reflexivity; exfalso;
    simpl in Hq; try discriminate Hq; injection Hq as <-; discriminate Hid.
Defined.

Lemma stock_id_lengths :
  Forall (fun p => (length (id p) <= 9)%nat) (contents stock).
Proof. rewrite contents_stock. repeat constructor; vm_compute; lia. Defined.

(** The ids P001, P003, P010 give P011. *)
Lemma generate_unique_id_spec_witness :
  wf_invent stock /\
  Forall (fun p => (length (id p) <= 9)%nat) (contents stock) /\
  generate_unique_id stock = lit "P011".
Proof.
  split; [exact wf_stock|]. split; [exact stock_id_lengths|].
  pose proof (generate_unique_id_spec stock wf_stock stock_id_lengths) as (_ & _ & _ & H).
  apply H. rewrite contents_stock. reflexivity.
Defined.

Lemma generate_unique_id_fresh_witness :
  wf_invent stock /\
  Forall (fun p => (length (id p) <= 9)%nat) (contents stock) /\
  search_product_by_id stock (generate_unique_id stock) = -1.
Proof.
  split; [exact wf_stock|]. split; [exact stock_id_lengths|].
  exact (proj1 (proj2 (generate_unique_id_fresh stock wf_stock stock_id_lengths))).
Defined.

(** Thirteen units in stock; oil and soap are low. *)
Lemma statistics_spec_witness :
  wf_invent stock /\
  is_int (sum_quantities (contents stock)) /\
  total_qty (display_inventory_statistics stock) = 13 /\
  low_stock_count (display_inventory_statistics stock) = 2.
Proof.
  assert (Hs : is_int (sum_quantities (contents stock))).
  { rewrite contents_stock. vm_compute. split; discriminate. }
  split; [exact wf_stock|]. split; [exact Hs|].
  pose proof (statistics_spec stock wf_stock Hs) as (Ht & _ & _ & Hl & _).
  rewrite Ht, Hl, contents_stock. split; reflexivity.
Defined.

Lemma load_inventory_spec_witness :
  length (products stock) = Z.to_nat Max /\
  (let '(ret, inv') :=
     load_inventory stock (set_data_txt world0 (Some sample_store)) in
   ret = 1 /\ contents inv' = [rice; oil] /\ product_count inv' = 2).
Proof.
  assert (Hlen : length (products stock) = Z.to_nat Max) by reflexivity.
  split; [exact Hlen|].
  pose proof (load_inventory_spec stock (set_data_txt world0 (Some sample_store)) Hlen)
    as (_ & H & _).
  specialize (H sample_store eq_refl).
  destruct (load_inventory stock (set_data_txt world0 (Some sample_store))) as [ret inv'].
  destruct H as (Hr & Hc & Hn & _).
  rewrite Hn, Hc. repeat split; [exact Hr|vm_compute; reflexivity..].
Defined.

Lemma storable_stock : Forall storable (contents stock).
Proof.
  rewrite contents_stock.
  repeat constructor; vm_compute; try lia; try discriminate; try reflexivity.
Defined.

(** The stock comes back from the store as it was. *)
Lemma save_load_roundtrip_witness :
  wf_invent stock /\ length (products (inventory_of [])) = Z.to_nat Max /\
  data_writable world0 = true /\ Forall storable (contents stock) /\
  (let '(r1, w') := save_inventory stock world0 in
   let '(r2, inv') := load_inventory (inventory_of []) w' in
   product_count inv' = 3 /\ contents inv' = [rice; oil; soap]).
Proof.
  assert (Hlen : length (products (inventory_of [])) = Z.to_nat Max) by reflexivity.
  split; [exact wf_stock|]. split; [exact Hlen|]. split; [reflexivity|].
  split; [exact storable_stock|].
  pose proof (save_load_roundtrip stock (inventory_of []) world0
                wf_stock Hlen eq_refl storable_stock) as H.
  destruct (save_inventory stock world0) as [r1 w'].
  destruct (load_inventory (inventory_of []) w') as [r2 inv'].
  destruct H as (_ & _ & _ & Hn & Hc).
  rewrite Hn, Hc, contents_stock. split; vm_compute; reflexivity.
Defined.

(** The input ends after the new name "Foo" of the only product, Rice
    of the category "Food" with 10 in stock: the category becomes "Foo"
    and the quantity the 0 that [qty] held. *)
Lemma modify_product_omitted_entries_witness :
  let inv := inventory_of [rice] in
  let w := set_stdin world0 (lit "Foo") in
  let inv' := (modify_product inv (lit "P001") w).1.2 in
  at_index inv 0 = rice /\
  name (at_index inv' 0) = lit "Foo" /\
  category (at_index inv' 0) = lit "Foo" /\
  category (at_index inv' 0) <> category (at_index inv 0) /\
  quantity (at_index inv' 0) = 0 /\
  quantity (at_index inv' 0) <> quantity (at_index inv 0).
Proof.
  cbv zeta.
  assert (Hwf : wf_invent (inventory_of [rice]))
    by (apply wf_inventory_of; vm_compute; lia).
  assert (Hin : exists q, q ∈ contents (inventory_of [rice]) /\ id q = lit "P001").
  { exists rice. split; [|reflexivity].
    rewrite contents_inventory_of by (vm_compute; lia). apply list_elem_of_In. simpl. tauto. }
  assert (Htok : is_word 29 (lit "Foo")).
  { split; [vm_compute; lia|]. by repeat constructor. }
  assert (Hnul : nul_free (lit "Foo")) by (by repeat constructor).
  pose proof (modify_product_omitted_entries (inventory_of [rice]) (lit "P001")
                (set_stdin world0 (lit "Foo")) (lit "Foo") Hwf Hin Htok Hnul eq_refl) as H.
  cbv zeta in H.
  replace (search_product_by_id (inventory_of [rice]) (lit "P001")) with 0 in H
    by (vm_compute; reflexivity).
  destruct (modify_product (inventory_of [rice]) (lit "P001") (set_stdin world0 (lit "Foo")))
    as [[[ret msg] inv'] w'].
  destruct H as (_ & _ & Hname & Hcat & Hq & _).
  - vm_compute. split; discriminate.
  - vm_compute. split; discriminate.
  - vm_compute. reflexivity.
  - cbn [fst snd]. rewrite Hname, Hcat, Hq.
    repeat split; try (vm_compute; reflexivity); vm_compute; discriminate.
Defined.

(** Oil renamed and restocked; the category and the threshold are kept
    by the entries "Food" (as before) and -1. *)
Lemma modify_product_entries_example :
  wf_invent stock /\
  (exists q, q ∈ contents stock /\ id q = lit "P003") /\
  (let '(ret, msg, inv', _) :=
     modify_product stock (lit "P003") (set_stdin world0 (lit "Olive Food 8 -1 -1")) in
   ret = 1 /\ name (at_index inv' 1) = lit "Olive" /\ quantity (at_index inv' 1) = 8 /\
   price (at_index inv' 1) = price oil /\ min_stock (at_index inv' 1) = 5 /\
   id (at_index inv' 1) = lit "P003" /\ at_index inv' 0 = rice /\
   product_count inv' = 3).
Proof.
  assert (Hin : exists q, q ∈ contents stock /\ id q = lit "P003").
  { exists oil. split; [|reflexivity]. rewrite contents_stock.
    apply list_elem_of_In. simpl. tauto. }
  split; [exact wf_stock|]. split; [exact Hin|].
  pose proof (modify_product_entries stock (lit "P003")
                (set_stdin world0 (lit "Olive Food 8 -1 -1")) wf_stock Hin) as H.
  specialize (H ltac:(vm_compute; lia) ltac:(vm_compute; lia)).
  cbv zeta in H.
  replace (search_product_by_id stock (lit "P003")) with 1 in H by (vm_compute; reflexivity).
  destruct (modify_product stock (lit "P003") (set_stdin world0 (lit "Olive Food 8 -1 -1")))
    as [[[ret msg] inv'] w'].
  destruct H as (Hr & _ & _ & Hname & _ & Hq & Hp & Hm & Hid & _ & Hn & _ & Hother).
  rewrite Hname, Hq, Hp, Hm, Hid, Hn, (Hother 0) by lia.
  repeat split; try assumption; vm_compute; reflexivity.
Defined.

Lemma calendar_tm0 : calendar_tm (now world0).
Proof. vm_compute. repeat split; discriminate. Defined.


(** ** Inputs outside the data model *)

(** A quantity of -5 typed at the prompt is added as it is. The total
    quantity is then negative, not 0, yet the average price is 0 and not
    the quotient, which is 2. *)
Lemma statistics_negative_total :
  let w := set_stdin world0 (lit "Returns Food -5 2 5") in
  let inv := (main_case_1 (inventory_of []) w).1.2 in
  let st := display_inventory_statistics inv in
  contents inv = [returns] /\
  total_qty st = -5 /\ total_value st = float_of_int (-10) /\
  average_price st = fzero /\
  fdiv (total_value st) (float_of_int (total_qty st)) = float_of_int 2 /\
  ~ (average_price st
     = if total_qty st =? 0 then fzero
       else fdiv (total_value st) (float_of_int (total_qty st))).
Proof. vm_compute. repeat split; try reflexivity. discriminate. Qed.

(** [load_inventory] takes both lines; after a confirmed delete of P001
    the search still finds P001, at index 0. *)
Lemma delete_duplicate_id_found_again :
  let inv := (load_inventory (inventory_of []) (set_data_txt world0 (Some twin_store))).2 in
  let r := delete_product inv (lit "P001") (set_stdin world0 (lit "y")) in
  name <$> contents inv = [lit "Rice"; lit "Maize"] /\
  id <$> contents inv = [lit "P001"; lit "P001"] /\
  r.1.1.1 = 1 /\ name <$> contents r.1.2 = [lit "Maize"] /\
  search_product_by_id r.1.2 (lit "P001") = 0 /\
  ~ (search_product_by_id r.1.2 (lit "P001") = -1).
Proof. vm_compute. repeat split; try reflexivity. discriminate. Qed.

(** * Further properties of the operations *)

(** ** Outcomes of [add_product] and [delete_product] *)

Lemma stdin_log_inventory_change change before after w :
  stdin (log_inventory_change change before after w) = stdin w.
Proof. unfold log_inventory_change. by destruct (log_writable w). Qed.

Lemma stdin_save_inventory inv w : stdin (save_inventory inv w).2 = stdin w.
Proof. unfold save_inventory. by destruct (data_writable w). Qed.

Lemma add_product_refused inv p w :
  wf_invent inv ->
  product_count inv = Max \/ (exists q, q ∈ contents inv /\ id q = id p) ->
  exists msg, add_product inv p w = (0, msg, inv, w).
Proof.
  intros Hwf H. unfold add_product.
  destruct (Z.leb_spec Max (product_count inv)) as [Hfull|Hroom]; [by eexists|].
  destruct H as [?|(q & Hq & Hid)]; [lia|].
  rewrite (search_contents _ _ Hwf).
  destruct (Z.eqb_spec (first_with_id (contents inv) (id p) 0) (-1)) as [Habs|Hdup]; simpl.
  - apply first_with_id_none in Habs; [|lia].
    rewrite Forall_forall in Habs. by destruct (Habs q Hq).
  - by eexists.
Qed.

Lemma add_product_added inv p w :
  wf_invent inv -> product_count inv < Max ->
  (forall q, q ∈ contents inv -> id q <> id p) ->
  let inv' := set_count (store_at inv (product_count inv) p) (product_count inv + 1) in
  add_product inv p w
  = (1, MsgAdded, inv',
     (save_inventory inv' (log_inventory_change ADD_PRODUCT None (Some p) w)).2).
Proof.
  intros Hwf Hroom Hfresh. pose proof Hwf as [Hlen Hc]. unfold add_product.
  destruct (Z.leb_spec Max (product_count inv)) as [?|_]; [lia|].
  rewrite (search_contents _ _ Hwf).
  rewrite first_with_id_absent by (by apply Forall_forall). simpl.
  rewrite int_add_id by (unfold is_int, INT_MIN, INT_MAX, Max in *; lia).
  done.
Qed.

Lemma wf_shift_left inv k :
  wf_invent inv -> 0 <= k < product_count inv ->
  wf_invent (set_count (shift_left inv k) (product_count inv - 1)).
Proof.
  intros Hwf Hk. pose proof Hwf as [Hlen Hc].
  rewrite shift_left_spec by done.
  split; simpl; [|lia].
  rewrite !length_app, !length_take, !length_drop. unfold Max in *. lia.
Qed.

Lemma delete_product_done inv pid w :
  wf_invent inv ->
  (exists q, q ∈ contents inv /\ id q = pid) ->
  confirmed (read_confirm w).1 = true ->
  let k := search_product_by_id inv pid in
  let inv' := set_count (shift_left inv k) (product_count inv - 1) in
  delete_product inv pid w
  = (1, MsgDeleted, inv',
     (save_inventory inv'
        (log_inventory_change DELETE_PRODUCT (Some (at_index inv k)) None
           (read_confirm w).2)).2).
Proof.
  intros Hwf Hex Hyes. pose proof Hwf as [Hlen Hc].
  destruct (search_found inv pid Hwf Hex) as [Hk _].
  unfold delete_product. cbv zeta.
  destruct (Z.eqb_spec (search_product_by_id inv pid) (-1)) as [?|_]; [lia|].
  destruct (read_confirm w) as [c w0]. simpl in Hyes |- *. rewrite Hyes. simpl.
  replace (int_add (product_count (shift_left inv (search_product_by_id inv pid))) (-1))
    with (product_count inv - 1); [done|].
  rewrite shift_left_spec by done. simpl.
  rewrite int_add_id; [lia|]. unfold is_int, INT_MIN, INT_MAX, Max in *; lia.
Qed.

(** ** [search_product_by_id] *)

(** X1. [search_product_by_id] returns -1 exactly when no product in
    use has the id; otherwise it returns the index of the first product
    with that id: an index below the count, the id is there, and at no
    smaller index. *)
Theorem search_product_by_id_first inv pid :
  wf_invent inv ->
  let k := search_product_by_id inv pid in
  (k = -1 /\ Forall (fun p => id p <> pid) (contents inv)) \/
  (0 <= k < product_count inv /\ id (at_index inv k) = pid /\
   forall j, 0 <= j < k -> id (at_index inv j) <> pid).
Proof.
  intros Hwf. cbv zeta. rewrite (search_contents _ _ Hwf).
  destruct (decide (first_with_id (contents inv) pid 0 = -1)) as [Habs|Hfound].
  - left. split; [done|]. apply (first_with_id_none _ _ 0); [done|lia].
  - right.
    destruct (first_with_id_range _ _ Hfound) as (k & p & Hk & Hp & Hpid & Hbefore).
    rewrite Hk.
    pose proof (lookup_lt_Some _ _ _ Hp) as Hlt.
    rewrite contents_length in Hlt by done.
    split; [lia|]. split.
    + rewrite <- Hpid. f_equal. apply at_index_contents; [lia|]. by rewrite Nat2Z.id.
    + intros j Hj.
      destruct (lookup_lt_is_Some_2 (contents inv) (Z.to_nat j)) as [q Hq].
      { rewrite contents_length by done. lia. }
      rewrite (at_index_contents inv j q) by (done || lia).
      rewrite Forall_lookup in Hbefore. apply (Hbefore (Z.to_nat j)).
      rewrite lookup_take_lt by lia. done.
Qed.

Lemma search_product_by_id_first_witness :
  wf_invent stock /\
  0 <= search_product_by_id stock (lit "P003") < product_count stock /\
  id (at_index stock (search_product_by_id stock (lit "P003"))) = lit "P003" /\
  (forall j, 0 <= j < search_product_by_id stock (lit "P003") ->
     id (at_index stock j) <> lit "P003").
Proof.
  split; [exact wf_stock|].
  destruct (search_product_by_id_first stock (lit "P003") wf_stock) as [[H _]|H].
  - vm_compute in H. discriminate H.
  - exact H.
Defined.
Lemma id_present_or_absent inv pid :
  (exists q, q ∈ contents inv /\ id q = pid) \/
  (forall q, q ∈ contents inv -> id q <> pid).
Proof.
  destruct (decide (first_with_id (contents inv) pid 0 = -1)) as [Habs|Hfound].
  - right. apply Forall_forall, (first_with_id_none _ _ 0); [done|lia].
  - left. destruct (first_with_id_range _ _ Hfound) as (k & p & _ & Hp & Hpid & _).
    exists p. split; [|done]. by eapply list_elem_of_lookup_2.
Qed.

Lemma search_absent inv pid :
  wf_invent inv -> (forall q, q ∈ contents inv -> id q <> pid) ->
  search_product_by_id inv pid = -1.
Proof.
  intros Hwf H. rewrite search_contents by done.
  by apply first_with_id_absent, Forall_forall.
Qed.

(** ** [add_product] and the files *)

(** X2. [add_product] never reads the console. A refused product (no
    room, or an id already there) leaves both files as they were. An
    added product puts its line at the end of the change log and
    rewrites the store with one line per product, the new one last; a
    file that cannot be opened is left as it was. *)
Theorem add_product_files inv p w :
  wf_invent inv ->
  let '(ret, _, inv', w') := add_product inv p w in
  stdin w' = stdin w /\
  (ret = 0 -> w' = w) /\
  (ret = 1 ->
     inventory_txt w'
     = (if log_writable w
        then Some (default [] (inventory_txt w)
                   ++ log_text (log_timestamp w) ADD_PRODUCT None (Some p))
        else inventory_txt w) /\
     data_txt w'
     = (if data_writable w
        then Some (flat_map save_line (contents inv ++ [p]))
        else data_txt w)).
Proof.
  intros Hwf. pose proof Hwf as [Hlen Hc].
  destruct (Z.eq_dec (product_count inv) Max) as [Hfull|Hroom].
  { destruct (add_product_refused inv p w Hwf) as [msg ->]; [by left|].
    repeat split; done. }
  destruct (id_present_or_absent inv (id p)) as [Hdup|Hfresh].
  { destruct (add_product_refused inv p w Hwf) as [msg ->]; [by right|].
    repeat split; done. }
  rewrite add_product_added by (done || lia). cbv zeta.
  set (inv' := set_count _ _).
  assert (Hwf' : wf_invent inv') by (apply wf_store_next; [done|lia]).
  split; [by rewrite stdin_save_inventory, stdin_log_inventory_change|].
  split; [done|]. intros _.
  unfold log_inventory_change.
  destruct (data_writable w) eqn:Hd, (log_writable w) eqn:Hl; simpl.
  - rewrite save_inventory_text by done. simpl. split; [done|].
    unfold inv'. by rewrite contents_store_next by (done || lia).
  - rewrite save_inventory_text by done. simpl. split; [done|].
    unfold inv'. by rewrite contents_store_next by (done || lia).
  - unfold save_inventory. simpl. by rewrite Hd.
  - unfold save_inventory. by rewrite Hd.
Qed.

Lemma add_product_files_witness :
  wf_invent (inventory_of [rice; oil]) /\
  (let '(ret, _, _, w') := add_product (inventory_of [rice; oil]) soap world0 in
   ret = 1 /\
   inventory_txt w'
   = Some (lit "[2024-03-09 14:05:30] ADDED: Soap (ID: P010, Qty: 0, Price: 300.00)"
           ++ [LF]) /\
   data_txt w'
   = Some (lit "Rice,P001,Food,10,500.00,5,2024-03-09" ++ [LF]
           ++ lit "Oil,P003,Food,3,1250.00,5,2024-03-09" ++ [LF]
           ++ lit "Soap,P010,Home,0,300.00,2,2024-03-09" ++ [LF])).
Proof.
  split; [exact wf_two|].
  pose proof (add_product_files (inventory_of [rice; oil]) soap world0 wf_two) as H.
  destruct (add_product (inventory_of [rice; oil]) soap world0)
    as [[[ret msg] inv'] w'] eqn:E.
  assert (Hret : ret = 1).
  { apply (f_equal (fun r => r.1.1.1)) in E. vm_compute in E. congruence. }
  destruct H as (_ & _ & H). destruct (H Hret) as [Hlog Hdata].
  split; [done|]. split.
  - rewrite Hlog. vm_compute. reflexivity.
  - rewrite Hdata. vm_compute. reflexivity.
Defined.

(** ** Invariants of [add_product] *)

(** X3. Whatever [add_product] is given, the inventory it leaves is well
    formed (the count stays within the array), and when the ids in use
    were pairwise different they still are. *)
Theorem add_product_keeps_ids_unique inv p w :
  wf_invent inv ->
  let inv' := (add_product inv p w).1.2 in
  wf_invent inv' /\
  (NoDup (id <$> contents inv) -> NoDup (id <$> contents inv')).
Proof.
  intros Hwf. pose proof Hwf as [Hlen Hc]. cbv zeta.
  destruct (Z.eq_dec (product_count inv) Max) as [Hfull|Hroom].
  { destruct (add_product_refused inv p w Hwf) as [msg ->]; [by left|]. done. }
  destruct (id_present_or_absent inv (id p)) as [Hdup|Hfresh].
  { destruct (add_product_refused inv p w Hwf) as [msg ->]; [by right|]. done. }
  rewrite add_product_added by (done || lia). simpl.
  split; [apply wf_store_next; [done|lia]|].
  intros Hnd. rewrite contents_store_next by (done || lia).
  rewrite fmap_app. simpl. apply NoDup_app. split; [done|]. split.
  - intros x Hx Hin. apply list_elem_of_fmap in Hx as (q & -> & Hq).
    apply list_elem_of_singleton in Hin. by apply (Hfresh q).
  - apply NoDup_singleton.
Qed.

Lemma add_product_keeps_ids_unique_witness :
  wf_invent (inventory_of [rice; oil]) /\
  NoDup (id <$> contents (add_product (inventory_of [rice; oil]) soap world0).1.2).
Proof.
  split; [exact wf_two|].
  apply (add_product_keeps_ids_unique (inventory_of [rice; oil]) soap world0 wf_two).
  rewrite contents_inventory_of by (vm_compute; lia).
  apply (bool_decide_unpack _). vm_compute. exact I.
Defined.
(** ** An id the inventory does not hold *)

(** X4. For an id that no product in use has, [modify_product] and
    [delete_product] return 0 and report "Product not found": nothing is
    read from the console, and the inventory and both files stay as
    they were. *)
Theorem unknown_id_changes_nothing inv pid w :
  wf_invent inv ->
  (forall q, q ∈ contents inv -> id q <> pid) ->
  modify_product inv pid w = (0, MsgNotFound, inv, w) /\
  delete_product inv pid w = (0, MsgNotFound, inv, w).
Proof.
  intros Hwf Habs. unfold modify_product, delete_product.
  by rewrite (search_absent _ _ Hwf Habs).
Qed.

Lemma unknown_id_changes_nothing_witness :
  wf_invent stock /\
  (forall q, q ∈ contents stock -> id q <> lit "P002") /\
  modify_product stock (lit "P002") (set_stdin world0 (lit "Tea Food 1 2 3"))
  = (0, MsgNotFound, stock, set_stdin world0 (lit "Tea Food 1 2 3")) /\
  delete_product stock (lit "P002") (set_stdin world0 (lit "y"))
  = (0, MsgNotFound, stock, set_stdin world0 (lit "y")).
Proof.
  assert (H : forall q, q ∈ contents stock -> id q <> lit "P002").
  { rewrite contents_stock. intros q Hq. apply list_elem_of_In in Hq.
    destruct Hq as [<-|[<-|[<-|[]]]]; discriminate. }
  split; [exact wf_stock|]. split; [exact H|]. split.
  - exact (proj1 (unknown_id_changes_nothing stock (lit "P002") _ wf_stock H)).
  - exact (proj2 (unknown_id_changes_nothing stock (lit "P002") _ wf_stock H)).
Defined.

(** ** The answer to [delete_product] *)

Lemma read_confirm_answer w ws c rest :
  Forall (fun c => isspace c = true) ws -> isspace c = false ->
  stdin w = ws ++ c :: rest ->
  read_confirm w = (c, set_stdin w rest).
Proof.
  intros Hws Hc Hin. unfold read_confirm, sscanf. rewrite Hin.
  change (scan_format (lit " %c") SLit) with [DSpace; DChar].
  cbn [run_scan]. rewrite skip_ws_spaces by done.
  cbn [skip_ws]. rewrite Hc. done.
Qed.

(** X5. The answer [delete_product] reads is the first character typed
    that is not white space. Unless it is y or Y the deletion is
    cancelled: the function returns 0, the inventory and both files
    stay as they were, and only the answer is gone from the input. *)
Theorem delete_product_cancelled inv pid w ws c rest :
  wf_invent inv ->
  (exists q, q ∈ contents inv /\ id q = pid) ->
  Forall (fun c => isspace c = true) ws -> isspace c = false ->
  stdin w = ws ++ c :: rest ->
  c <> "y"%char -> c <> "Y"%char ->
  delete_product inv pid w = (0, MsgCancelled, inv, set_stdin w rest).
Proof.
  intros Hwf Hex Hws Hc Hin Hy HY.
  destruct (search_found inv pid Hwf Hex) as [Hk _].
  unfold delete_product.
  destruct (Z.eqb_spec (search_product_by_id inv pid) (-1)) as [?|_]; [lia|].
  rewrite (read_confirm_answer w ws c rest) by done.
  unfold confirmed.
  destruct (Ascii.eqb_spec c "y"); [done|].
  destruct (Ascii.eqb_spec c "Y"); [done|]. done.
Qed.

Lemma delete_product_cancelled_witness :
  wf_invent stock /\
  delete_product stock (lit "P003") (set_stdin world0 (lit " no"))
  = (0, MsgCancelled, stock, set_stdin (set_stdin world0 (lit " no")) (lit "o")).
Proof.
  split; [exact wf_stock|].
  apply (delete_product_cancelled stock (lit "P003") _ (lit " ") "n"%char (lit "o")).
  - exact wf_stock.
  - exists oil. split; [|reflexivity]. rewrite contents_stock.
    apply list_elem_of_In. simpl. tauto.
  - repeat constructor.
  - reflexivity.
  - reflexivity.
  - discriminate.
  - discriminate.
Defined.

(** ** Invariants of [delete_product] *)

Lemma contents_delete_product inv pid w :
  wf_invent inv ->
  (exists q, q ∈ contents inv /\ id q = pid) ->
  confirmed (read_confirm w).1 = true ->
  let inv' := (delete_product inv pid w).1.2 in
  wf_invent inv' /\
  contents inv' = delete (Z.to_nat (search_product_by_id inv pid)) (contents inv) /\
  product_count inv' = product_count inv - 1.
Proof.
  intros Hwf Hex Hyes. cbv zeta.
  destruct (search_found inv pid Hwf Hex) as [Hk _].
  rewrite delete_product_done by done. simpl.
  split; [by apply wf_shift_left|]. split; [|done].
  by apply (contents_shift_left inv _ Hwf Hk).
Qed.

(** X6. A confirmed [delete_product] leaves a well-formed inventory in
    which every product is one that was there before; every product
    with another id is still there and is still found by
    [search_product_by_id]; ids that were pairwise different still are. *)
Theorem delete_product_keeps_others inv pid w :
  wf_invent inv ->
  (exists q, q ∈ contents inv /\ id q = pid) ->
  confirmed (read_confirm w).1 = true ->
  let inv' := (delete_product inv pid w).1.2 in
  wf_invent inv' /\
  (forall q, q ∈ contents inv' -> q ∈ contents inv) /\
  (forall q, q ∈ contents inv -> id q <> pid ->
     q ∈ contents inv' /\ search_product_by_id inv' (id q) <> -1) /\
  (NoDup (id <$> contents inv) -> NoDup (id <$> contents inv')).
Proof.
  intros Hwf Hex Hyes.
  destruct (contents_delete_product inv pid w Hwf Hex Hyes) as (Hwf' & Hcont & _).
  destruct (search_found inv pid Hwf Hex) as [Hk Hid].
  cbv zeta. set (inv' := (delete_product inv pid w).1.2) in *.
  set (k := search_product_by_id inv pid) in *.
  split; [done|]. split.
  { intros q. rewrite Hcont. apply list_elem_of_delete_inv. }
  split.
  - intros q Hq Hne.
    assert (Hin : q ∈ contents inv').
    { rewrite Hcont.
      apply list_elem_of_lookup in Hq as [j Hj].
      assert (Hjk : j <> Z.to_nat k).
      { intros ->. apply Hne. rewrite <- Hid. f_equal. symmetry.
        apply at_index_contents; [lia|done]. }
      destruct (decide (j < Z.to_nat k)%nat).
      + apply list_elem_of_lookup. exists j. by rewrite list_lookup_delete_lt.
      + apply list_elem_of_lookup. exists (pred j).
        rewrite list_lookup_delete_ge by lia.
        by replace (S (pred j)) with j by lia. }
    split; [done|].
    rewrite search_contents by done. intros Habs.
    apply first_with_id_none in Habs; [|lia].
    rewrite Forall_forall in Habs. by apply (Habs q).
  - intros Hnd. rewrite Hcont, list_fmap_delete.
    eapply sublist_NoDup; [done|]. apply sublist_delete.
Qed.

Lemma delete_product_keeps_others_witness :
  wf_invent stock /\
  (rice ∈ contents (delete_product stock (lit "P003") (set_stdin world0 (lit "y"))).1.2 /\
   search_product_by_id
     (delete_product stock (lit "P003") (set_stdin world0 (lit "y"))).1.2 (id rice) <> -1).
Proof.
  split; [exact wf_stock|].
  assert (Hin : exists q, q ∈ contents stock /\ id q = lit "P003").
  { exists oil. split; [|reflexivity]. rewrite contents_stock.
    apply list_elem_of_In. simpl. tauto. }
  assert (Hyes : confirmed (read_confirm (set_stdin world0 (lit "y"))).1 = true)
    by reflexivity.
  destruct (delete_product_keeps_others stock (lit "P003") (set_stdin world0 (lit "y"))
              wf_stock Hin Hyes) as (_ & _ & H & _).
  apply H.
  - rewrite contents_stock. apply list_elem_of_In. simpl. tauto.
  - discriminate.
Defined.

(** ** [add_product] followed by [delete_product] *)

(** X7. Deleting, with a confirmed answer, the product that
    [add_product] has just added gives back the products there were
    before, in the same order. *)
Theorem add_then_delete inv p w w2 :
  wf_invent inv -> product_count inv < Max ->
  (forall q, q ∈ contents inv -> id q <> id p) ->
  confirmed (read_confirm w2).1 = true ->
  let inv1 := (add_product inv p w).1.2 in
  let '(ret, msg, inv2, _) := delete_product inv1 (id p) w2 in
  ret = 1 /\ msg = MsgDeleted /\
  contents inv2 = contents inv /\ product_count inv2 = product_count inv.
Proof.
  intros Hwf Hroom Hfresh Hyes. pose proof Hwf as [Hlen Hc]. cbv zeta.
  rewrite add_product_added by done. simpl.
  set (inv1 := set_count _ _).
  assert (Hwf1 : wf_invent inv1) by (by apply wf_store_next).
  assert (Hc1 : contents inv1 = contents inv ++ [p]) by (by apply contents_store_next).
  assert (Hex : exists q, q ∈ contents inv1 /\ id q = id p).
  { exists p. split; [|done]. rewrite Hc1. apply elem_of_app. right.
    by apply list_elem_of_singleton. }
  assert (Hk : search_product_by_id inv1 (id p) = product_count inv).
  { rewrite search_contents, Hc1 by done.
    rewrite first_with_id_app_absent by (by apply Forall_forall). simpl.
    unfold strcmp_eq. rewrite bool_decide_eq_true_2 by done.
    rewrite contents_length by done. lia. }
  pose proof (contents_delete_product inv1 (id p) w2 Hwf1 Hex Hyes) as H.
  cbv zeta in H. rewrite delete_product_done in H |- * by done.
  cbn [fst snd] in H. destruct H as (_ & Hcont & Hcount).
  cbv beta iota zeta.
  split; [done|]. split; [done|]. split.
  - rewrite Hcont, Hk, Hc1.
    replace (Z.to_nat (product_count inv)) with (length (contents inv))
      by (by rewrite contents_length).
    rewrite delete_middle. by rewrite app_nil_r.
  - rewrite Hcount. simpl. lia.
Qed.

Lemma add_then_delete_witness :
  wf_invent (inventory_of [rice; oil]) /\
  (let inv1 := (add_product (inventory_of [rice; oil]) soap world0).1.2 in
   let '(ret, msg, inv2, _) :=
     delete_product inv1 (lit "P010") (set_stdin world0 (lit "Y")) in
   ret = 1 /\ msg = MsgDeleted /\ contents inv2 = [rice; oil] /\ product_count inv2 = 2).
Proof.
  split; [exact wf_two|].
  pose proof (add_then_delete (inventory_of [rice; oil]) soap world0
                (set_stdin world0 (lit "Y")) wf_two) as H.
  rewrite contents_inventory_of in H by (vm_compute; lia).
  apply H.
  - vm_compute. reflexivity.
  - intros q Hq. apply list_elem_of_In in Hq.
    destruct Hq as [<-|[<-|[]]]; discriminate.
  - reflexivity.
Defined.

(** ** The change log only grows *)

Lemma inventory_txt_save_inventory inv w :
  inventory_txt (save_inventory inv w).2 = inventory_txt w.
Proof. unfold save_inventory. by destruct (data_writable w). Qed.

Lemma log_inventory_change_grows change before after w :
  log_grows w (log_inventory_change change before after w).
Proof.
  unfold log_grows, log_inventory_change.
  destruct (log_writable w); simpl; [|done].
  by apply prefix_app_r.
Qed.

Lemma read_entries_frame w :
  data_txt (read_entries w).2 = data_txt w /\
  data_writable (read_entries w).2 = data_writable w /\
  inventory_txt (read_entries w).2 = inventory_txt w /\
  log_writable (read_entries w).2 = log_writable w.
Proof.
  unfold read_entries.
  destruct (sscanf (stdin w) _) as [r1 in1].
  destruct (sscanf in1 _) as [r2 in2].
  destruct (sscanf in2 _) as [r3 in3].
  destruct (sscanf in3 _) as [r4 in4].
  destruct (sscanf in4 _) as [r5 in5]. done.
Qed.

Lemma log_grows_same w w' : inventory_txt w' = inventory_txt w -> log_grows w w'.
Proof. unfold log_grows. by intros ->. Qed.

(** X8. [add_product], [modify_product] and [delete_product], whatever
    they are given and whatever they answer, only ever add to the end of
    the change log: what the log held before is the beginning of what it
    holds after. *)
Theorem change_log_only_grows inv w :
  (forall p, log_grows w (add_product inv p w).2) /\
  (forall pid, log_grows w (modify_product inv pid w).2) /\
  (forall pid, log_grows w (delete_product inv pid w).2).
Proof.
  split; [|split].
  - intros p. unfold add_product.
    destruct (Max <=? product_count inv); [by apply log_grows_same|].
    destruct (negb _); [by apply log_grows_same|]. simpl.
    unfold log_grows. rewrite inventory_txt_save_inventory.
    apply log_inventory_change_grows.
  - intros pid. unfold modify_product.
    destruct (_ =? -1); [by apply log_grows_same|].
    pose proof (read_entries_frame w) as (_ & _ & Hw0 & _).
    destruct (read_entries w) as [e w0]. simpl in Hw0 |- *.
    unfold log_grows. rewrite inventory_txt_save_inventory.
    rewrite <- Hw0. apply log_inventory_change_grows.
  - intros pid. unfold delete_product.
    destruct (_ =? -1); [by apply log_grows_same|].
    unfold read_confirm. destruct (sscanf (stdin w) (lit " %c")) as [r rest].
    destruct (negb _); [by apply log_grows_same|]. simpl.
    unfold log_grows. rewrite inventory_txt_save_inventory.
    apply (log_inventory_change_grows _ _ _ (set_stdin w rest)).
Qed.

(** ** [reset_inventory] *)

(** X9. [reset_inventory] empties the inventory: no product is in use,
    no id is found, and the next generated id is P001. Each of the two
    files is emptied if it can be opened and left as it was otherwise.
    After the store was emptied [load_inventory] loads nothing, and after
    the log was emptied [display_recent_changes] has no line to show. *)
Theorem reset_inventory_empties inv w :
  let '(inv', w') := reset_inventory inv w in
  product_count inv' = 0 /\ contents inv' = [] /\
  (forall pid, search_product_by_id inv' pid = -1) /\
  generate_unique_id inv' = lit "P001" /\
  stdin w' = stdin w /\
  data_txt w' = (if data_writable w then Some [] else data_txt w) /\
  inventory_txt w' = (if log_writable w then Some [] else inventory_txt w) /\
  (data_writable w = true ->
     forall inv0, load_inventory inv0 w' = (1, init_invent inv0)) /\
  (log_writable w = true ->
     forall n, 0 <= n -> display_recent_changes n w' = Some []).
Proof.
  unfold reset_inventory.
  split; [done|]. split; [done|]. split; [done|]. split; [done|].
  destruct (data_writable w) eqn:Hd, (log_writable w) eqn:Hl; simpl;
    rewrite ?Hl; simpl; repeat split; try done.
  - intros _ n Hn. unfold display_recent_changes. simpl.
    destruct (Z.ltb_spec n 0); [lia|]. done.
  - intros _ n Hn. unfold display_recent_changes. simpl.
    destruct (Z.ltb_spec n 0); [lia|]. done.
Qed.

(** ** The store after an operation *)

Lemma data_after_save inv w :
  wf_invent inv ->
  data_txt (save_inventory inv w).2
  = if data_writable w then Some (flat_map save_line (contents inv)) else data_txt w.
Proof.
  intros Hwf. destruct (data_writable w) eqn:Hd.
  - by rewrite save_inventory_text.
  - unfold save_inventory. by rewrite Hd.
Qed.

Lemma data_log_inventory_change change before after w :
  data_txt (log_inventory_change change before after w) = data_txt w /\
  data_writable (log_inventory_change change before after w) = data_writable w.
Proof. unfold log_inventory_change. by destruct (log_writable w). Qed.

Lemma wf_update_at inv k f : wf_invent inv -> wf_invent (update_at inv k f).
Proof.
  intros [Hlen Hc]. split; simpl; [|done]. by rewrite length_insert.
Qed.


(** X10. After every [add_product], [modify_product] or
    [delete_product] that returns 1, the store holds one line per
    product of the inventory in memory, in order, if the store could be
    opened; if it could not, the store is what it was, and the function
    has returned 1 all the same. *)
Theorem store_follows_memory inv w :
  wf_invent inv ->
  (forall p, let '(ret, _, inv', w') := add_product inv p w in
     ret = 1 ->
     data_txt w' = if data_writable w
                   then Some (flat_map save_line (contents inv')) else data_txt w) /\
  (forall pid, let '(ret, _, inv', w') := modify_product inv pid w in
     ret = 1 ->
     data_txt w' = if data_writable w
                   then Some (flat_map save_line (contents inv')) else data_txt w) /\
  (forall pid, let '(ret, _, inv', w') := delete_product inv pid w in
     ret = 1 ->
     data_txt w' = if data_writable w
                   then Some (flat_map save_line (contents inv')) else data_txt w).
Proof.
  intros Hwf. pose proof Hwf as [Hlen Hc]. split; [|split].
  - intros p.
    destruct (Z.eq_dec (product_count inv) Max) as [Hfull|Hroom].
    { destruct (add_product_refused inv p w Hwf) as [msg ->]; [by left|]. done. }
    destruct (id_present_or_absent inv (id p)) as [Hdup|Hfresh].
    { destruct (add_product_refused inv p w Hwf) as [msg ->]; [by right|]. done. }
    rewrite add_product_added by (done || lia). cbv zeta. intros _.
    rewrite data_after_save by (apply wf_store_next; [done|lia]).
    by destruct (data_log_inventory_change ADD_PRODUCT None (Some p) w) as [-> ->].
  - intros pid. unfold modify_product.
    destruct (_ =? -1); [done|].
    pose proof (read_entries_frame w) as (Hd & Hdw & _).
    destruct (read_entries w) as [e w0]. simpl in Hd, Hdw. intros _.
    rewrite data_after_save by (rewrite apply_entries_edited; by apply wf_update_at).
    destruct (data_log_inventory_change MODIFY_PRODUCT
                (Some (at_index inv (search_product_by_id inv pid)))
                (Some (at_index (apply_entries inv (search_product_by_id inv pid) e)
                                (search_product_by_id inv pid))) w0) as [-> ->].
    by rewrite Hd, Hdw.
  - intros pid.
    destruct (id_present_or_absent inv pid) as [Hex|Habs].
    2:{ unfold delete_product. by rewrite (search_absent _ _ Hwf Habs). }
    destruct (confirmed (read_confirm w).1) eqn:Hyes.
    2:{ unfold delete_product. destruct (_ =? -1); [done|].
        destruct (read_confirm w) as [c w0]. simpl in Hyes. by rewrite Hyes. }
    destruct (search_found inv pid Hwf Hex) as [Hk _].
    rewrite delete_product_done by done. cbv zeta. intros _.
    rewrite data_after_save by (by apply wf_shift_left).
    destruct (data_log_inventory_change DELETE_PRODUCT
                (Some (at_index inv (search_product_by_id inv pid))) None
                (read_confirm w).2) as [-> ->].
    unfold read_confirm. by destruct (sscanf (stdin w) (lit " %c")).
Qed.

Lemma store_follows_memory_witness :
  wf_invent stock /\
  data_txt (modify_product stock (lit "P003")
              (set_stdin world0 (lit "Olive Food 8 -1 -1"))).2
  = Some (lit "Rice,P001,Food,10,500.00,5,2024-03-09" ++ [LF]
          ++ lit "Olive,P003,Food,8,1250.00,5,2024-03-09" ++ [LF]
          ++ lit "Soap,P010,Home,0,300.00,2,2024-03-09" ++ [LF]).
Proof.
  split; [exact wf_stock|].
  destruct (store_follows_memory stock (set_stdin world0 (lit "Olive Food 8 -1 -1"))
              wf_stock) as (_ & H & _).
  specialize (H (lit "P003")).
  destruct (modify_product stock (lit "P003") (set_stdin world0 (lit "Olive Food 8 -1 -1")))
    as [[[ret msg] inv'] w'] eqn:E.
  assert (Hret : ret = 1).
  { apply (f_equal (fun r => r.1.1.1)) in E. vm_compute in E. congruence. }
  simpl. rewrite (H Hret).
  apply (f_equal (fun r => r.1.2)) in E. simpl in E. subst inv'.
  vm_compute. reflexivity.
Defined.

(** ** [init_prod] *)

Lemma four_digits_padded n :
  1000 <= n <= 9999 ->
  fmt_d {| cs_left := false; cs_zero := true; cs_width := 4; cs_prec := None |} n
  = fmt_d spec0 n.
Proof.
  intros Hn. rewrite fmt_d_plain. unfold fmt_d, in_field, decimal.
  cbn [cs_prec cs_left cs_zero cs_width andb].
  destruct (Z.ltb_spec n 0); [lia|]. rewrite Z.abs_eq by lia.
  cbn [sign_str app length Nat.sub]. unfold pad_left.
  by rewrite (utoa_length_exact n 3) by (simpl; lia).
Qed.

Lemma date_text y m d :
  1000 <= y <= 9999 ->
  sprintf (lit "%04d-%02d-%02d") [PInt y; PInt m; PInt d]
  = fmt_d spec0 y ++ "-"%char :: two_digits m ++ "-"%char :: two_digits d.
Proof.
  intros Hy. unfold sprintf.
  lazy -[fmt_d app two_digits].
  rewrite four_digits_padded, app_nil_r by done. reflexivity.
Qed.

Lemma today_text t :
  calendar_tm t ->
  sprintf (lit "%04d-%02d-%02d")
    [PInt (int_add (tm_year t) 1900); PInt (int_add (tm_mon t) 1); PInt (tm_mday t)]
  = fmt_d spec0 (tm_year t + 1900) ++ "-"%char :: two_digits (tm_mon t + 1)
    ++ "-"%char :: two_digits (tm_mday t).
Proof.
  intros (Hy & Hm & Hd & _).
  rewrite !int_add_id by (unfold is_int, INT_MIN, INT_MAX; lia).
  by apply date_text.
Qed.

(** X11. [init_prod] gives an empty product with quantity 0, price 0
    and a threshold of 5, so a product low in stock. For a calendar time
    in a four-digit year its date has the ten characters YYYY-MM-DD, the
    same as the first ten of the time stamp the change log would carry,
    and it is the date [input_product] then writes again; when
    [localtime] fails the date is 0000-00-00. *)
Theorem init_prod_today w p :
  calendar_tm (now w) ->
  let p0 := init_prod (Some (now w)) in
  name p0 = [] /\ id p0 = [] /\ category p0 = [] /\
  quantity p0 = 0 /\ price p0 = fzero /\ min_stock p0 = 5 /\
  is_low_stock p0 = true /\
  is_date (date p0) = true /\
  date p0 = take 10 (log_timestamp w) /\
  date (input_product p w).1 = date p0 /\
  date (init_prod None) = lit "0000-00-00".
Proof.
  intros Hcal. pose proof Hcal as (Hy & Hm & Hd & Hh & Hn & Hs). cbv zeta.
  do 7 (split; [reflexivity|]).
  assert (Hdate : date (init_prod (Some (now w)))
                  = fmt_d spec0 (tm_year (now w) + 1900)
                    ++ "-"%char :: two_digits (tm_mon (now w) + 1)
                    ++ "-"%char :: two_digits (tm_mday (now w))).
  { unfold init_prod. cbn [date]. by apply today_text. }
  destruct (four_digits_shape (tm_year (now w) + 1900) Hy)
    as (y1 & y2 & y3 & y4 & Hyear & H1 & H2 & H3 & H4).
  destruct (two_digits_shape (tm_mon (now w) + 1)) as (m1 & m2 & Hmon & H5 & H6); [lia|].
  destruct (two_digits_shape (tm_mday (now w))) as (d1 & d2 & Hday & H7 & H8); [lia|].
  destruct (two_digits_shape (tm_hour (now w))) as (h1 & h2 & Hhour & _); [lia|].
  destruct (two_digits_shape (tm_min (now w))) as (n1 & n2 & Hmin & _); [lia|].
  destruct (two_digits_shape (tm_sec (now w))) as (s1 & s2 & Hsec & _); [lia|].
  split.
  { rewrite Hdate, Hyear, Hmon, Hday. cbn [app is_date].
    by rewrite H1, H2, H3, H4, H5, H6, H7, H8. }
  split.
  { rewrite Hdate. unfold log_timestamp, strftime.
    assert (Hgo : strftime_go (lit "%Y-%m-%d %H:%M:%S") false (now w)
                  = [y1; y2; y3; y4; "-"; m1; m2; "-"; d1; d2; " ";
                     h1; h2; ":"; n1; n2; ":"; s1; s2]%char).
    { lazy -[fmt_d spec0 two_digits app tm_year tm_mon tm_mday tm_hour tm_min tm_sec
             now Z.add].
      by rewrite Hyear, Hmon, Hday, Hhour, Hmin, Hsec. }
    rewrite Hgo, Hyear, Hmon, Hday. reflexivity. }
  split; [|reflexivity].
  unfold input_product.
  destruct (sscanf (stdin w) _) as [r1 in1].
  destruct (sscanf in1 _) as [r2 in2].
  destruct (sscanf in2 _) as [r3 in3].
  destruct (sscanf in3 _) as [r4 in4].
  destruct (sscanf in4 _) as [r5 in5].
  cbn [fst date with_date]. unfold init_prod. cbn [date]. reflexivity.
Qed.

Lemma init_prod_today_witness :
  calendar_tm (now world0) /\
  date (init_prod (Some (now world0))) = lit "2024-03-09" /\
  is_date (date (init_prod (Some (now world0)))) = true /\
  date (input_product rice world0).1 = lit "2024-03-09".
Proof.
  split; [exact calendar_tm0|].
  destruct (init_prod_today world0 rice calendar_tm0)
    as (_ & _ & _ & _ & _ & _ & _ & Hshape & _ & Hinput & _).
  split; [vm_compute; reflexivity|]. split; [exact Hshape|].
  rewrite Hinput. vm_compute. reflexivity.
Defined.

(** ** [count_low_stock_products] *)

Lemma low_stock_fold l lo :
  fold_left (fun counter p =>
               if quantity p <=? min_stock p then int_add counter 1 else counter)
            l (wrap32 lo)
  = wrap32 (lo + count_low_stock l).
Proof.
  revert lo. induction l as [|p l IH]; intros lo.
  - simpl. f_equal. unfold count_low_stock. simpl. lia.
  - cbn [fold_left]. unfold count_low_stock in *. cbn [List.filter].
    change (is_low_stock p) with (quantity p <=? min_stock p).
    destruct (quantity p <=? min_stock p).
    + unfold int_add. rewrite wrap32_add_l, IH. f_equal. simpl length. lia.
    + apply IH.
Qed.

Lemma count_low_stock_products_contents inv :
  wf_invent inv -> count_low_stock_products inv = count_low_stock (contents inv).
Proof.
  intros Hwf. pose proof Hwf as [Hlen Hc]. unfold count_low_stock_products.
  rewrite (for_upto_contents
             (fun p counter =>
                if quantity p <=? min_stock p then int_add counter 1 else counter)
             inv 0 Hwf).
  change 0 with (wrap32 0) at 1. rewrite low_stock_fold.
  pose proof (count_low_stock_bound (contents inv)) as Hb.
  rewrite contents_length in Hb by done.
  apply wrap32_id. unfold is_int, INT_MIN, INT_MAX, Max in *. lia.
Qed.

(** X12. [count_low_stock_products] counts the products in use whose
    quantity is at most their threshold; the count lies between 0 and
    the number of products, and it is the low-stock count that
    [display_inventory_statistics] shows. *)
Theorem count_low_stock_products_spec inv :
  wf_invent inv ->
  count_low_stock_products inv
  = Z.of_nat (length (List.filter (fun p => quantity p <=? min_stock p) (contents inv))) /\
  0 <= count_low_stock_products inv <= product_count inv /\
  count_low_stock_products inv = low_stock_count (display_inventory_statistics inv).
Proof.
  intros Hwf. pose proof Hwf as [Hlen Hc].
  pose proof (count_low_stock_products_contents inv Hwf) as H.
  pose proof (count_low_stock_bound (contents inv)) as Hb.
  rewrite contents_length in Hb by done.
  split; [by rewrite H|]. split; [rewrite H; lia|].
  destruct (statistics_loop inv Hwf) as (_ & _ & -> & _). done.
Qed.

Lemma count_low_stock_products_spec_witness :
  wf_invent stock /\ count_low_stock_products stock = 2 /\
  low_stock_count (display_inventory_statistics stock) = 2.
Proof.
  split; [exact wf_stock|].
  destruct (count_low_stock_products_spec stock wf_stock) as (H1 & _ & H3).
  split.
  - rewrite H1, contents_stock. reflexivity.
  - rewrite <- H3, H1, contents_stock. reflexivity.
Defined.

(** ** The length of a generated id *)

Lemma length_three_digits n :
  length (three_digits n) = Nat.max 3 (length (utoa n)).
Proof. unfold three_digits, pad_left. rewrite length_app, length_replicate. lia. Qed.

(** X13. With ids of at most nine characters, the id
    [generate_unique_id] writes has four to nine characters, and so fits
    [char id[10]], as long as the greatest number in use is below
    99999999; from 99999999 on it has ten and does not fit. *)
Theorem generate_unique_id_length inv :
  wf_invent inv ->
  Forall (fun p => (length (id p) <= 9)%nat) (contents inv) ->
  let m := max_number (id_numbers (contents inv)) in
  (m < 99999999 -> (4 <= length (generate_unique_id inv) <= 9)%nat) /\
  (m = 99999999 -> length (generate_unique_id inv) = 10%nat) /\
  m <= 99999999.
Proof.
  intros Hwf Hid. cbv zeta. rewrite generate_unique_id_max by done.
  pose proof (max_number_nonneg (id_numbers (contents inv))) as Hnn.
  pose proof (max_number_bound _ (10 ^ 8) ltac:(lia) (id_numbers_bound _ Hid)) as Hb.
  set (m := max_number (id_numbers (contents inv))) in *.
  rewrite length_app, length_three_digits. cbn [lit list_ascii_of_string length].
  split; [|split; [|lia]].
  - intros Hm.
    pose proof (utoa_length (m + 1) 8 ltac:(simpl; lia) ltac:(lia)). lia.
  - intros Hm.
    pose proof (utoa_length_exact (m + 1) 8 ltac:(simpl; lia)). lia.
Qed.

Lemma generate_unique_id_length_witness :
  wf_invent stock /\
  Forall (fun p => (length (id p) <= 9)%nat) (contents stock) /\
  (4 <= length (generate_unique_id stock) <= 9)%nat.
Proof.
  split; [exact wf_stock|]. split; [exact stock_id_lengths|].
  apply (generate_unique_id_length stock wf_stock stock_id_lengths).
  rewrite contents_stock. vm_compute. reflexivity.
Defined.

(** ** [input_product] *)




(** ** Adding through the menu *)

Lemma generated_id_unused inv :
  wf_invent inv ->
  Forall (fun p => (length (id p) <= 9)%nat) (contents inv) ->
  forall q, q ∈ contents inv -> id q <> generate_unique_id inv.
Proof.
  intros Hwf Hid q Hq Heq.
  rewrite generate_unique_id_max in Heq by done.
  pose proof (max_number_nonneg (id_numbers (contents inv))) as Hnn.
  pose proof (max_number_bound _ (10 ^ 8) ltac:(lia) (id_numbers_bound _ Hid)) as Hb.
  set (m := max_number (id_numbers (contents inv))) in *.
  assert (Hin : m + 1 ∈ id_numbers (contents inv)).
  { unfold id_numbers. apply list_elem_of_fmap. exists q. split.
    - rewrite Heq. simpl. rewrite drop_0.
      destruct (three_digits_spec (m + 1)) as (Hds & Hne & Hv); [lia|].
      rewrite atoi_digits, Hv by done.
      symmetry. apply wrap32_id. unfold is_int, INT_MIN, INT_MAX. lia.
    - apply list_elem_of_In, filter_In. split; [by apply list_elem_of_In|].
      rewrite Heq. reflexivity. }
  apply max_number_ge in Hin. lia.
Qed.

Lemma generate_unique_id_fits inv :
  wf_invent inv ->
  Forall (fun p => (length (id p) <= 9)%nat) (contents inv) ->
  max_number (id_numbers (contents inv)) < 99999999 ->
  (length (generate_unique_id inv) <= 9)%nat.
Proof.
  intros Hwf Hid Hm. rewrite generate_unique_id_max by done.
  pose proof (max_number_nonneg (id_numbers (contents inv))) as Hnn.
  set (m := max_number (id_numbers (contents inv))) in *.
  rewrite length_app, length_three_digits. cbn [lit list_ascii_of_string length].
  pose proof (utoa_length (m + 1) 8 ltac:(simpl; lia) ltac:(lia)). lia.
Qed.

Lemma write_id_fits p text :
  (length text <= 9)%nat -> write_id p text = with_id p text.
Proof. intros H. unfold write_id. by destruct (Nat.leb_spec (length text) 9); [|lia]. Qed.

Lemma id_write_id p text : id (write_id p text) = text.
Proof. unfold write_id. by destruct (length text <=? 9)%nat. Qed.

(** X15. The first case of the menu, on an inventory whose ids have at
    most nine characters and whose greatest number is below 99999999,
    so that the generated id fits [char id[10]]: the product typed is
    added under the generated id unless the inventory is full, and never
    refused for an id already in use. The entries are read before the
    room is checked, so they are gone from the input even when the
    inventory is full. *)
Theorem main_case_1_adds inv w :
  wf_invent inv ->
  Forall (fun p => (length (id p) <= 9)%nat) (contents inv) ->
  max_number (id_numbers (contents inv)) < 99999999 ->
  let '(ret, msg, inv', w') := main_case_1 inv w in
  let typed := input_product (init_prod (Some (now w))) w in
  let p := with_id typed.1 (generate_unique_id inv) in
  msg <> MsgIdExists /\
  stdin w' = stdin typed.2 /\
  (product_count inv = Max -> ret = 0 /\ msg = MsgInventoryFull /\ inv' = inv) /\
  (product_count inv < Max ->
     ret = 1 /\ msg = MsgAdded /\ contents inv' = contents inv ++ [p] /\
     product_count inv' = product_count inv + 1 /\
     search_product_by_id inv' (generate_unique_id inv) = product_count inv).
Proof.
  intros Hwf Hid Hm. pose proof Hwf as [Hlen Hc]. unfold main_case_1.
  destruct (input_product (init_prod (Some (now w))) w) as [p1 w1].
  cbv zeta. cbn [fst snd].
  rewrite write_id_fits by (by apply generate_unique_id_fits).
  set (p := with_id p1 (generate_unique_id inv)).
  assert (Hfresh : forall q, q ∈ contents inv -> id q <> id p).
  { intros q Hq. by apply generated_id_unused. }
  destruct (Z.eq_dec (product_count inv) Max) as [Hfull|Hroom].
  { unfold add_product.
    destruct (Z.leb_spec Max (product_count inv)); [|lia].
    repeat split; (done || lia). }
  rewrite add_product_added by (done || lia). cbv zeta.
  split; [done|]. split.
  { by rewrite stdin_save_inventory, stdin_log_inventory_change. }
  split; [done|]. intros _.
  split; [done|]. split; [done|]. split.
  { apply contents_store_next; [done|lia]. }
  split; [done|].
  rewrite search_contents by (apply wf_store_next; [done|lia]).
  rewrite contents_store_next by (done || lia).
  rewrite first_with_id_app_absent by (by apply Forall_forall). simpl.
  unfold strcmp_eq. rewrite bool_decide_eq_true_2 by done.
  rewrite contents_length by done. lia.
Qed.

Lemma main_case_1_adds_witness :
  wf_invent stock /\
  Forall (fun p => (length (id p) <= 9)%nat) (contents stock) /\
  max_number (id_numbers (contents stock)) < 99999999 /\
  (let '(ret, msg, inv', w') :=
     main_case_1 stock (set_stdin world0 (lit "Tea Food 4 750.50 2")) in
   ret = 1 /\ msg = MsgAdded /\
   contents inv'
   = [rice; oil; soap;
      {| name := lit "Tea"; id := lit "P011"; category := lit "Food"; quantity := 4;
         price := float_of_decimal false 75050 (-2); date := lit "2024-03-09";
         min_stock := 2 |}]).
Proof.
  assert (Hmax : max_number (id_numbers (contents stock)) < 99999999)
    by (rewrite contents_stock; vm_compute; reflexivity).
  split; [exact wf_stock|]. split; [exact stock_id_lengths|]. split; [exact Hmax|].
  pose proof (main_case_1_adds stock (set_stdin world0 (lit "Tea Food 4 750.50 2"))
                wf_stock stock_id_lengths Hmax) as H.
  destruct (main_case_1 stock (set_stdin world0 (lit "Tea Food 4 750.50 2")))
    as [[[ret msg] inv'] w'].
  cbv zeta in H. destruct H as (_ & _ & _ & H).
  destruct H as (Hr & Hm & Hc & _); [vm_compute; reflexivity|].
  split; [done|]. split; [done|].
  rewrite Hc, contents_stock. vm_compute. reflexivity.
Defined.

(** * The console *)

(** ** [display_product] *)

Lemma length_pad_left c w s : length (pad_left c w s) = Nat.max w (length s).
Proof. unfold pad_left. rewrite length_app, length_replicate. lia. Qed.

Lemma length_pad_right c w s : length (pad_right c w s) = Nat.max w (length s).
Proof. unfold pad_right. rewrite length_app, length_replicate. lia. Qed.

Lemma fmt_f_width w x :
  fmt_f {| cs_left := false; cs_zero := false; cs_width := w; cs_prec := Some 2%nat |} x
  = pad_left " " w (two_decimals x).
Proof.
  unfold two_decimals, fmt_f, in_field. cbn [cs_left cs_zero cs_width cs_prec andb default].
  destruct x; unfold pad_left at 2; cbn [Nat.sub replicate app]; reflexivity.
Qed.

Lemma fmt_d_width w n :
  fmt_d {| cs_left := false; cs_zero := false; cs_width := w; cs_prec := None |} n
  = pad_left " " w (decimal n).
Proof. reflexivity. Qed.

Lemma sprintf_row p :
  sprintf row_format
    [PStr (name p); PStr (id p); PStr (category p);
     PInt (quantity p); PFloat (price p); PStr (date p)]
  = row_text p.
Proof.
  unfold sprintf, row_text.
  lazy -[fmt_s fmt_d fmt_f app name id category quantity price date
         pad_left pad_right decimal two_decimals].
  rewrite fmt_f_width, fmt_d_width. reflexivity.
Qed.

Lemma display_product_row_text p :
  display_product p = [SetColor (row_color p); Text (row_text p); SetColor 7].
Proof.
  unfold display_product, printf, set_color, reset_color, row_color, is_low_stock.
  rewrite sprintf_row.
  destruct (quantity p =? 0); [done|]. by destruct (quantity p <=? min_stock p).
Qed.

(** X16. [display_product] sets the colour, prints one row and sets the
    colour back to 7. The colour is 12 when the quantity is 0, else 14
    when the quantity is at most the threshold, else 10. In the row no
    field is ever cut: it is at least as long as the rule of the table,
    and exactly as long when every field fits its column. *)
Theorem display_product_row p :
  display_product p = [SetColor (row_color p); Text (row_text p); SetColor 7] /\
  (row_color p = 12 <-> quantity p = 0) /\
  (row_color p = 14 <-> quantity p <> 0 /\ quantity p <= min_stock p) /\
  (row_color p = 10 <-> quantity p <> 0 /\ min_stock p < quantity p) /\
  (length table_rule <= length (row_text p))%nat /\
  (fits_columns p -> length (row_text p) = length table_rule).
Proof.
  split; [apply display_product_row_text|].
  unfold row_color.
  destruct (Z.eqb_spec (quantity p) 0) as [H0|H0];
    destruct (Z.leb_spec (quantity p) (min_stock p)) as [Hl|Hl];
    (split; [split; (done || lia)|]);
    (split; [split; [done || lia | intros [? ?]; (done || lia)]|]);
    (split; [split; [done || lia | intros [? ?]; (done || lia)]|]).
  all: unfold row_text; rewrite !length_app, !length_pad_left, !length_pad_right;
    change (length table_rule) with 93%nat;
    cbn [lit list_ascii_of_string length];
    (split; [lia|]); intros (? & ? & ? & ? & ? & ?); lia.
Qed.

Lemma fits_columns_rice : fits_columns rice.
Proof. vm_compute. repeat split; lia. Qed.

Lemma display_product_row_witness :
  fits_columns rice /\
  length (row_text rice) = 93%nat /\
  display_product rice
  = [SetColor 10;
     Text (lit "| Rice                 | P001     | Food         |   10 |         500.00 FCFA | 2024-03-09 |"
            ++ [LF]);
     SetColor 7].
Proof.
  split; [exact fits_columns_rice|].
  destruct (display_product_row rice) as (Hd & _ & _ & _ & _ & Hfit).
  split; [exact (Hfit fits_columns_rice)|].
  rewrite Hd. vm_compute. reflexivity.
Defined.
(** ** [display_all_products] *)

Lemma sprintf_total n :
  sprintf (lit "Total: %d product(s)
") [PInt n] = lit "Total: " ++ decimal n ++ lit " product(s)" ++ [LF].
Proof.
  unfold sprintf. lazy -[fmt_d app decimal]. by rewrite fmt_d_width.
Qed.

(** X17. [display_all_products] prints the head of the table, one row
    per product in use, in storage order and coloured as
    [display_product] does, the closing rule, and the count as
    "Total: n product(s)". *)
Theorem display_all_products_rows inv :
  wf_invent inv ->
  display_all_products inv
  = [Text ([LF] ++ table_rule); Text table_head; Text table_rule]
    ++ flat_map (fun p => [SetColor (row_color p); Text (row_text p); SetColor 7])
         (contents inv)
    ++ [Text table_rule;
        Text (lit "Total: " ++ decimal (product_count inv) ++ lit " product(s)" ++ [LF])].
Proof.
  intros Hwf. unfold display_all_products, printf.
  rewrite (for_upto_contents (fun p out => out ++ display_product p) inv [] Hwf).
  rewrite fold_left_app_flat_map, sprintf_total. cbn [app].
  do 4 f_equal.
  induction (contents inv) as [|p l IH]; [done|].
  cbn [flat_map]. by rewrite IH, display_product_row_text.
Qed.

Lemma display_all_products_rows_witness :
  wf_invent stock /\
  length (display_all_products stock) = 14%nat /\
  last (display_all_products stock)
  = Some (Text (lit "Total: 3 product(s)" ++ [LF])).
Proof.
  split; [exact wf_stock|].
  rewrite (display_all_products_rows stock wf_stock), contents_stock.
  split; vm_compute; reflexivity.
Defined.

(** ** [display_low_stock_products] *)

Lemma listing_fold test l out found :
  fold_left (fun st p => listing_step test p st) l (out, found)
  = (out ++ (if found then flat_map display_product (List.filter test l)
             else listing (List.filter test l)),
     found || negb (bool_decide (List.filter test l = []))).
Proof.
  revert out found. induction l as [|p l IH]; intros out found.
  - simpl. destruct found; simpl; by rewrite app_nil_r.
  - cbn [fold_left List.filter]. unfold listing_step at 2.
    destruct (test p).
    + rewrite IH. cbn [flat_map]. rewrite orb_true_r.
      destruct found; simpl; by rewrite <- ?app_assoc.
    + apply IH.
Qed.

(** X18. [display_low_stock_products] lists, under its heading, exactly
    the products in use whose quantity is at most their threshold, in
    storage order, between the head of the table and a closing rule; it
    prints "No products are currently low in stock." instead when there
    is none. The number of rows is what [count_low_stock_products]
    returns. *)
Theorem display_low_stock_products_rows inv :
  wf_invent inv ->
  let low := List.filter (fun p => quantity p <=? min_stock p) (contents inv) in
  display_low_stock_products inv
  = Text ([LF] ++ lit "=== LOW STOCK PRODUCTS ===" ++ [LF])
    :: match low with
       | [] => [Text (lit "No products are currently low in stock." ++ [LF])]
       | _ => [Text table_rule; Text table_head; Text table_rule]
              ++ flat_map (fun p => [SetColor (row_color p); Text (row_text p); SetColor 7])
                   low
              ++ [Text table_rule]
       end /\
  Z.of_nat (length low) = count_low_stock_products inv.
Proof.
  intros Hwf. cbv zeta. split.
  - unfold display_low_stock_products.
    change (for_upto 0 (product_count inv) _ ?s)
      with (for_upto 0 (product_count inv)
              (fun i st => listing_step is_low_stock (at_index inv i) st) s).
    rewrite (for_upto_contents (listing_step is_low_stock) inv _ Hwf).
    rewrite listing_fold. cbn [orb negb].
    change (List.filter is_low_stock (contents inv))
      with (List.filter (fun p => quantity p <=? min_stock p) (contents inv)).
    destruct (List.filter _ (contents inv)) as [|p l] eqn:E.
    + reflexivity.
    + rewrite bool_decide_eq_false_2 by done. cbn [negb].
      unfold printf, listing. cbn [app]. do 4 f_equal.
      f_equal. generalize (p :: l). intros l'.
      induction l' as [|q l' IH]; [done|].
      cbn [flat_map]. by rewrite IH, display_product_row_text.
  - by rewrite count_low_stock_products_contents.
Qed.

Lemma display_low_stock_products_rows_witness :
  wf_invent stock /\
  display_low_stock_products stock
  = [Text ([LF] ++ lit "=== LOW STOCK PRODUCTS ===" ++ [LF]);
     Text table_rule; Text table_head; Text table_rule;
     SetColor 14; Text (row_text oil); SetColor 7;
     SetColor 12; Text (row_text soap); SetColor 7;
     Text table_rule] /\
  count_low_stock_products stock = 2.
Proof.
  split; [exact wf_stock|].
  destruct (display_low_stock_products_rows stock wf_stock) as [H1 H2].
  rewrite contents_stock in H1, H2. split.
  - rewrite H1. reflexivity.
  - rewrite <- H2. reflexivity.
Defined.

(** ** [search_product] *)








(** ** [display_recent_changes] on a log of at most a hundred lines *)

Lemma c_str_nul_free s : nul_free s -> c_str s = s.
Proof.
  induction 1 as [|c s Hc _ IH]; [done|]. cbn [c_str].
  destruct (Ascii.eqb_spec c NUL); [done|]. by rewrite IH.
Qed.

Lemma concat_split_lines s : concat (split_lines s) = s.
Proof.
  induction s as [|c s IH]; [done|]. cbn [split_lines].
  destruct (c =? LF)%char.
  - simpl. by rewrite IH.
  - destruct (split_lines s) as [|l ls]; simpl in *; by rewrite <- IH.
Qed.

Lemma nul_free_lines s : nul_free s -> Forall nul_free (split_lines s).
Proof.
  intros H. rewrite <- (concat_split_lines s) in H.
  unfold nul_free in *. by apply Forall_concat.
Qed.

Lemma recent_changes_lines count w f :
  inventory_txt w = Some f -> short_log 100 f -> 0 <= count <= INT_MAX ->
  display_recent_changes count w = Some (last_n count (split_lines f)).
Proof.
  intros Hf (Hnul & Hlen & Hk) Hcount.
  rewrite (display_recent_changes_short_log count w f Hf Hcount)
    by (by rewrite fgets_lines_short).
  rewrite fgets_lines_short by done. f_equal.
  unfold last_n. apply list_eq. intros i. rewrite list_lookup_fmap.
  destruct (drop _ (split_lines f) !! i) as [l|] eqn:E; [|done]. simpl. f_equal.
  apply c_str_nul_free.
  rewrite lookup_drop in E. apply list_elem_of_lookup_2 in E.
  pose proof (nul_free_lines f Hnul) as Hall. rewrite Forall_forall in Hall.
  by apply Hall.
Qed.

(** X20. [display_recent_changes] reports that there is no history when
    the log cannot be opened. On a log without NUL of at most a hundred
    lines, none longer than 255 characters, it prints the last [count]
    lines as they are, oldest first, all of them when there are fewer;
    for a [count] of 0 or less it prints no line. *)
Theorem recent_changes_of_short_log count w :
  (inventory_txt w = None -> display_recent_changes count w = None) /\
  (forall f, inventory_txt w = Some f -> short_log 100 f ->
     (0 <= count <= INT_MAX ->
        display_recent_changes count w = Some (last_n count (split_lines f))) /\
     (INT_MIN + 100 < count <= 0 -> display_recent_changes count w = Some [])).
Proof.
  split.
  { intros Hf. unfold display_recent_changes. by rewrite Hf. }
  intros f Hf Hshort. split.
  - intros Hcount. by apply recent_changes_lines.
  - intros Hcount. unfold display_recent_changes. rewrite Hf.
    pose proof (read_log_spec (S (length f)) f (replicate 100 []) 0
                  (length_replicate _ _) ltac:(lia)) as Hrl.
    change (Z.of_nat 0) with 0 in Hrl.
    destruct (read_log (S (length f)) f (replicate 100 []) 0) as [lines total].
    destruct Hrl as (Htot & _ & _). f_equal. unfold for_upto.
    assert (Ht : 0 <= total <= 100) by lia.
    destruct (Z.ltb_spec count total).
    + rewrite wrap32_id by (unfold is_int, INT_MIN, INT_MAX in *; lia).
      by replace (Z.to_nat (total - (total - count))) with 0%nat by lia.
    + by replace (Z.to_nat (total - 0)) with 0%nat by lia.
Qed.

(** ** The change just made is the one shown last *)

Lemma split_lines_one body : plain body -> split_lines (body ++ [LF]) = [body ++ [LF]].
Proof.
  induction 1 as [|c body Hc _ IH]; [done|]. cbn [app split_lines].
  destruct (plain_not_nul_lf c Hc) as [_ ->]. by rewrite IH.
Qed.

Lemma split_lines_after a b :
  split_lines (a ++ LF :: b) = split_lines (a ++ [LF]) ++ split_lines b.
Proof.
  induction a as [|c a IH]; [done|]. cbn [app split_lines].
  destruct (c =? LF)%char; [by rewrite IH|].
  rewrite IH. destruct (split_lines (a ++ [LF])) as [|l ls] eqn:E; [|done].
  apply split_lines_nil in E. by destruct a.
Qed.

Lemma split_lines_append f body :
  whole_lines f -> plain body ->
  split_lines (f ++ body ++ [LF]) = split_lines f ++ [body ++ [LF]].
Proof.
  intros [->|[f0 ->]] Hb.
  - by apply split_lines_one.
  - replace ((f0 ++ [LF]) ++ body ++ [LF]) with (f0 ++ LF :: (body ++ [LF]))
      by (by rewrite <- app_assoc).
    by rewrite (split_lines_after f0 (body ++ [LF])), (split_lines_one body).
Qed.

Lemma isdigit_plain c : isdigit c = true -> is_plain c = true.
Proof.
  intros H. assert (Hp : plain [c]) by (apply plain_digits; by constructor).
  by inversion Hp.
Qed.

Lemma timestamp_plain ts : is_timestamp ts = true -> plain ts /\ length ts = 19%nat.
Proof.
  intros H.
  destruct ts as [|? [|? [|? [|? [|? [|? [|? [|? [|? [|? [|? [|? [|? [|? [|? [|? [|? [|? [|? [|? ?]]]]]]]]]]]]]]]]]]]];
    try discriminate H.
  cbn [is_timestamp] in H. repeat (rewrite andb_true_iff in H; destruct H as [H ?]).
  split; [|done].
  repeat constructor;
    first [ by apply isdigit_plain
          | match goal with
            | E : (?c =? _)%char = true |- is_plain ?c = true =>
                apply Ascii.eqb_eq in E; by rewrite E
            end ].
Qed.

Lemma plain_lit_app (a b : cstr) : plain a -> plain b -> plain (a ++ b).
Proof. apply Forall_app_2. Qed.

Lemma nul_free_plain s : plain s -> nul_free s.
Proof.
  intros H. eapply Forall_impl; [exact H|]. intros c Hc ->. by vm_compute in Hc.
Qed.

(** The text of an ADDED or DELETED line, without its newline. *)
Lemma log_text_full ts change before after q :
  (change = ADD_PRODUCT /\ after = Some q) \/ (change = DELETE_PRODUCT /\ before = Some q) ->
  log_text ts change before after
  = (lit "[" ++ ts ++ lit "] " ++ action_name change ++ lit ": " ++ name q
     ++ lit " (ID: " ++ id q ++ lit ", Qty: " ++ decimal (quantity q)
     ++ lit ", Price: " ++ two_decimals (price q) ++ lit ")") ++ [LF].
Proof.
  intros [[-> ->]|[-> ->]].
  - destruct before; unfold log_text; cbn [action_name];
      unfold sprintf; lazy -[fmt_s fmt_d fmt_f app name id quantity price decimal two_decimals lit];
      rewrite <- !app_assoc; reflexivity.
  - destruct after; unfold log_text; cbn [action_name];
      unfold sprintf; lazy -[fmt_s fmt_d fmt_f app name id quantity price decimal two_decimals lit];
      rewrite <- !app_assoc; reflexivity.
Qed.

Lemma last_n_snoc {A} n (l : list A) x :
  1 <= n -> last_n n (l ++ [x]) = last_n (n - 1) l ++ [x].
Proof.
  intros Hn. unfold last_n. rewrite length_app. simpl.
  assert (E : Z.to_nat (n - 1) = (Z.to_nat n - 1)%nat) by lia.
  rewrite E.
  assert (1 <= Z.to_nat n)%nat by lia.
  generalize dependent (Z.to_nat n). intros k _ Hk.
  replace (length l + 1 - k)%nat with (length l - (k - 1))%nat by lia.
  rewrite drop_app_le by lia. done.
Qed.

Lemma recent_after_append n w old body :
  inventory_txt w = Some (old ++ body ++ [LF]) ->
  short_log 99 old -> whole_lines old -> plain body -> (length body < 255)%nat ->
  1 <= n <= INT_MAX ->
  display_recent_changes n w
  = Some (last_n (n - 1) (split_lines old) ++ [body ++ [LF]]).
Proof.
  intros Hf (Hnul & Hlen & Hk) Hwhole Hbody Hshort Hn.
  rewrite (recent_changes_lines n w _ Hf); [|split; [|split]|lia].
  - by rewrite split_lines_append, last_n_snoc by (done || lia).
  - apply Forall_app_2; [done|]. apply Forall_app_2; [by apply nul_free_plain|].
    apply Forall_singleton. by vm_compute.
  - rewrite split_lines_append by done. apply Forall_app_2; [done|].
    apply Forall_singleton. rewrite length_app. simpl. lia.
  - rewrite split_lines_append by done. rewrite length_app. simpl. lia.
Qed.

Ltac plain_text :=
  repeat first
    [ assumption
    | match goal with |- Forall _ (lit _) => by (vm_compute; repeat constructor) end
    | apply Forall_app_2 ].

(** X21. After [add_product] has added a storable product at a calendar
    time, on a change log that can be opened and holds at most 99 whole
    lines, [display_recent_changes] ends with the line of that addition:
    for [n] at least 1 it shows the last [n - 1] lines there were and
    then the new ADDED line. *)
Theorem added_product_shown_last inv p w n :
  wf_invent inv -> product_count inv < Max ->
  (forall q, q ∈ contents inv -> id q <> id p) ->
  log_writable w = true -> calendar_tm (now w) -> storable p ->
  short_log 99 (default [] (inventory_txt w)) ->
  whole_lines (default [] (inventory_txt w)) ->
  1 <= n <= INT_MAX ->
  display_recent_changes n (add_product inv p w).2
  = Some (last_n (n - 1) (split_lines (default [] (inventory_txt w)))
          ++ [log_text (log_timestamp w) ADD_PRODUCT None (Some p)]).
Proof.
  intros Hwf Hroom Hfresh Hlog Hcal Hp Hshort Hwhole Hn.
  rewrite add_product_added by done. cbn [snd].
  destruct Hp as ((Hnl & Hnp & _) & (Hil & Hip & _) & _ & _ & Hq & _ & Hfin & Hval).
  destruct (timestamp_plain _ (log_timestamp_shape w Hcal)) as [Hts Htl].
  rewrite (log_text_full _ ADD_PRODUCT None (Some p) p) by (by left).
  apply recent_after_append; try done.
  - rewrite inventory_txt_save_inventory. unfold log_inventory_change.
    rewrite Hlog. cbn [negb inventory_txt set_inventory_txt].
    by rewrite (log_text_full _ ADD_PRODUCT None (Some p) p) by (by left).
  - pose proof (plain_decimal (quantity p)).
    pose proof (plain_two_decimals (price p) Hfin).
    cbn [action_name]. plain_text.
  - pose proof (length_decimal (quantity p) Hq).
    pose proof (length_two_decimals (price p) Hfin Hval).
    rewrite !length_app, Htl. cbn [action_name lit list_ascii_of_string length]. lia.
Qed.

Lemma added_product_shown_last_witness :
  wf_invent (inventory_of [rice; oil]) /\
  storable soap /\
  display_recent_changes 1 (add_product (inventory_of [rice; oil]) soap world0).2
  = Some [lit "[2024-03-09 14:05:30] ADDED: Soap (ID: P010, Qty: 0, Price: 300.00)"
          ++ [LF]].
Proof.
  assert (Hs : storable soap).
  { pose proof storable_stock as H. rewrite contents_stock in H.
    apply Forall_cons_1 in H as [_ H]. apply Forall_cons_1 in H as [_ H].
    by apply Forall_cons_1 in H as [H _]. }
  split; [exact wf_two|]. split; [exact Hs|].
  rewrite (added_product_shown_last (inventory_of [rice; oil]) soap world0 1).
  - vm_compute. reflexivity.
  - exact wf_two.
  - vm_compute. reflexivity.
  - rewrite contents_inventory_of by (vm_compute; lia).
    intros q Hq. apply list_elem_of_In in Hq.
    destruct Hq as [<-|[<-|[]]]; discriminate.
  - reflexivity.
  - exact calendar_tm0.
  - exact Hs.
  - split; [constructor|]. split; [constructor|]. simpl. lia.
  - by left.
  - vm_compute. split; discriminate.
Defined.

(** * The menu loop *)

(** ** The inventory stays well formed *)




Lemma wf_load_inventory inv w :
  length (products inv) = Z.to_nat Max ->
  wf_invent (load_inventory (init_invent inv) w).2.
Proof.
  intros Hlen. unfold load_inventory.
  destruct (data_txt w) as [f|]; cbn [snd].
  - pose proof (load_loop_spec (S (length f)) f (set_count (init_invent inv) 0)) as H.
    cbv zeta in H. destruct H as (_ & Hc & Hl); [done|cbn; unfold Max; lia|].
    split; [done|]. rewrite Hc. cbn [product_count set_count].
    rewrite length_take. unfold Max. lia.
  - split; [done|]. cbn. unfold Max. lia.
Qed.





(** ** Leaving the menu *)

Lemma scan_int_zero ws rest :
  Forall (fun c => isspace c = true) ws -> stops isdigit rest ->
  scan_int (ws ++ "0"%char :: rest) = (Some 0, rest).
Proof.
  intros Hws Hrest. rewrite scan_int_spaces by done.
  apply (scan_int_decimal 0 rest); [|done].
  unfold is_int, INT_MIN, INT_MAX. lia.
Qed.

(** X23. When the next thing typed is the number 0, after any white
    space, the turn that reads it is the last one: the loop ends with
    the inventory, the id buffer and both files as they were, and one
    character after the 0 taken off the input. *)
Theorem menu_ends_on_zero fuel l s ws rest :
  Forall (fun c => isspace c = true) ws -> stops isdigit rest ->
  stdin (world s) = ws ++ "0"%char :: rest ->
  main_loop (S fuel) l s
  = Some {| inventory := inventory s; choice := 0; main_id := main_id s;
            world := set_stdin (world s) (drop 1 rest) |}.
Proof.
  intros Hws Hrest Hin. cbn [main_loop]. unfold main_turn, sscanf.
  change (scan_format (lit "%d") SLit) with [DInt]. cbn [run_scan].
  rewrite Hin, scan_int_zero by done. cbn [rev app].
  unfold main_switch. cbn. done.
Qed.

Lemma menu_ends_on_zero_witness :
  main_loop 1 {| junk_choice := 7; junk_id := []; junk_keyword := [];
                 junk_reset := "n"%char |}
    {| inventory := stock; choice := 7; main_id := [];
       world := set_stdin world0 (lit " 0" ++ [LF]) |}
  = Some {| inventory := stock; choice := 0; main_id := [];
            world := set_stdin (set_stdin world0 (lit " 0" ++ [LF])) [] |}.
Proof.
  assert (Hws : Forall (fun c => isspace c = true) (lit " ")) by (by repeat constructor).
  exact (menu_ends_on_zero 0
           {| junk_choice := 7; junk_id := []; junk_keyword := []; junk_reset := "n"%char |}
           {| inventory := stock; choice := 7; main_id := [];
              world := set_stdin world0 (lit " 0" ++ [LF]) |}
           (lit " ") [LF] Hws eq_refl eq_refl).
Defined.

(** ** The menu at the end of the input *)











(** * The operations in a run *)

(** ** The inventory a run starts with *)

Lemma loaded_products inv w q :
  length (products inv) = Z.to_nat Max ->
  q ∈ contents (load_inventory (init_invent inv) w).2 ->
  exists line, parse_line line = Some q.
Proof.
  intros Hlen Hq. destruct (data_txt w) as [f|] eqn:Hf.
  - destruct (load_inventory_loaded (init_invent inv) w f Hlen Hf) as (_ & Hc & _).
    rewrite Hc in Hq. apply elem_of_take in Hq as (i & Hq & _).
    apply list_elem_of_lookup_2, list_elem_of_omap in Hq as (buf & _ & Hq).
    by eexists.
  - unfold load_inventory in Hq. rewrite Hf in Hq. cbn in Hq.
    by apply elem_of_nil in Hq.
Qed.

(** X25. Whatever the store holds, the inventory [main] starts with
    after [init_invent] and [load_inventory] is well formed, every id in
    it has between one and nine characters, and the id
    [generate_unique_id] then writes is the id of none of its products:
    [search_product_by_id] does not find it. *)
Theorem loaded_inventory_ids inv w :
  length (products inv) = Z.to_nat Max ->
  let inv' := (load_inventory (init_invent inv) w).2 in
  wf_invent inv' /\
  Forall (fun p => (1 <= length (id p) <= 9)%nat) (contents inv') /\
  Forall (fun p => id p <> generate_unique_id inv') (contents inv') /\
  search_product_by_id inv' (generate_unique_id inv') = -1.
Proof.
  intros Hlen. cbv zeta.
  pose proof (wf_load_inventory inv w Hlen) as Hwf.
  assert (Hid : Forall (fun p => (1 <= length (id p) <= 9)%nat)
                  (contents (load_inventory (init_invent inv) w).2)).
  { apply Forall_forall. intros q Hq.
    destruct (loaded_products inv w q Hlen Hq) as [line Hline].
    by destruct (parse_line_some line q Hline) as (_ & _ & ? & _). }
  assert (Hid9 : Forall (fun p => (length (id p) <= 9)%nat)
                   (contents (load_inventory (init_invent inv) w).2)).
  { eapply Forall_impl; [exact Hid|]. intros q Hq. cbn beta in Hq. lia. }
  split; [done|]. split; [done|]. split.
  - apply Forall_forall. intros q Hq. by apply generated_id_unused.
  - apply search_absent; [done|]. intros q Hq. by apply generated_id_unused.
Qed.

Lemma loaded_inventory_ids_witness :
  length (products stock) = Z.to_nat Max /\
  search_product_by_id
    (load_inventory (init_invent stock) (set_data_txt world0 (Some twin_store))).2
    (generate_unique_id
       (load_inventory (init_invent stock) (set_data_txt world0 (Some twin_store))).2)
  = -1.
Proof.
  assert (Hlen : length (products stock) = Z.to_nat Max) by (vm_compute; reflexivity).
  split; [exact Hlen|].
  exact (proj2 (proj2 (proj2 (loaded_inventory_ids stock
                                (set_data_txt world0 (Some twin_store)) Hlen)))).
Defined.
(** ** A change typed on one line *)



(** ** A turn of the menu that adds a product *)





(** ** Ids generated one after the other *)

Lemma max_number_app l1 l2 :
  max_number (l1 ++ l2) = Z.max (max_number l1) (max_number l2).
Proof.
  induction l1 as [|a l1 IH]; simpl.
  - pose proof (max_number_nonneg l2). unfold max_number in *. lia.
  - unfold max_number in *. simpl. rewrite IH. lia.
Qed.

Lemma id_numbers_snoc l p n :
  0 <= n < 10 ^ 8 -> id p = lit "P" ++ three_digits n ->
  id_numbers (l ++ [p]) = id_numbers l ++ [n].
Proof.
  intros Hn Hp. unfold id_numbers.
  rewrite List.filter_app, fmap_app. f_equal. cbn [List.filter].
  rewrite Hp.
  change (strncmp_eq (lit "P" ++ three_digits n) (lit "P") 1) with true.
  cbn [fmap list_fmap]. f_equal. rewrite Hp. simpl. rewrite drop_0.
  destruct (three_digits_spec n) as (Hds & Hne & Hv); [lia|].
  rewrite atoi_digits, Hv by done.
  apply wrap32_id. unfold is_int, INT_MIN, INT_MAX. lia.
Qed.

(** X28. Ids generated in succession are consecutive: on a well-formed
    inventory with room, ids of at most nine characters and a greatest
    number [m] below 99999999, the first case of the menu adds its
    product under "P" and [m + 1] on at least three digits, the ids
    still have at most nine characters, and the next id generated is
    "P" and [m + 2]. *)
Theorem generated_ids_are_consecutive inv w :
  wf_invent inv -> product_count inv < Max ->
  Forall (fun p => (length (id p) <= 9)%nat) (contents inv) ->
  max_number (id_numbers (contents inv)) < 99999999 ->
  let m := max_number (id_numbers (contents inv)) in
  let inv' := (main_case_1 inv w).1.2 in
  generate_unique_id inv = lit "P" ++ three_digits (m + 1) /\
  Forall (fun p => (length (id p) <= 9)%nat) (contents inv') /\
  max_number (id_numbers (contents inv')) = m + 1 /\
  generate_unique_id inv' = lit "P" ++ three_digits (m + 2).
Proof.
  intros Hwf Hroom Hid Hm. cbv zeta.
  pose proof (max_number_nonneg (id_numbers (contents inv))) as Hnn.
  pose proof (generate_unique_id_max inv Hwf Hid) as Hgen.
  set (m := max_number (id_numbers (contents inv))) in *.
  unfold main_case_1.
  destruct (input_product (init_prod (Some (now w))) w) as [p1 w1].
  rewrite write_id_fits by (by apply generate_unique_id_fits).
  set (p := with_id p1 (generate_unique_id inv)).
  assert (Hp : id p = lit "P" ++ three_digits (m + 1)) by exact Hgen.
  rewrite add_product_added; [|done|done|].
  2:{ intros q Hq. by apply generated_id_unused. }
  cbn [fst snd].
  set (inv' := set_count _ _).
  assert (Hwf' : wf_invent inv') by (by apply wf_store_next).
  assert (Hc' : contents inv' = contents inv ++ [p]) by (by apply contents_store_next).
  assert (Hid' : Forall (fun p => (length (id p) <= 9)%nat) (contents inv')).
  { rewrite Hc'. apply Forall_app_2; [done|]. apply Forall_singleton.
    rewrite Hp, length_app, length_three_digits.
    pose proof (utoa_length (m + 1) 8 ltac:(simpl; lia) ltac:(lia)).
    cbn [lit list_ascii_of_string length]. lia. }
  assert (Hmax : max_number (id_numbers (contents inv')) = m + 1).
  { rewrite Hc', (id_numbers_snoc _ p (m + 1)) by (done || lia).
    rewrite max_number_app. fold m. simpl. lia. }
  split; [done|]. split; [done|]. split; [done|].
  rewrite generate_unique_id_max, Hmax by done.
  by replace (m + 1 + 1) with (m + 2) by lia.
Qed.

Lemma generated_ids_are_consecutive_witness :
  wf_invent stock /\
  Forall (fun p => (length (id p) <= 9)%nat) (contents stock) /\
  generate_unique_id stock = lit "P011" /\
  generate_unique_id (main_case_1 stock world0).1.2 = lit "P012".
Proof.
  split; [exact wf_stock|]. split; [exact stock_id_lengths|].
  destruct (generated_ids_are_consecutive stock world0 wf_stock) as (H1 & _ & _ & H2).
  - vm_compute. reflexivity.
  - exact stock_id_lengths.
  - rewrite contents_stock. vm_compute. reflexivity.
  - rewrite contents_stock in H1, H2. split.
    + rewrite H1. vm_compute. reflexivity.
    + rewrite H2. vm_compute. reflexivity.
Defined.

(** ** The lines logged by [modify_product] and [delete_product] *)

Lemma log_text_reduced ts b a :
  log_text ts MODIFY_PRODUCT (Some b) (Some a)
  = lit "[" ++ ts ++ lit "] MODIFIED: " ++ name a ++ lit " (ID: " ++ id a ++ lit ")" ++ [LF].
Proof. reflexivity. Qed.

Lemma log_timestamp_stdin w s : log_timestamp (set_stdin w s) = log_timestamp w.
Proof. reflexivity. Qed.

(** X29. With a change log that can be opened, [modify_product] of an
    id in use appends one MODIFIED line that carries the name after the
    change and the id, and nothing of the values before; a confirmed
    [delete_product] appends one DELETED line with the name, id,
    quantity and price of the record it removes, the first with that
    id. *)
Theorem modify_delete_log_lines inv pid w :
  wf_invent inv ->
  (exists q, q ∈ contents inv /\ id q = pid) ->
  log_writable w = true ->
  let k := search_product_by_id inv pid in
  let ts := log_timestamp w in
  let old := default [] (inventory_txt w) in
  (let '(_, _, inv', w') := modify_product inv pid w in
   inventory_txt w'
   = Some (old ++ lit "[" ++ ts ++ lit "] MODIFIED: " ++ name (at_index inv' k)
           ++ lit " (ID: " ++ pid ++ lit ")" ++ [LF])) /\
  (confirmed (read_confirm w).1 = true ->
   let '(_, _, _, w') := delete_product inv pid w in
   inventory_txt w'
   = Some (old ++ lit "[" ++ ts ++ lit "] DELETED: " ++ name (at_index inv k)
           ++ lit " (ID: " ++ pid ++ lit ", Qty: " ++ decimal (quantity (at_index inv k))
           ++ lit ", Price: " ++ two_decimals (price (at_index inv k)) ++ lit ")" ++ [LF])).
Proof.
  intros Hwf Hex Hlog. cbv zeta.
  destruct (search_found inv pid Hwf Hex) as [Hk Hidk]. split.
  - unfold modify_product.
    destruct (Z.eqb_spec (search_product_by_id inv pid) (-1)) as [?|_]; [lia|].
    pose proof (read_entries_frame w) as (_ & _ & Hlt & Hlw).
    assert (Hts : log_timestamp (read_entries w).2 = log_timestamp w).
    { unfold read_entries.
      destruct (sscanf (stdin w) _) as [r1 in1].
      destruct (sscanf in1 _) as [r2 in2].
      destruct (sscanf in2 _) as [r3 in3].
      destruct (sscanf in3 _) as [r4 in4].
      destruct (sscanf in4 _) as [r5 in5]. reflexivity. }
    destruct (read_entries w) as [e w0]. cbn [snd] in *.
    rewrite inventory_txt_save_inventory. unfold log_inventory_change.
    rewrite Hlw, Hlog. cbn [negb inventory_txt set_inventory_txt].
    rewrite Hlt, Hts, log_text_reduced.
    assert (Hid' : id (at_index (apply_entries inv (search_product_by_id inv pid) e)
                                (search_product_by_id inv pid)) = pid).
    { rewrite apply_entries_edited.
      rewrite at_index_update_at by (destruct Hwf as [Hl Hc]; unfold Max in *; lia).
      rewrite <- Hidk at 2. unfold edited. cbv zeta.
      destruct (0 <? length (e_name e))%nat, (0 <? length (e_category e))%nat,
        (0 <=? e_qty e), (fge (e_price e) (float_of_int 0)), (0 <=? e_threshold e);
        reflexivity. }
    by rewrite Hid'.
  - intros Hyes. rewrite delete_product_done by done. cbv zeta.
    rewrite inventory_txt_save_inventory. unfold log_inventory_change, read_confirm.
    destruct (sscanf (stdin w) (lit " %c")) as [r rest0].
    cbn [snd log_writable set_stdin]. rewrite Hlog.
    cbn [negb inventory_txt set_inventory_txt set_stdin].
    rewrite (log_text_full _ DELETE_PRODUCT _ None (at_index inv (search_product_by_id inv pid)))
      by (by right).
    rewrite Hidk. cbn [action_name]. rewrite <- !app_assoc. reflexivity.
Qed.

Lemma modify_delete_log_lines_witness :
  wf_invent stock /\
  inventory_txt (delete_product stock (lit "P003") (set_stdin world0 (lit "y"))).2
  = Some (lit "[2024-03-09 14:05:30] DELETED: Oil (ID: P003, Qty: 3, Price: 1250.00)"
          ++ [LF]).
Proof.
  split; [exact wf_stock|].
  assert (Hex : exists q, q ∈ contents stock /\ id q = lit "P003").
  { exists oil. split; [|reflexivity]. rewrite contents_stock.
    apply list_elem_of_In. simpl. tauto. }
  destruct (modify_delete_log_lines stock (lit "P003") (set_stdin world0 (lit "y"))
              wf_stock Hex eq_refl) as [_ H].
  specialize (H eq_refl).
  destruct (delete_product stock (lit "P003") (set_stdin world0 (lit "y")))
    as [[[ret msg] inv'] w'].
  cbn [snd]. rewrite H. vm_compute. reflexivity.
Defined.
(** ** A name that does not fit *)



